(** * Visit ingestion and aggregation engine (analytics-service.ts)

    A shallow embedding of the analytics service, in the version that has
    [updateSiteByOwner] and [deleteSiteByOwner].  The three SQLite tables
    of db.ts become lists of typed rows; every exported function becomes a
    function from a store to a new store and a result; a thrown [Error]
    becomes the [Throw] result, and a call that throws writes nothing.

    - Calls run one after the other: the handlers are synchronous and the
      writes of [recordVisit] are one transaction.
    - What a call reads from its environment is an argument of the model:
      the readings of CURRENT_TIMESTAMP and the token of [randomBytes].
    - Visit counts are integers without bound; the SQLite integers and
      JavaScript numbers that hold them are exact below 2^53.
    - Behaviour of the platform and of third-party packages (the WHATWG
      [URL] constructor, [nip19.decode], SQLite's [date(..., 'localtime')],
      [localeCompare]) is collected in the [Runtime] interface, and every
      general theorem holds for whatever the platform computes. *)

From Stdlib Require Import ZArith List String Ascii Bool Lia DecimalString.
From Stdlib Require Import Sorted.
Import ListNotations.
Open Scope Z_scope.
Open Scope string_scope.

(** ** JavaScript strings

    A JavaScript string is modelled by a Rocq [string] whose characters are
    the code units 0..255.  On that range the functions below are the
    ECMAScript ones. *)
Module JS.

(** [!s] is false exactly for the non-empty string. *)
Definition truthy (s : string) : bool := negb (s =? "").

(** [o || ""] for [o : string | null | undefined]. *)
Definition orEmpty (o : option string) : string :=
  match o with Some s => s | None => "" end.

(** [s || null]. *)
Definition orNull (s : string) : option string :=
  if truthy s then Some s else None.

Definition startsWith (s p : string) : bool := String.prefix p s.

Fixpoint includes (s sub : string) : bool :=
  String.prefix sub s ||
  match s with
  | EmptyString => false
  | String _ s' => includes s' sub
  end.

(** WhiteSpace and LineTerminator code units below 256:
    TAB, LF, VT, FF, CR, SP and NBSP. *)
Definition isWhiteSpace (c : ascii) : bool :=
  let n := N_of_ascii c in
  ((9 <=? n) && (n <=? 13) || (n =? 32) || (n =? 160))%N.

Fixpoint trimStart (s : string) : string :=
  match s with
  | EmptyString => EmptyString
  | String c s' => if isWhiteSpace c then trimStart s' else s
  end.

Fixpoint trimEnd (s : string) : string :=
  match s with
  | EmptyString => EmptyString
  | String c s' =>
      let t := trimEnd s' in
      if isWhiteSpace c && (t =? "") then EmptyString else String c t
  end.

Definition trim (s : string) : string := trimEnd (trimStart s).

(** Lower-casing of one code unit: A-Z, and the Latin-1 capitals
    U+00C0..U+00DE except the multiplication sign U+00D7. *)
Definition lowerChar (c : ascii) : ascii :=
  let n := N_of_ascii c in
  if ((65 <=? n) && (n <=? 90) ||
      (192 <=? n) && (n <=? 222) && negb (n =? 215))%N
  then ascii_of_N (n + 32) else c.

Fixpoint toLowerCase (s : string) : string :=
  match s with
  | EmptyString => EmptyString
  | String c s' => String (lowerChar c) (toLowerCase s')
  end.

Definition isHexDigit (c : ascii) : bool :=
  let n := N_of_ascii c in
  ((48 <=? n) && (n <=? 57) || (97 <=? n) && (n <=? 102) ||
   (65 <=? n) && (n <=? 70))%N.

(** The regular expression [/^[0-9a-f]{64}$/i]. *)
Definition test_hex64 (s : string) : bool :=
  (Nat.eqb (String.length s) 64) && forallb isHexDigit (list_ascii_of_string s).

End JS.

(** ** Results *)

Inductive result (A : Type) : Type :=
| Ok (value : A)
| Throw (message : string).
Arguments Ok {A} value.
Arguments Throw {A} message.

(** ** Platform interface *)

(** The payload of a decoded NIP-19 entity is a hex string for [npub] and
    [note], and a byte array or an object for the other kinds. *)
Inductive DecodedData : Type :=
| DataString (s : string)
| DataOther.

Record DecodeResult : Type := { d_type : string; d_data : DecodedData }.

Class Runtime : Type := {
  (** [new URL(input).pathname] (base [None]) and
      [new URL(input, base).pathname]; [None] when the constructor throws. *)
  URL_pathname : string -> option string -> option string;
  (** [nip19.decode(value)]; [None] when it throws. *)
  nip19_decode : string -> option DecodeResult;
  (** SQLite's [date(t, 'localtime')]. *)
  date_localtime : string -> string;
  (** [a.localeCompare(b)]. *)
  localeCompare : string -> string -> Z
}.

(** ** types.ts *)

Inductive DeviceType : Type := desktop | mobile | tablet | other.

Definition DeviceType_eqb (a b : DeviceType) : bool :=
  match a, b with
  | desktop, desktop | mobile, mobile | tablet, tablet | other, other => true
  | _, _ => false
  end.

Definition DeviceType_string (d : DeviceType) : string :=
  match d with
  | desktop => "desktop"
  | mobile => "mobile"
  | tablet => "tablet"
  | other => "other"
  end.

Definition DEVICE_TYPES : list DeviceType := [desktop; mobile; tablet; other].

Record SiteRecord : Type := {
  id : Z;
  site_uuid : string;
  name : option string;
  owner_npub : option string;
  owner_signature : option string;
  secret_token : string;
  created_at : string;
  updated_at : string
}.

(** A row of table [page_stats]: the columns of [PageStatRow] and the
    foreign key.  The surrogate keys of [page_stats] and [visits] are never
    read by the service and are left out. *)
Record PageStatRow : Type := {
  site_id : Z;
  page_path : string;
  device_type : DeviceType;
  visit_count : Z;
  last_seen : string
}.

(** A row of table [visits]. *)
Record VisitRow : Type := {
  v_site_id : Z;
  v_page_path : string;
  v_device_type : DeviceType;
  nostr_event_id : option string;
  visited_at : string
}.

Record Devices : Type := {
  dev_desktop : Z; dev_mobile : Z; dev_tablet : Z; dev_other : Z
}.

Record PageStats : Type := {
  page : string;
  totalVisits : Z;
  devices : Devices;
  lastSeen : option string
}.

Record DailyVisits : Type := { date : string; dv_visits : Z }.

Record PageVisitsByDay : Type := { pvd_page : string; days : list DailyVisits }.

Record SiteSummary : Type := {
  uuid : string; ss_name : option string; ownerNpub : option string
}.

Record Totals : Type := { visits : Z; pages : Z }.

Record SiteStats : Type := {
  site : SiteSummary;
  totals : Totals;
  st_pages : list PageStats;
  visitsByDay : list DailyVisits;
  pageVisitsByDay : list PageVisitsByDay
}.

(** ** db.ts: the store *)

(** [sites_seq] is the AUTOINCREMENT counter of table [sites]: the largest
    key ever handed out. *)
Record Store : Type := {
  sites_table : list SiteRecord;
  page_stats_table : list PageStatRow;
  visits_table : list VisitRow;
  sites_seq : Z
}.

Definition empty_store : Store :=
  {| sites_table := []; page_stats_table := []; visits_table := [];
     sites_seq := 0 |}.

(** ** analytics-service.ts: normalizers *)

Section Normalizers.
Context {RT : Runtime}.

Definition parseDeviceType (input : string) : option DeviceType :=
  find (fun d => DeviceType_string d =? input) DEVICE_TYPES.

Definition normalizeDeviceType (deviceType userAgent : option string) : DeviceType :=
  let input := JS.trim (JS.toLowerCase (JS.orEmpty deviceType)) in
  match parseDeviceType input with
  | Some d => d
  | None =>
      let ua := JS.toLowerCase (JS.orEmpty userAgent) in
      if JS.includes ua "mobile" then mobile
      else if JS.includes ua "tablet" || JS.includes ua "ipad" then tablet
      else if JS.truthy ua then desktop
      else other
  end.

Definition normalizePagePath (path : option string) : string :=
  match path with
  | None => "/"
  | Some p =>
      if negb (JS.truthy p) then "/"
      else
        let url :=
          if JS.startsWith p "http" then URL_pathname p None
          else URL_pathname p (Some "http://placeholder") in
        match url with
        | Some pathname => if JS.truthy pathname then pathname else "/"
        | None => if JS.startsWith p "/" then p else "/" ++ p
        end
  end.

Definition normalizeHexPubkey (input : option string) : option string :=
  match input with
  | None => None
  | Some i =>
      if negb (JS.truthy i) then None
      else
        let value := JS.trim i in
        if JS.test_hex64 value then Some (JS.toLowerCase value)
        else
          match nip19_decode value with
          | Some {| d_type := ty; d_data := DataString data |} =>
              if ty =? "npub" then Some (JS.toLowerCase data) else None
          | _ => None
          end
  end.

End Normalizers.

(** ** SQL and collection helpers *)

(** Truthiness of a [string | null] value. *)
Definition opt_truthy (o : option string) : bool := JS.truthy (JS.orEmpty o).

(** [o !== s] for [o : string | null] and a string [s]. *)
Definition strict_neq (o : option string) (s : string) : bool :=
  match o with
  | Some x => negb (x =? s)
  | None => true
  end.

(** SQL [COALESCE(x, y)]. *)
Definition COALESCE {A : Type} (x y : option A) : option A :=
  match x with
  | Some _ => x
  | None => y
  end.

(** [ORDER BY]: a stable insertion sort for the order [le]. *)
Fixpoint insert_sorted {A : Type} (le : A -> A -> bool) (x : A) (l : list A) : list A :=
  match l with
  | [] => [x]
  | y :: l' => if le x y then x :: l else y :: insert_sorted le x l'
  end.

Definition order_by {A : Type} (le : A -> A -> bool) (l : list A) : list A :=
  fold_right (insert_sorted le) [] l.

(** [SELECT k, COUNT( * ) ... GROUP BY k ORDER BY k]: the groups are kept
    sorted by key while the rows are counted. *)
Fixpoint count_into {K : Type} (cmp : K -> K -> comparison) (k : K)
    (l : list (K * Z)) : list (K * Z) :=
  match l with
  | [] => [(k, 1)]
  | (k', n) :: l' =>
      match cmp k k' with
      | Eq => (k', n + 1) :: l'
      | Lt => (k, 1) :: l
      | Gt => (k', n) :: count_into cmp k l'
      end
  end.

Definition group_count {K : Type} (cmp : K -> K -> comparison) (keys : list K)
    : list (K * Z) :=
  fold_left (fun acc k => count_into cmp k acc) keys [].

(** Text columns are compared with the BINARY collation. *)
Definition pair_compare (a b : string * string) : comparison :=
  match String.compare (fst a) (fst b) with
  | Eq => String.compare (snd a) (snd b)
  | c => c
  end.

(** Order of [ORDER BY page_path, device_type]. *)
Definition page_device_le (a b : PageStatRow) : bool :=
  match pair_compare (page_path a, DeviceType_string (device_type a))
                     (page_path b, DeviceType_string (device_type b)) with
  | Gt => false
  | _ => true
  end.

(** A JavaScript [Map] with string keys: an association list in insertion
    order; [Map_set] on a present key keeps its position. *)
Fixpoint Map_get {V : Type} (m : list (string * V)) (k : string) : option V :=
  match m with
  | [] => None
  | (k', v) :: m' => if k' =? k then Some v else Map_get m' k
  end.

Fixpoint Map_set {V : Type} (m : list (string * V)) (k : string) (v : V)
    : list (string * V) :=
  match m with
  | [] => [(k, v)]
  | (k', v') :: m' => if k' =? k then (k, v) :: m' else (k', v') :: Map_set m' k v
  end.

Definition Map_values {V : Type} (m : list (string * V)) : list V := map snd m.

(** ** analytics-service.ts: the operations *)

Module VisitResult.
Record t : Type := {
  siteUuid : string;
  pagePath : string;
  deviceType : DeviceType;
  visits : Z;
  lastSeen : option string
}.
End VisitResult.

Module DeleteResult.
Record t : Type := { siteUuid : string; deleted : bool }.
End DeleteResult.

Definition findSite (st : Store) (siteUuid : string) : option SiteRecord :=
  find (fun s => site_uuid s =? siteUuid) (sites_table st).

Definition with_sites (st : Store) (l : list SiteRecord) : Store :=
  {| sites_table := l; page_stats_table := page_stats_table st;
     visits_table := visits_table st; sites_seq := sites_seq st |}.

(** [UPDATE sites SET ... WHERE site_uuid = ?]. *)
Definition update_sites (siteUuid : string) (f : SiteRecord -> SiteRecord)
    (st : Store) : Store :=
  with_sites st
    (map (fun s => if site_uuid s =? siteUuid then f s else s) (sites_table st)).

(** [UPDATE sites SET name = COALESCE(?, name), owner_npub = COALESCE(?,
    owner_npub), updated_at = CURRENT_TIMESTAMP] on one row. *)
Definition register_set (n o : option string) (now : string) (s : SiteRecord)
    : SiteRecord :=
  {| id := id s; site_uuid := site_uuid s;
     name := COALESCE n (name s);
     owner_npub := COALESCE o (owner_npub s);
     owner_signature := owner_signature s;
     secret_token := secret_token s;
     created_at := created_at s;
     updated_at := now |}.

(** [registerSite].  [now] is CURRENT_TIMESTAMP, [secretToken] the value of
    [randomBytes(24).toString("hex")].  The function returns what
    [findSite] returns after the write. *)
Definition registerSite (st : Store) (now secretToken : string)
    (siteUuid : string) (name : option string) (ownerNpub : string)
    : Store * result (option SiteRecord) :=
  match findSite st siteUuid with
  | Some existing =>
      if JS.truthy ownerNpub && opt_truthy (owner_npub existing)
         && strict_neq (owner_npub existing) ownerNpub
      then (st, Throw "Owner npub does not match existing site owner")
      else
        let st' :=
          update_sites siteUuid (register_set name (Some ownerNpub) now) st in
        (st', Ok (findSite st' siteUuid))
  | None =>
      let row :=
        {| id := sites_seq st + 1; site_uuid := siteUuid; name := name;
           owner_npub := Some ownerNpub; owner_signature := None;
           secret_token := secretToken; created_at := now; updated_at := now |} in
      let st' :=
        {| sites_table := sites_table st ++ [row];
           page_stats_table := page_stats_table st;
           visits_table := visits_table st;
           sites_seq := sites_seq st + 1 |} in
      (st', Ok (findSite st' siteUuid))
  end.

Definition event_stored (st : Store) (e : string) : bool :=
  existsb (fun v => negb (strict_neq (nostr_event_id v) e)) (visits_table st).

(** [INSERT OR IGNORE INTO visits]: the unique index on [nostr_event_id]
    is the only constraint the row can violate, and NULLs never conflict.
    The second component is [changes]. *)
Definition insert_or_ignore_visit (st : Store) (v : VisitRow) : Store * Z :=
  let inserted :=
    {| sites_table := sites_table st; page_stats_table := page_stats_table st;
       visits_table := visits_table st ++ [v]; sites_seq := sites_seq st |} in
  match nostr_event_id v with
  | Some e => if event_stored st e then (st, 0) else (inserted, 1)
  | None => (inserted, 1)
  end.

Definition same_triple (sid : Z) (page : string) (dev : DeviceType)
    (r : PageStatRow) : bool :=
  (site_id r =? sid)%Z && (page_path r =? page) && DeviceType_eqb (device_type r) dev.

(** [SELECT visit_count, last_seen FROM page_stats WHERE site_id = ? AND
    page_path = ? AND device_type = ?]. *)
Definition select_page_stat (st : Store) (sid : Z) (page : string)
    (dev : DeviceType) : option PageStatRow :=
  find (same_triple sid page dev) (page_stats_table st).

(** [INSERT INTO page_stats ... ON CONFLICT(site_id, page_path, device_type)
    DO UPDATE SET visit_count = visit_count + 1, last_seen =
    CURRENT_TIMESTAMP RETURNING visit_count, last_seen]. *)
Fixpoint upsert_rows (sid : Z) (page : string) (dev : DeviceType) (now : string)
    (rows : list PageStatRow) : list PageStatRow * PageStatRow :=
  match rows with
  | [] =>
      let r := {| site_id := sid; page_path := page; device_type := dev;
                  visit_count := 1; last_seen := now |} in
      ([r], r)
  | r :: rows' =>
      if same_triple sid page dev r then
        let r' := {| site_id := site_id r; page_path := page_path r;
                     device_type := device_type r;
                     visit_count := visit_count r + 1; last_seen := now |} in
        (r' :: rows', r')
      else
        let '(rows'', ret) := upsert_rows sid page dev now rows' in
        (r :: rows'', ret)
  end.

Definition upsert_page_stat (st : Store) (sid : Z) (page : string)
    (dev : DeviceType) (now : string) : Store * PageStatRow :=
  let '(rows, ret) := upsert_rows sid page dev now (page_stats_table st) in
  ({| sites_table := sites_table st; page_stats_table := rows;
      visits_table := visits_table st; sites_seq := sites_seq st |}, ret).

Definition set_device (d : DeviceType) (n : Z) (ds : Devices) : Devices :=
  match d with
  | desktop => {| dev_desktop := n; dev_mobile := dev_mobile ds;
                  dev_tablet := dev_tablet ds; dev_other := dev_other ds |}
  | mobile => {| dev_desktop := dev_desktop ds; dev_mobile := n;
                 dev_tablet := dev_tablet ds; dev_other := dev_other ds |}
  | tablet => {| dev_desktop := dev_desktop ds; dev_mobile := dev_mobile ds;
                 dev_tablet := n; dev_other := dev_other ds |}
  | other => {| dev_desktop := dev_desktop ds; dev_mobile := dev_mobile ds;
                dev_tablet := dev_tablet ds; dev_other := n |}
  end.

(** One turn of the loop [for (const row of rows)] of [getSiteStats]; the
    state is [pageMap] and [totalVisits]. *)
Definition page_loop_body (acc : list (string * PageStats) * Z) (row : PageStatRow)
    : list (string * PageStats) * Z :=
  let '(pageMap, total) := acc in
  let existing :=
    match Map_get pageMap (page_path row) with
    | Some e => e
    | None =>
        {| page := page_path row; totalVisits := 0;
           devices := {| dev_desktop := 0; dev_mobile := 0;
                         dev_tablet := 0; dev_other := 0 |};
           lastSeen := None |}
    end in
  let existing' :=
    {| page := page existing;
       totalVisits := totalVisits existing + visit_count row;
       devices := set_device (device_type row) (visit_count row) (devices existing);
       lastSeen := Some (last_seen row) |} in
  (Map_set pageMap (page_path row) existing', total + visit_count row).

Definition page_loop (rows : list PageStatRow) : list (string * PageStats) * Z :=
  fold_left page_loop_body rows ([], 0).

(** One turn of the loop over [pageVisitsByDayRows]. *)
Definition page_day_body (m : list (string * PageVisitsByDay))
    (row : string * string * Z) : list (string * PageVisitsByDay) :=
  let '(page_path, day, n) := row in
  let entry :=
    match Map_get m page_path with
    | Some e => e
    | None => {| pvd_page := page_path; days := [] |}
    end in
  Map_set m page_path
    {| pvd_page := pvd_page entry;
       days := days entry ++ [{| date := day; dv_visits := n |}] |}.

Section Service.
Context {RT : Runtime}.

(** The transaction of [recordVisit].  [t_visit] and [t_stat] are the
    values of CURRENT_TIMESTAMP in its two writing statements. *)
Definition record_transaction (st : Store) (t_visit t_stat : string)
    (sid : Z) (pagePath : string) (deviceType : DeviceType)
    (nostrEventId : option string) : Store * (Z * option string) :=
  let '(st1, changes) :=
    insert_or_ignore_visit st
      {| v_site_id := sid; v_page_path := pagePath;
         v_device_type := deviceType; nostr_event_id := nostrEventId;
         visited_at := t_visit |} in
  if (changes =? 0)%Z && opt_truthy nostrEventId then
    match select_page_stat st1 sid pagePath deviceType with
    | Some existing => (st1, (visit_count existing, Some (last_seen existing)))
    | None => (st1, (0, None))
    end
  else
    let '(st2, r) := upsert_page_stat st1 sid pagePath deviceType t_stat in
    (st2, (visit_count r, Some (last_seen r))).

Definition recordVisit (st : Store) (t_visit t_stat : string)
    (siteUuid : string) (pagePath deviceType userAgent nostrEventId : option string)
    : Store * result VisitResult.t :=
  match findSite st siteUuid with
  | None => (st, Throw "Site not found")
  | Some site =>
      let pagePath := normalizePagePath pagePath in
      let deviceType := normalizeDeviceType deviceType userAgent in
      let nostrEventId := JS.orNull (JS.trim (JS.orEmpty nostrEventId)) in
      let '(st', record) :=
        record_transaction st t_visit t_stat (id site) pagePath deviceType
          nostrEventId in
      (st', Ok {| VisitResult.siteUuid := site_uuid site;
                  VisitResult.pagePath := pagePath;
                  VisitResult.deviceType := deviceType;
                  VisitResult.visits := fst record;
                  VisitResult.lastSeen := snd record |})
  end.

Definition site_page_stats (st : Store) (sid : Z) : list PageStatRow :=
  filter (fun r => (site_id r =? sid)%Z) (page_stats_table st).

Definition site_visits (st : Store) (sid : Z) : list VisitRow :=
  filter (fun v => (v_site_id v =? sid)%Z) (visits_table st).

Definition getSiteStats (st : Store) (siteUuid npub : string) : result SiteStats :=
  match findSite st siteUuid with
  | None => Throw "Site not found"
  | Some site =>
      if opt_truthy (owner_npub site) && strict_neq (owner_npub site) npub
      then Throw "Owner npub mismatch"
      else
        let rows := order_by page_device_le (site_page_stats st (id site)) in
        let visitsByDayRows :=
          group_count String.compare
            (map (fun v => date_localtime (visited_at v)) (site_visits st (id site))) in
        let pageVisitsByDayRows :=
          group_count pair_compare
            (map (fun v => (v_page_path v, date_localtime (visited_at v)))
               (site_visits st (id site))) in
        let '(pageMap, totalVisits) := page_loop rows in
        let pages := Map_values pageMap in
        let visitsByDay :=
          map (fun row => {| date := fst row; dv_visits := snd row |})
            visitsByDayRows in
        let pageDayMap :=
          fold_left page_day_body
            (map (fun row => (fst (fst row), snd (fst row), snd row))
               pageVisitsByDayRows) [] in
        let pageVisitsByDay :=
          map (fun entry =>
                 {| pvd_page := pvd_page entry;
                    days := order_by
                              (fun a b => (localeCompare (date a) (date b) <=? 0)%Z)
                              (days entry) |})
            (Map_values pageDayMap) in
        Ok {| site := {| uuid := site_uuid site; ss_name := name site;
                         ownerNpub := owner_npub site |};
              totals := {| visits := totalVisits;
                           pages := Z.of_nat (List.length pages) |};
              st_pages := pages;
              visitsByDay := visitsByDay;
              pageVisitsByDay := pageVisitsByDay |}
  end.

(** The ownership check shared by [updateSiteByOwner] and
    [deleteSiteByOwner]: [None] when the caller is the owner. *)
Definition owner_guard (site : SiteRecord) (callerPubkey : string) : option string :=
  let ownerHex := normalizeHexPubkey (owner_npub site) in
  let callerHex := normalizeHexPubkey (Some callerPubkey) in
  if negb (opt_truthy ownerHex) || negb (opt_truthy callerHex)
  then Some "Unable to validate owner pubkey"
  else
    match ownerHex with
    | Some o =>
        if strict_neq callerHex o
        then Some "Caller pubkey does not match site owner"
        else None
    | None => Some "Unable to validate owner pubkey"
    end.

(** [UPDATE sites SET name = ?, updated_at = CURRENT_TIMESTAMP] on one row. *)
Definition owner_set (n : option string) (now : string) (s : SiteRecord) : SiteRecord :=
  {| id := id s; site_uuid := site_uuid s; name := n;
     owner_npub := owner_npub s; owner_signature := owner_signature s;
     secret_token := secret_token s; created_at := created_at s;
     updated_at := now |}.

(** [updateSiteByOwner].  [name] is [None] when the key [name] is not in
    [params], and [Some v] when it is, [v] being [None] for [null] and
    [undefined]. *)
Definition updateSiteByOwner (st : Store) (now : string)
    (siteUuid callerPubkey : string) (name : option (option string))
    : Store * result (option SiteRecord) :=
  match findSite st siteUuid with
  | None => (st, Throw "Site not found")
  | Some site =>
      match owner_guard site callerPubkey with
      | Some message => (st, Throw message)
      | None =>
          match name with
          | None => (st, Ok (Some site))
          | Some n =>
              let st' := update_sites siteUuid (owner_set n now) st in
              (st', Ok (findSite st' siteUuid))
          end
      end
  end.

(** [DELETE FROM sites WHERE id = ?] with the two ON DELETE CASCADE
    foreign keys. *)
Definition delete_site (st : Store) (sid : Z) : Store * Z :=
  ({| sites_table := filter (fun s => negb (id s =? sid)%Z) (sites_table st);
      page_stats_table :=
        filter (fun r => negb (site_id r =? sid)%Z) (page_stats_table st);
      visits_table :=
        filter (fun v => negb (v_site_id v =? sid)%Z) (visits_table st);
      sites_seq := sites_seq st |},
   Z.of_nat (List.length (filter (fun s => (id s =? sid)%Z) (sites_table st)))).

Definition deleteSiteByOwner (st : Store) (siteUuid callerPubkey : string)
    : Store * result DeleteResult.t :=
  match findSite st siteUuid with
  | None => (st, Throw "Site not found")
  | Some site =>
      match owner_guard site callerPubkey with
      | Some message => (st, Throw message)
      | None =>
          let '(st', changes) := delete_site st (id site) in
          (st', Ok {| DeleteResult.siteUuid := siteUuid;
                      DeleteResult.deleted := (0 <? changes)%Z |})
      end
  end.

End Service.

(** clean-db.ts: all rows of the three tables are deleted. *)
Definition cleanDatabase (st : Store) : Store :=
  {| sites_table := []; page_stats_table := []; visits_table := [];
     sites_seq := sites_seq st |}.

(** ** server.ts: the MCP tools *)

(** What a tool call answers: the JSON payload of the handler, the
    [{ error }] payload of its [catch], or the rejection of the arguments
    by the input schema, in which case the handler does not run. *)
Inductive ToolResult (A : Type) : Type :=
| Content (payload : A)
| ErrorContent (message : string)
| InvalidParams.
Arguments Content {A} payload.
Arguments ErrorContent {A} message.
Arguments InvalidParams {A}.

(** [z.string().min(8)]. *)
Definition min8 (s : string) : bool := Nat.leb 8 (String.length s).

Definition jsonContent {A : Type} (r : result A) : ToolResult A :=
  match r with
  | Ok v => Content v
  | Throw message => ErrorContent message
  end.

(** A JSON-RPC request id is a string or an integer. *)
Inductive RequestId : Type :=
| IdString (s : string)
| IdNumber (n : Z).

(** [extra?.requestId ? String(extra.requestId) : null]. *)
Definition requestId_eventId (r : option RequestId) : option string :=
  match r with
  | Some (IdString s) => JS.orNull s
  | Some (IdNumber n) =>
      if (n =? 0)%Z then None else Some (NilZero.string_of_int (Z.to_int n))
  | None => None
  end.

Section Tools.
Context {RT : Runtime}.


Definition tool_record_visit (st : Store) (t_visit t_stat : string)
    (siteUuid : string) (pagePath deviceType userAgent : option string)
    (requestId : option RequestId) : Store * ToolResult VisitResult.t :=
  if min8 siteUuid then
    let '(st', r) :=
      recordVisit st t_visit t_stat siteUuid pagePath deviceType userAgent
        (requestId_eventId requestId) in
    (st', jsonContent r)
  else (st, InvalidParams).


End Tools.

(** ** Histories of calls *)

(** The writing operations with their arguments and with the values the
    environment supplies (clock readings, the random token). *)
Inductive Call : Type :=
| RegisterSite (now secretToken siteUuid : string) (name : option string)
    (ownerNpub : string)
| RecordVisit (t_visit t_stat siteUuid : string)
    (pagePath deviceType userAgent nostrEventId : option string)
| UpdateSiteByOwner (now siteUuid callerPubkey : string)
    (name : option (option string))
| DeleteSiteByOwner (siteUuid callerPubkey : string)
| CleanDatabase.

Section Histories.
Context {RT : Runtime}.

Definition run (st : Store) (c : Call) : Store :=
  match c with
  | RegisterSite now tok u n o => fst (registerSite st now tok u n o)
  | RecordVisit t1 t2 u p d ua e => fst (recordVisit st t1 t2 u p d ua e)
  | UpdateSiteByOwner now u c n => fst (updateSiteByOwner st now u c n)
  | DeleteSiteByOwner u c => fst (deleteSiteByOwner st u c)
  | CleanDatabase => cleanDatabase st
  end.

Definition run_all (st : Store) (cs : list Call) : Store := fold_left run cs st.

(** The stores the service can be in: those a history of calls builds
    from the empty database. *)
Inductive reachable : Store -> Prop :=
| reachable_empty : reachable empty_store
| reachable_run : forall st c, reachable st -> reachable (run st c).

End Histories.

(** ** Measures on the tables *)

Definition Key : Type := Z * string * DeviceType.

Definition stat_key (r : PageStatRow) : Key := (site_id r, page_path r, device_type r).

Definition visit_key (v : VisitRow) : Key :=
  (v_site_id v, v_page_path v, v_device_type v).

Definition Key_eqb (a b : Key) : bool :=
  let '(s1, p1, d1) := a in
  let '(s2, p2, d2) := b in
  (s1 =? s2)%Z && (p1 =? p2) && DeviceType_eqb d1 d2.

(** Sum of [visit_count] over rows. *)
Definition sum_counts (rows : list PageStatRow) : Z :=
  fold_right (fun r acc => visit_count r + acc) 0 rows.

(** Number of stored visits of a (site, page path, device type) triple. *)
Definition visits_of_key (st : Store) (k : Key) : Z :=
  Z.of_nat (List.length (filter (fun v => Key_eqb (visit_key v) k) (visits_table st))).

(** The visit count and last-seen timestamp of a triple's [page_stats] row,
    or the placeholder [{ visit_count: 0, last_seen: null }]. *)
Definition current_stat (st : Store) (sid : Z) (p : string) (d : DeviceType)
    : Z * option string :=
  match select_page_stat st sid p d with
  | Some existing => (visit_count existing, Some (last_seen existing))
  | None => (0, None)
  end.

(** The counters agree with the raw history: over any class [P] of triples,
    the counters of the class add up to the number of its stored visits. *)
Definition consistent (st : Store) : Prop :=
  forall P : Key -> bool,
    sum_counts (filter (fun r => P (stat_key r)) (page_stats_table st)) =
    Z.of_nat (List.length (filter (fun v => P (visit_key v)) (visits_table st))).

(** The constraint [UNIQUE(site_id, page_path, device_type)]. *)
Definition unique_keys (st : Store) : Prop :=
  NoDup (map stat_key (page_stats_table st)).

(** The two errors of the ownership check of [updateSiteByOwner] and
    [deleteSiteByOwner]. *)
Definition authorization_error (message : string) : Prop :=
  message = "Unable to validate owner pubkey" \/
  message = "Caller pubkey does not match site owner".

(** [s] is an npub encoding of the 64-digit hex key [h]: it is not itself a
    hex key, and [nip19.decode] reads it as the npub of [h]. *)
Definition npub_of {RT : Runtime} (s h : string) : Prop :=
  JS.truthy s = true /\
  JS.test_hex64 (JS.trim s) = false /\
  nip19_decode (JS.trim s) = Some {| d_type := "npub"; d_data := DataString h |} /\
  JS.test_hex64 h = true.

(** The caller and the stored owner normalize to one canonical key. *)
Definition same_canonical_key {RT : Runtime} (owner : option string)
    (caller : string) : Prop :=
  exists h, JS.truthy h = true /\
            normalizeHexPubkey owner = Some h /\
            normalizeHexPubkey (Some caller) = Some h.

(** The latest of a list of timestamps; CURRENT_TIMESTAMP values have one
    fixed-width format, so the text order is the time order. *)
Definition later (a b : string) : string :=
  match String.compare a b with
  | Lt => b
  | _ => a
  end.

Definition latest (ts : list string) : option string :=
  match ts with
  | [] => None
  | t :: ts' => Some (fold_left later ts' t)
  end.

(** ** An example runtime

    The platform functions given by the table of their results on the
    inputs the examples below use; on any other input the two parsers
    answer as when the platform call throws.  The local time zone is UTC.
    This instance only serves to run the service on concrete histories. *)
Module Example.

Definition npub : string :=
  "npub10elfcs4fr0l0r8af98jlmgdh9c8tcxjvz9qkw038js35mp4dma8qzvjptg".

Definition hex : string :=
  "7e7e9c42a91bfef19fa929e5fda1b72e0ebc1a4c1141673e2794234d86addf4e".

Definition HEX : string :=
  "7E7E9C42A91BFEF19FA929E5FDA1B72E0EBC1A4C1141673E2794234D86ADDF4E".

Definition URL_pathname (input : string) (base : option string) : option string :=
  match base with
  | None =>
      if input =? "https://example.com/blog/post?x=1" then Some "/blog/post"
      else None
  | Some b =>
      if negb (b =? "http://placeholder") then None
      else if input =? "/home" then Some "/home"
      else if input =? "/about" then Some "/about"
      else if input =? "mailto:a" then Some "a"
      else None
  end.

Definition nip19_decode (value : string) : option DecodeResult :=
  if value =? npub then Some {| d_type := "npub"; d_data := DataString hex |}
  else None.

Definition date_localtime (t : string) : string := substring 0 10 t.

Definition localeCompare (a b : string) : Z :=
  match String.compare a b with
  | Lt => -1
  | Eq => 0
  | Gt => 1
  end.

Definition runtime : Runtime :=
  Build_Runtime URL_pathname nip19_decode date_localtime localeCompare.

(** Site "abc123" of owner "ownerX": three visits of "/home" from a
    desktop, the third with event id "ev1", and a second delivery of
    "ev1". *)
Definition scenario : list Call :=
  [ RegisterSite "2024-01-01 09:00:00" "5f2a" "abc123" None "ownerX";
    RecordVisit "2024-01-01 10:00:00" "2024-01-01 10:00:00" "abc123"
      (Some "/home") (Some "desktop") None None;
    RecordVisit "2024-01-01 10:00:01" "2024-01-01 10:00:01" "abc123"
      (Some "/home") (Some "desktop") None None;
    RecordVisit "2024-01-01 10:00:02" "2024-01-01 10:00:02" "abc123"
      (Some "/home") (Some "desktop") None (Some "ev1");
    RecordVisit "2024-01-01 10:00:03" "2024-01-01 10:00:03" "abc123"
      (Some "/home") (Some "desktop") None (Some "ev1") ].

Definition scenario_store : Store := run_all (RT := runtime) empty_store scenario.

(** The scenario followed by one visit of "/about" from a mobile. *)
Definition about_store : Store :=
  run_all (RT := runtime) empty_store
    (scenario ++
     [ RecordVisit "2024-01-01 10:30:00" "2024-01-01 10:30:00" "abc123"
         (Some "/about") (Some "mobile") None None ])%list.

(** The stored visit that carries "ev1". *)
Definition ev1_visit : VisitRow :=
  {| v_site_id := 1; v_page_path := "/home"; v_device_type := desktop;
     nostr_event_id := Some "ev1"; visited_at := "2024-01-01 10:00:02" |}.

Definition scenario_site : SiteRecord :=
  {| id := 1; site_uuid := "abc123"; name := None;
     owner_npub := Some "ownerX"; owner_signature := None;
     secret_token := "5f2a"; created_at := "2024-01-01 09:00:00";
     updated_at := "2024-01-01 09:00:00" |}.

(** Site "site-0001" of owner "alice": page "/" is visited from a mobile
    on 1 January and from a desktop on 2 January. *)
Definition two_devices : list Call :=
  [ RegisterSite "2024-01-01 09:00:00" "77c1" "site-0001" None "alice";
    RecordVisit "2024-01-01 10:00:00" "2024-01-01 10:00:00" "site-0001"
      None (Some "mobile") None None;
    RecordVisit "2024-01-02 10:00:00" "2024-01-02 10:00:00" "site-0001"
      None (Some "desktop") None None ].

Definition two_devices_store : Store :=
  run_all (RT := runtime) empty_store two_devices.

Definition two_devices_site : SiteRecord :=
  {| id := 1; site_uuid := "site-0001"; name := None;
     owner_npub := Some "alice"; owner_signature := None;
     secret_token := "77c1"; created_at := "2024-01-01 09:00:00";
     updated_at := "2024-01-01 09:00:00" |}.

(** A site registered with the empty owner string, and one visit. *)
Definition ownerless : list Call :=
  [ RegisterSite "2024-01-01 09:00:00" "a0b1" "site-0002" (Some "Blog") "";
    RecordVisit "2024-01-01 10:00:00" "2024-01-01 10:00:00" "site-0002"
      None None None None ].

Definition ownerless_store : Store := run_all (RT := runtime) empty_store ownerless.

Definition ownerless_site : SiteRecord :=
  {| id := 1; site_uuid := "site-0002"; name := Some "Blog";
     owner_npub := Some ""; owner_signature := None;
     secret_token := "a0b1"; created_at := "2024-01-01 09:00:00";
     updated_at := "2024-01-01 09:00:00" |}.

(** A site whose owner is stored as the npub encoding of [hex], and a site
    whose owner is stored as the upper-case hex key. *)
Definition encodings : list Call :=
  [ RegisterSite "2024-01-01 09:00:00" "c2d3" "site-0003" None npub;
    RegisterSite "2024-01-01 09:00:01" "e4f5" "site-0004" None HEX ].

Definition encodings_store : Store := run_all (RT := runtime) empty_store encodings.

Definition npub_site : SiteRecord :=
  {| id := 1; site_uuid := "site-0003"; name := None;
     owner_npub := Some npub; owner_signature := None;
     secret_token := "c2d3"; created_at := "2024-01-01 09:00:00";
     updated_at := "2024-01-01 09:00:00" |}.

Definition HEX_site : SiteRecord :=
  {| id := 2; site_uuid := "site-0004"; name := None;
     owner_npub := Some HEX; owner_signature := None;
     secret_token := "e4f5"; created_at := "2024-01-01 09:00:01";
     updated_at := "2024-01-01 09:00:01" |}.
End Example.

(** ** analytics-service.ts: listing the sites of an owner *)

(** Order of [ORDER BY created_at DESC]. *)
Definition created_desc (a b : SiteRecord) : bool :=
  match String.compare (created_at a) (created_at b) with
  | Lt => false
  | _ => true
  end.

(** [SELECT * FROM sites WHERE owner_npub = ? ORDER BY created_at DESC]; a
    NULL owner matches no argument. *)
Definition listSitesForNpub (st : Store) (npub : string) : list SiteRecord :=
  order_by created_desc
    (filter (fun s => negb (strict_neq (owner_npub s) npub)) (sites_table st)).

(** The tool [list_sites_for_npub] of server.ts; its schema accepts every
    string. *)
Definition tool_list_sites_for_npub (st : Store) (npub : string)
    : ToolResult (list SiteRecord) :=
  jsonContent (Ok (listSitesForNpub st npub)).

(** ** server.ts: the server key *)

(** [s.endsWith(suffix)]. *)
Fixpoint endsWith (s suffix : string) : bool :=
  (s =? suffix) ||
  match s with
  | EmptyString => false
  | String _ s' => endsWith s' suffix
  end.

Definition LF : string := String (ascii_of_nat 10) EmptyString.

(** What [ensureServerPrivateKey] reads and writes: the environment
    variable SERVER_PRIVATE_KEY and the content of the file ".env", [None]
    when there is no such file. *)
Record KeyEnv : Type := {
  SERVER_PRIVATE_KEY : option string;
  dotenv : option string
}.

(** [ensureServerPrivateKey].  [generated] is the value of
    [randomBytes(32).toString("hex")]; [fs_throws] tells that a file
    operation of the [try] block throws, in which case the file is left as
    it is and the [catch] goes on. *)
Definition ensureServerPrivateKey (e : KeyEnv) (generated : string)
    (fs_throws : bool) : KeyEnv * string :=
  if opt_truthy (SERVER_PRIVATE_KEY e) then (e, JS.orEmpty (SERVER_PRIVATE_KEY e))
  else
    let written :=
      match dotenv e with
      | Some current =>
          if negb (JS.includes current "SERVER_PRIVATE_KEY=") then
            let prefix :=
              if JS.truthy current && negb (endsWith current LF) then LF else "" in
            Some (current ++ prefix ++ "SERVER_PRIVATE_KEY=" ++ generated ++ LF)
          else Some current
      | None => Some ("SERVER_PRIVATE_KEY=" ++ generated ++ LF)
      end in
    ({| SERVER_PRIVATE_KEY := Some generated;
        dotenv := if fs_throws then dotenv e else written |},
     generated).

(** ** The constraints of the schema *)

(** The non-NULL values of column [nostr_event_id]. *)
Definition event_ids (st : Store) : list string :=
  flat_map (fun v => match nostr_event_id v with
                     | Some e => [e]
                     | None => []
                     end) (visits_table st).

(** [site_uuid TEXT NOT NULL UNIQUE] and [id INTEGER PRIMARY KEY
    AUTOINCREMENT]: the keys are distinct, positive and not above the
    counter. *)
Definition sites_ok (st : Store) : Prop :=
  NoDup (map site_uuid (sites_table st)) /\
  NoDup (map id (sites_table st)) /\
  0 <= sites_seq st /\
  forall s, In s (sites_table st) -> 0 < id s <= sites_seq st.

(** The two foreign keys [REFERENCES sites(id)]. *)
Definition references_ok (st : Store) : Prop :=
  (forall r, In r (page_stats_table st) ->
             exists s, In s (sites_table st) /\ id s = site_id r) /\
  (forall v, In v (visits_table st) ->
             exists s, In s (sites_table st) /\ id s = v_site_id v).

(** The unique index [idx_visits_event], and what [recordVisit] stores as
    an event identifier. *)
Definition events_ok (st : Store) : Prop :=
  NoDup (event_ids st) /\
  forall e, In e (event_ids st) -> JS.truthy e = true.

(** Sum of the counts of a list of daily totals. *)
Definition sum_daily (l : list DailyVisits) : Z :=
  fold_right (fun d acc => dv_visits d + acc) 0 l.

(** Sum of [totalVisits] over page entries. *)
Definition sum_pages (l : list PageStats) : Z :=
  fold_right (fun e acc => totalVisits e + acc) 0 l.

(** What [recordVisit] stores: non-empty page paths, and counters that
    start at 1. *)
Definition rows_ok (st : Store) : Prop :=
  (forall r, In r (page_stats_table st) ->
             1 <= visit_count r /\ JS.truthy (page_path r) = true) /\
  (forall v, In v (visits_table st) -> JS.truthy (v_page_path v) = true).

(** [devices[d]]. *)
Definition dev_get (d : DeviceType) (ds : Devices) : Z :=
  match d with
  | desktop => dev_desktop ds
  | mobile => dev_mobile ds
  | tablet => dev_tablet ds
  | other => dev_other ds
  end.

(** The entry [existing] of a page after one turn of the page loop on
    [row]. *)
Definition page_entry_after (pageMap : list (string * PageStats)) (row : PageStatRow)
    : PageStats :=
  let existing :=
    match Map_get pageMap (page_path row) with
    | Some e => e
    | None =>
        {| page := page_path row; totalVisits := 0;
           devices := {| dev_desktop := 0; dev_mobile := 0;
                         dev_tablet := 0; dev_other := 0 |};
           lastSeen := None |}
    end in
  {| page := page existing;
     totalVisits := totalVisits existing + visit_count row;
     devices := set_device (device_type row) (visit_count row) (devices existing);
     lastSeen := Some (last_seen row) |}.

(** Sum of all the counts of the per-page daily series. *)
Definition sum_series (l : list PageVisitsByDay) : Z :=
  fold_right (fun e acc => sum_daily (days e) + acc) 0 l.

(** * Properties *)

(** ** Equality tests *)

Lemma DeviceType_eqb_eq (a b : DeviceType) : DeviceType_eqb a b = true <-> a = b.
Proof. destruct a, b; simpl; split; intro H; try reflexivity; discriminate H. Qed.

Lemma Key_eqb_eq (a b : Key) : Key_eqb a b = true <-> a = b.
Proof.
  destruct a as [[s1 p1] d1], b as [[s2 p2] d2]; unfold Key_eqb.
  rewrite !andb_true_iff, Z.eqb_eq, String.eqb_eq, DeviceType_eqb_eq.
  split.
  - intros [[-> ->] ->]; reflexivity.
  - intros H; inversion H; auto.
Qed.

Lemma Key_eqb_refl (k : Key) : Key_eqb k k = true.
Proof. apply Key_eqb_eq; reflexivity. Qed.

Lemma same_triple_key (sid : Z) (p : string) (d : DeviceType) (r : PageStatRow) :
  same_triple sid p d r = Key_eqb (stat_key r) (sid, p, d).
Proof. reflexivity. Qed.

Lemma strict_neq_false (o : option string) (s : string) :
  strict_neq o s = false <-> o = Some s.
Proof.
  destruct o as [x|]; simpl.
  - rewrite negb_false_iff, String.eqb_eq. split; [intros ->; reflexivity | congruence].
  - split; discriminate.
Qed.

Lemma orNull_Some (s e : string) :
  JS.orNull s = Some e -> e = s /\ JS.truthy e = true.
Proof.
  unfold JS.orNull. destruct (JS.truthy s) eqn:T; [|discriminate].
  intros H; inversion H; subst; auto.
Qed.

Lemma event_stored_iff (st : Store) (e : string) :
  event_stored st e = true <->
  exists v, In v (visits_table st) /\ nostr_event_id v = Some e.
Proof.
  unfold event_stored. rewrite existsb_exists.
  split; intros [v [Hin H]]; exists v; split; trivial.
  - apply strict_neq_false. apply negb_true_iff. exact H.
  - apply negb_true_iff. apply strict_neq_false. exact H.
Qed.

(** ** The deduplication gate *)

Section Deduplication.
Context {RT : Runtime}.

Lemma record_transaction_duplicate st t1 t2 sid p d e :
  JS.truthy e = true -> event_stored st e = true ->
  record_transaction st t1 t2 sid p d (Some e) = (st, current_stat st sid p d).
Proof.
  intros T E. unfold record_transaction, insert_or_ignore_visit, current_stat.
  simpl. rewrite E. simpl. unfold opt_truthy. simpl. rewrite T.
  destruct (select_page_stat st sid p d); reflexivity.
Qed.

Lemma recordVisit_duplicate st t1 t2 u p d ua ev e site :
  findSite st u = Some site ->
  JS.orNull (JS.trim (JS.orEmpty ev)) = Some e ->
  event_stored st e = true ->
  recordVisit st t1 t2 u p d ua ev =
    (st, Ok {| VisitResult.siteUuid := site_uuid site;
               VisitResult.pagePath := normalizePagePath p;
               VisitResult.deviceType := normalizeDeviceType d ua;
               VisitResult.visits :=
                 fst (current_stat st (id site) (normalizePagePath p)
                        (normalizeDeviceType d ua));
               VisitResult.lastSeen :=
                 snd (current_stat st (id site) (normalizePagePath p)
                        (normalizeDeviceType d ua)) |}).
Proof.
  intros F N E. unfold recordVisit. rewrite F, N.
  destruct (orNull_Some _ _ N) as [_ T].
  rewrite (record_transaction_duplicate st t1 t2 _ _ _ e T E). reflexivity.
Qed.

Lemma recordVisit_unknown_site st t1 t2 u p d ua ev :
  findSite st u = None ->
  recordVisit st t1 t2 u p d ua ev = (st, Throw "Site not found").
Proof. intros F. unfold recordVisit. rewrite F. reflexivity. Qed.

End Deduplication.

(** ** Counters and raw history *)

Lemma filter_filter_and {A : Type} (P Q : A -> bool) (l : list A) :
  filter P (filter Q l) = filter (fun x => Q x && P x) l.
Proof.
  induction l as [|x l IH]; simpl; trivial.
  destruct (Q x); simpl; [destruct (P x)|]; rewrite IH; reflexivity.
Qed.

Lemma NoDup_map_filter {A B : Type} (f : A -> B) (Q : A -> bool) (l : list A) :
  NoDup (map f l) -> NoDup (map f (filter Q l)).
Proof.
  induction l as [|x l IH]; simpl; intros H; trivial.
  inversion H as [|? ? Hn Hd]; subst.
  destruct (Q x); simpl; auto.
  constructor; auto.
  intros Hin. apply Hn. apply in_map_iff in Hin. destruct Hin as [y [E Hy]].
  apply in_map_iff. exists y. split; trivial.
  apply filter_In in Hy. tauto.
Qed.

Lemma sum_counts_app (l1 l2 : list PageStatRow) :
  sum_counts (l1 ++ l2) = sum_counts l1 + sum_counts l2.
Proof. induction l1 as [|r l1 IH]; simpl; [reflexivity | rewrite IH; lia]. Qed.

Lemma sum_counts_insert_sorted (le : PageStatRow -> PageStatRow -> bool) r l :
  sum_counts (insert_sorted le r l) = visit_count r + sum_counts l.
Proof.
  induction l as [|y l IH]; simpl; trivial.
  destruct (le r y); simpl; [reflexivity | rewrite IH; lia].
Qed.

Lemma sum_counts_order_by (le : PageStatRow -> PageStatRow -> bool) l :
  sum_counts (order_by le l) = sum_counts l.
Proof.
  induction l as [|r l IH]; simpl; trivial.
  rewrite sum_counts_insert_sorted, IH. reflexivity.
Qed.

Lemma page_loop_body_total acc row :
  snd (page_loop_body acc row) = snd acc + visit_count row.
Proof. destruct acc as [m t]. reflexivity. Qed.

Lemma page_loop_total rows :
  snd (page_loop rows) = sum_counts rows.
Proof.
  unfold page_loop.
  assert (G : forall acc, snd (fold_left page_loop_body rows acc) = snd acc + sum_counts rows).
  { induction rows as [|r rows IH]; intros acc; simpl; [lia|].
    rewrite IH, page_loop_body_total. lia. }
  rewrite G. reflexivity.
Qed.

Lemma upsert_rows_sum (P : Key -> bool) sid p d now rows :
  sum_counts (filter (fun r => P (stat_key r)) (fst (upsert_rows sid p d now rows))) =
  sum_counts (filter (fun r => P (stat_key r)) rows) + (if P (sid, p, d) then 1 else 0).
Proof.
  induction rows as [|r rows IH]; simpl.
  - unfold stat_key; simpl. destruct (P (sid, p, d)); reflexivity.
  - destruct (same_triple sid p d r) eqn:S.
    + rewrite same_triple_key in S. apply Key_eqb_eq in S.
      simpl. unfold stat_key at 1; simpl. fold (stat_key r). rewrite S.
      destruct (P (sid, p, d)); simpl; lia.
    + destruct (upsert_rows sid p d now rows) as [rows' ret]; simpl in *.
      destruct (P (stat_key r)); simpl; rewrite IH; lia.
Qed.

Lemma upsert_rows_keys sid p d now rows k :
  In k (map stat_key (fst (upsert_rows sid p d now rows))) ->
  In k (map stat_key rows) \/ k = (sid, p, d).
Proof.
  induction rows as [|r rows IH]; simpl.
  - intros [H|[]]; right; symmetry; exact H.
  - destruct (same_triple sid p d r) eqn:S.
    + simpl. intros [H|H]; left; [left; exact H | right; exact H].
    + destruct (upsert_rows sid p d now rows) as [rows' ret]; simpl in *.
      intros [H|H]; [left; left; exact H|].
      destruct (IH H) as [H'|H']; [left; right; exact H' | right; exact H'].
Qed.

Lemma upsert_rows_unique sid p d now rows :
  NoDup (map stat_key rows) ->
  NoDup (map stat_key (fst (upsert_rows sid p d now rows))).
Proof.
  induction rows as [|r rows IH]; simpl; intros H.
  - constructor; [intros [] | constructor].
  - inversion H as [|? ? Hn Hd]; subst.
    destruct (same_triple sid p d r) eqn:S.
    + simpl. constructor; assumption.
    + pose proof (upsert_rows_keys sid p d now rows (stat_key r)) as K.
      specialize (IH Hd).
      destruct (upsert_rows sid p d now rows) as [rows' ret]; simpl in *.
      constructor; trivial.
      intros Hin. destruct (K Hin) as [H'|H']; [exact (Hn H')|].
      rewrite same_triple_key, H', Key_eqb_refl in S. discriminate S.
Qed.

Lemma upsert_rows_find sid p d now rows :
  find (same_triple sid p d) (fst (upsert_rows sid p d now rows)) =
  Some (snd (upsert_rows sid p d now rows)).
Proof.
  induction rows as [|r rows IH]; simpl.
  - unfold same_triple; simpl.
    rewrite Z.eqb_refl, String.eqb_refl.
    replace (DeviceType_eqb d d) with true; [reflexivity|].
    symmetry; apply DeviceType_eqb_eq; reflexivity.
  - destruct (same_triple sid p d r) eqn:S.
    + simpl. unfold same_triple in *. simpl. rewrite S. reflexivity.
    + destruct (upsert_rows sid p d now rows) as [rows' ret]; simpl in *.
      rewrite S. exact IH.
Qed.

Lemma unique_filter_key (rows : list PageStatRow) (r : PageStatRow) :
  NoDup (map stat_key rows) -> In r rows ->
  filter (fun x => Key_eqb (stat_key x) (stat_key r)) rows = [r].
Proof.
  induction rows as [|y rows IH]; cbn [filter map In]; intros Hn Hin;
    [contradiction|].
  inversion Hn as [|? ? Hy Hd]; subst.
  assert (N : forall z, In z rows -> stat_key z <> stat_key y).
  { intros z Hz E. apply Hy. rewrite <- E. apply in_map. exact Hz. }
  destruct Hin as [->|Hin].
  - rewrite Key_eqb_refl. f_equal.
    clear IH Hn Hy Hd. induction rows as [|z rows IH]; cbn [filter]; trivial.
    destruct (Key_eqb (stat_key z) (stat_key r)) eqn:E.
    + apply Key_eqb_eq in E. exfalso. apply (N z); [left; reflexivity | exact E].
    + apply IH. intros w Hw. apply N. right; exact Hw.
  - destruct (Key_eqb (stat_key y) (stat_key r)) eqn:E.
    + apply Key_eqb_eq in E. exfalso. apply (N r Hin). symmetry; exact E.
    + apply IH; assumption.
Qed.

Section Invariants.
Context {RT : Runtime}.

Lemma registerSite_tables st now tok u n o :
  page_stats_table (fst (registerSite st now tok u n o)) = page_stats_table st /\
  visits_table (fst (registerSite st now tok u n o)) = visits_table st.
Proof.
  unfold registerSite. destruct (findSite st u) as [existing|]; simpl.
  - destruct (JS.truthy o && opt_truthy (owner_npub existing)
              && strict_neq (owner_npub existing) o); simpl; auto.
  - auto.
Qed.

Lemma updateSiteByOwner_tables st now u c n :
  page_stats_table (fst (updateSiteByOwner st now u c n)) = page_stats_table st /\
  visits_table (fst (updateSiteByOwner st now u c n)) = visits_table st.
Proof.
  unfold updateSiteByOwner. destruct (findSite st u) as [s|]; simpl; auto.
  destruct (owner_guard s c); simpl; auto.
  destruct n; simpl; auto.
Qed.

Lemma deleteSiteByOwner_store st u c :
  fst (deleteSiteByOwner st u c) = st \/
  exists sid, fst (deleteSiteByOwner st u c) = fst (delete_site st sid).
Proof.
  unfold deleteSiteByOwner. destruct (findSite st u) as [s|]; simpl; auto.
  destruct (owner_guard s c); simpl; auto.
  right. exists (id s). reflexivity.
Qed.

(** A call of [recordVisit] either writes nothing, or appends one visit
    row and upserts the counter of the same triple. *)
Lemma recordVisit_store st t1 t2 u p d ua ev :
  fst (recordVisit st t1 t2 u p d ua ev) = st \/
  exists sid pg dv e,
    fst (recordVisit st t1 t2 u p d ua ev) =
      {| sites_table := sites_table st;
         page_stats_table := fst (upsert_rows sid pg dv t2 (page_stats_table st));
         visits_table :=
           visits_table st ++
           [{| v_site_id := sid; v_page_path := pg; v_device_type := dv;
               nostr_event_id := e; visited_at := t1 |}];
         sites_seq := sites_seq st |}.
Proof.
  unfold recordVisit. destruct (findSite st u) as [s|]; simpl; auto.
  unfold record_transaction, insert_or_ignore_visit; simpl.
  destruct (JS.orNull (JS.trim (JS.orEmpty ev))) as [e|] eqn:N.
  - destruct (orNull_Some _ _ N) as [_ T].
    destruct (event_stored st e) eqn:E; simpl.
    + unfold opt_truthy; simpl. rewrite T.
      destruct (select_page_stat st (id s) (normalizePagePath p)
                  (normalizeDeviceType d ua)); simpl; auto.
    + right. exists (id s), (normalizePagePath p), (normalizeDeviceType d ua), (Some e).
      unfold upsert_page_stat; simpl.
      destruct (upsert_rows (id s) (normalizePagePath p) (normalizeDeviceType d ua)
                  t2 (page_stats_table st)); reflexivity.
  - simpl. right.
    exists (id s), (normalizePagePath p), (normalizeDeviceType d ua), None.
    unfold upsert_page_stat; simpl.
    destruct (upsert_rows (id s) (normalizePagePath p) (normalizeDeviceType d ua)
                t2 (page_stats_table st)); reflexivity.
Qed.

Lemma consistent_tables st st' :
  page_stats_table st' = page_stats_table st ->
  visits_table st' = visits_table st ->
  consistent st -> consistent st'.
Proof. intros E1 E2 H P. rewrite E1, E2. apply H. Qed.

Lemma consistent_record st sid pg dv e t1 t2 :
  consistent st ->
  consistent
    {| sites_table := sites_table st;
       page_stats_table := fst (upsert_rows sid pg dv t2 (page_stats_table st));
       visits_table :=
         visits_table st ++
         [{| v_site_id := sid; v_page_path := pg; v_device_type := dv;
             nostr_event_id := e; visited_at := t1 |}];
       sites_seq := sites_seq st |}.
Proof.
  intros H P. cbn [page_stats_table visits_table].
  rewrite upsert_rows_sum, H, filter_app, length_app. cbn [filter].
  change (visit_key {| v_site_id := sid; v_page_path := pg; v_device_type := dv;
                       nostr_event_id := e; visited_at := t1 |})
    with (sid, pg, dv).
  destruct (P (sid, pg, dv)); cbn [List.length]; lia.
Qed.

Lemma consistent_delete st sid : consistent st -> consistent (fst (delete_site st sid)).
Proof.
  intros H P. simpl. rewrite !filter_filter_and.
  exact (H (fun k => negb (fst (fst k) =? sid)%Z && P k)).
Qed.

Lemma consistent_run st c : consistent st -> consistent (run st c).
Proof.
  intros H.
  destruct c as [now tok u n o | t1 t2 u p d ua ev | now u cp n | u cp | ]; simpl.
  - destruct (registerSite_tables st now tok u n o).
    eapply consistent_tables; eauto.
  - destruct (recordVisit_store st t1 t2 u p d ua ev)
      as [E|[sid [pg [dv [e E]]]]]; rewrite E; trivial.
    apply consistent_record; trivial.
  - destruct (updateSiteByOwner_tables st now u cp n).
    eapply consistent_tables; eauto.
  - destruct (deleteSiteByOwner_store st u cp) as [E|[sid E]]; rewrite E; trivial.
    apply consistent_delete; trivial.
  - intros P. reflexivity.
Qed.

Lemma unique_keys_run st c : unique_keys st -> unique_keys (run st c).
Proof.
  unfold unique_keys. intros H.
  destruct c as [now tok u n o | t1 t2 u p d ua ev | now u cp n | u cp | ]; simpl.
  - destruct (registerSite_tables st now tok u n o) as [E _].
    rewrite E; trivial.
  - destruct (recordVisit_store st t1 t2 u p d ua ev)
      as [E|[sid [pg [dv [e E]]]]]; rewrite E; trivial.
    simpl. apply upsert_rows_unique; trivial.
  - destruct (updateSiteByOwner_tables st now u cp n) as [E _].
    rewrite E; trivial.
  - destruct (deleteSiteByOwner_store st u cp) as [E|[sid E]]; rewrite E; trivial.
    simpl. apply NoDup_map_filter; trivial.
  - constructor.
Qed.

Lemma reachable_consistent st : reachable st -> consistent st.
Proof.
  induction 1 as [|st c R IH].
  - intros P; reflexivity.
  - apply consistent_run; exact IH.
Qed.

Lemma reachable_unique_keys st : reachable st -> unique_keys st.
Proof.
  induction 1 as [|st c R IH].
  - constructor.
  - apply unique_keys_run; exact IH.
Qed.

Lemma reachable_run_all st cs : reachable st -> reachable (run_all st cs).
Proof.
  revert st. induction cs as [|c cs IH]; intros st R; simpl; trivial.
  apply IH. constructor; exact R.
Qed.

End Invariants.

(** ** Statistics *)

Section Statistics.
Context {RT : Runtime}.

(** The check of [getSiteStats]: true when the call is refused. *)
Lemma getSiteStats_refused st u npub site :
  findSite st u = Some site ->
  opt_truthy (owner_npub site) && strict_neq (owner_npub site) npub = true ->
  getSiteStats st u npub = Throw "Owner npub mismatch".
Proof. intros F G. unfold getSiteStats. rewrite F, G. reflexivity. Qed.

Lemma getSiteStats_served st u npub site :
  findSite st u = Some site ->
  opt_truthy (owner_npub site) && strict_neq (owner_npub site) npub = false ->
  exists stats,
    getSiteStats st u npub = Ok stats /\
    visits (totals stats) = sum_counts (site_page_stats st (id site)).
Proof.
  intros F G. unfold getSiteStats. rewrite F, G.
  destruct (page_loop (order_by page_device_le (site_page_stats st (id site))))
    as [pageMap total] eqn:PL.
  eexists. split; [reflexivity|]. simpl.
  change total with (snd (pageMap, total)). rewrite <- PL.
  rewrite page_loop_total, sum_counts_order_by. reflexivity.
Qed.

Lemma owner_is_served (site : SiteRecord) :
  opt_truthy (owner_npub site)
  && strict_neq (owner_npub site) (JS.orEmpty (owner_npub site)) = false.
Proof.
  destruct (owner_npub site) as [o|]; simpl; [|reflexivity].
  rewrite String.eqb_refl. apply andb_false_r.
Qed.

End Statistics.

(** C1.  In every store that a history of calls builds from the empty
    database, and for every registered site: the owner is served by
    [getSiteStats]; whenever [getSiteStats] returns, its [totals.visits] is
    the sum of [visit_count] over the site's [page_stats] rows, and that
    sum is the number of [visits] rows stored for the site; and the
    [visit_count] of every [page_stats] row is the number of stored visits
    of its (site, page path, device type) triple. *)
Theorem getSiteStats_totals_match_history {RT : Runtime} (st : Store)
    (siteUuid : string) (site : SiteRecord) :
  reachable st ->
  findSite st siteUuid = Some site ->
  (exists stats, getSiteStats st siteUuid (JS.orEmpty (owner_npub site)) = Ok stats) /\
  (forall npub stats,
      getSiteStats st siteUuid npub = Ok stats ->
      visits (totals stats) = sum_counts (site_page_stats st (id site)) /\
      sum_counts (site_page_stats st (id site)) =
        Z.of_nat (List.length (site_visits st (id site)))) /\
  (forall r, In r (page_stats_table st) ->
             visit_count r = visits_of_key st (stat_key r)).
Proof.
  intros R F.
  pose proof (reachable_consistent st R) as C.
  pose proof (reachable_unique_keys st R) as U.
  split; [|split].
  - destruct (getSiteStats_served st siteUuid _ site F (owner_is_served site))
      as [stats [E _]].
    exists stats; exact E.
  - intros npub stats E.
    destruct (opt_truthy (owner_npub site) && strict_neq (owner_npub site) npub) eqn:G.
    + rewrite (getSiteStats_refused st siteUuid npub site F G) in E. discriminate E.
    + destruct (getSiteStats_served st siteUuid npub site F G) as [stats' [E' T]].
      rewrite E in E'. inversion E'; subst stats'.
      split; [exact T|].
      exact (C (fun k => (fst (fst k) =? id site)%Z)).
  - intros r Hin. unfold visits_of_key.
    rewrite <- (C (fun k => Key_eqb k (stat_key r))).
    rewrite (unique_filter_key _ r U Hin). simpl. lia.
Qed.

Lemma getSiteStats_totals_match_history_witness :
  reachable (RT := Example.runtime) Example.scenario_store /\
  findSite Example.scenario_store "abc123" = Some Example.scenario_site /\
  (exists stats,
      getSiteStats (RT := Example.runtime) Example.scenario_store "abc123" "ownerX"
      = Ok stats) /\
  (forall npub stats,
      getSiteStats (RT := Example.runtime) Example.scenario_store "abc123" npub
      = Ok stats ->
      visits (totals stats) = sum_counts (site_page_stats Example.scenario_store 1) /\
      sum_counts (site_page_stats Example.scenario_store 1) =
        Z.of_nat (List.length (site_visits Example.scenario_store 1))) /\
  (forall r, In r (page_stats_table Example.scenario_store) ->
             visit_count r = visits_of_key Example.scenario_store (stat_key r)).
Proof.
  assert (R : reachable (RT := Example.runtime) Example.scenario_store).
  { apply reachable_run_all. constructor. }
  assert (F : findSite Example.scenario_store "abc123" = Some Example.scenario_site).
  { vm_compute. reflexivity. }
  split; [exact R|]. split; [exact F|].
  exact (getSiteStats_totals_match_history (RT := Example.runtime)
           Example.scenario_store "abc123" Example.scenario_site R F).
Defined.

(** ** Duplicate deliveries *)

(** C2, as amended.  A [recordVisit] call whose trimmed event identifier is
    the one of a stored visit leaves the whole store as it was; on a
    registered site it returns without error, and on an unknown site it
    throws "Site not found". *)
Theorem recordVisit_duplicate_changes_nothing {RT : Runtime} (st : Store)
    (t_visit t_stat siteUuid : string)
    (pagePath deviceType userAgent nostrEventId : option string)
    (e : string) (v : VisitRow) :
  JS.orNull (JS.trim (JS.orEmpty nostrEventId)) = Some e ->
  In v (visits_table st) ->
  nostr_event_id v = Some e ->
  match findSite st siteUuid with
  | Some site =>
      exists r,
        recordVisit st t_visit t_stat siteUuid pagePath deviceType userAgent
          nostrEventId = (st, Ok r)
  | None =>
      recordVisit st t_visit t_stat siteUuid pagePath deviceType userAgent
        nostrEventId = (st, Throw "Site not found")
  end.
Proof.
  intros N Hin Hv.
  assert (E : event_stored st e = true).
  { apply event_stored_iff. exists v. split; assumption. }
  destruct (findSite st siteUuid) as [site|] eqn:F.
  - eexists. apply (recordVisit_duplicate st _ _ _ _ _ _ _ e site F N E).
  - apply recordVisit_unknown_site. exact F.
Qed.

Lemma recordVisit_duplicate_changes_nothing_witness :
  JS.orNull (JS.trim (JS.orEmpty (Some " ev1 "))) = Some "ev1" /\
  In Example.ev1_visit (visits_table Example.scenario_store) /\
  nostr_event_id Example.ev1_visit = Some "ev1" /\
  exists r,
    recordVisit (RT := Example.runtime) Example.scenario_store
      "2024-01-01 11:00:00" "2024-01-01 11:00:00" "abc123"
      (Some "/home") (Some "desktop") None (Some " ev1 ")
    = (Example.scenario_store, Ok r).
Proof.
  assert (N : JS.orNull (JS.trim (JS.orEmpty (Some " ev1 "))) = Some "ev1")
    by reflexivity.
  assert (Hin : In Example.ev1_visit (visits_table Example.scenario_store))
    by (vm_compute; right; right; left; reflexivity).
  assert (Hv : nostr_event_id Example.ev1_visit = Some "ev1") by reflexivity.
  split; [exact N|]. split; [exact Hin|]. split; [exact Hv|].
  exact (recordVisit_duplicate_changes_nothing (RT := Example.runtime)
           Example.scenario_store "2024-01-01 11:00:00" "2024-01-01 11:00:00"
           "abc123" (Some "/home") (Some "desktop") None (Some " ev1 ")
           "ev1" Example.ev1_visit N Hin Hv).
Defined.

(** C2 as stated fails: the identifier "ev1" is stored, and a call that
    carries it for an unregistered site returns with an error. *)
Lemma recordVisit_duplicate_on_unknown_site_throws :
  (exists v, In v (visits_table Example.scenario_store) /\
             nostr_event_id v = Some "ev1") /\
  JS.orNull (JS.trim (JS.orEmpty (Some "ev1"))) = Some "ev1" /\
  recordVisit (RT := Example.runtime) Example.scenario_store
    "2024-01-01 11:00:00" "2024-01-01 11:00:00" "unknown-site"
    (Some "/home") (Some "desktop") None (Some "ev1")
  = (Example.scenario_store, Throw "Site not found").
Proof.
  split; [|split].
  - eexists. split; [vm_compute; right; right; left; reflexivity | reflexivity].
  - reflexivity.
  - vm_compute. reflexivity.
Qed.

(** C10.  When the event identifier of a [recordVisit] call is the one of a
    visit stored under another (site, page path, device type) triple than
    the call's own, the store is left as it was and the result carries the
    counter of the call's own triple: either [page_stats] holds a row with
    the call's site id, page path and device type, and the result has that
    row's [visit_count] and [last_seen], or the table holds no such row
    and the result has 0 and null.  Where the triples of the table are
    unique, every row of the call's triple is the one reported. *)
Theorem recordVisit_duplicate_reports_own_triple {RT : Runtime} (st : Store)
    (t_visit t_stat siteUuid : string)
    (pagePath deviceType userAgent nostrEventId : option string)
    (e : string) (site : SiteRecord) (original : VisitRow) :
  findSite st siteUuid = Some site ->
  JS.orNull (JS.trim (JS.orEmpty nostrEventId)) = Some e ->
  In original (visits_table st) ->
  nostr_event_id original = Some e ->
  visit_key original <>
    (id site, normalizePagePath pagePath, normalizeDeviceType deviceType userAgent) ->
  let own : Key :=
    (id site, normalizePagePath pagePath, normalizeDeviceType deviceType userAgent) in
  exists r,
    recordVisit st t_visit t_stat siteUuid pagePath deviceType userAgent
      nostrEventId = (st, Ok r) /\
    VisitResult.pagePath r = normalizePagePath pagePath /\
    VisitResult.deviceType r = normalizeDeviceType deviceType userAgent /\
    ((exists row,
        In row (page_stats_table st) /\ stat_key row = own /\
        VisitResult.visits r = visit_count row /\
        VisitResult.lastSeen r = Some (last_seen row)) \/
     ((forall row, In row (page_stats_table st) -> stat_key row <> own) /\
      VisitResult.visits r = 0 /\ VisitResult.lastSeen r = None)) /\
    (unique_keys st ->
     forall row, In row (page_stats_table st) -> stat_key row = own ->
       VisitResult.visits r = visit_count row /\
       VisitResult.lastSeen r = Some (last_seen row)).
Proof.
  intros F N Hin Hv _ own.
  assert (E : event_stored st e = true).
  { apply event_stored_iff. exists original. split; assumption. }
  eexists. split; [apply (recordVisit_duplicate st _ _ _ _ _ _ _ e site F N E)|].
  cbn [VisitResult.pagePath VisitResult.deviceType VisitResult.visits
       VisitResult.lastSeen].
  split; [reflexivity|]. split; [reflexivity|].
  unfold current_stat, select_page_stat.
  destruct (find (same_triple (id site) (normalizePagePath pagePath)
                    (normalizeDeviceType deviceType userAgent))
              (page_stats_table st)) as [found|] eqn:S; cbn [fst snd].
  - destruct (find_some _ _ S) as [Hf K].
    rewrite same_triple_key in K. apply Key_eqb_eq in K. fold own in K.
    split.
    + left. exists found. repeat split; assumption.
    + intros U row Hr Kr.
      pose proof (unique_filter_key _ found U Hf) as Q.
      assert (Hq : In row (filter (fun x => Key_eqb (stat_key x) (stat_key found))
                             (page_stats_table st))).
      { apply filter_In. split; [exact Hr|]. apply Key_eqb_eq. congruence. }
      rewrite Q in Hq. destruct Hq as [<-|[]]. split; reflexivity.
  - assert (A : forall row, In row (page_stats_table st) -> stat_key row <> own).
    { intros row Hr Kr. pose proof (find_none _ _ S row Hr) as Z.
      rewrite same_triple_key in Z. fold own in Z. rewrite Kr, Key_eqb_refl in Z.
      discriminate Z. }
    split.
    + right. repeat split; trivial.
    + intros _ row Hr Kr. exfalso. exact (A row Hr Kr).
Qed.

Lemma recordVisit_duplicate_reports_own_triple_witness :
  findSite Example.about_store "abc123" = Some Example.scenario_site /\
  JS.orNull (JS.trim (JS.orEmpty (Some "ev1"))) = Some "ev1" /\
  In Example.ev1_visit (visits_table Example.about_store) /\
  nostr_event_id Example.ev1_visit = Some "ev1" /\
  visit_key Example.ev1_visit <> (1, "/about", mobile) /\
  current_stat Example.about_store 1 "/home" desktop
    = (3, Some "2024-01-01 10:00:02") /\
  exists r,
    recordVisit (RT := Example.runtime) Example.about_store
      "2024-01-01 11:00:00" "2024-01-01 11:00:00" "abc123"
      (Some "/about") (Some "mobile") None (Some "ev1")
    = (Example.about_store, Ok r) /\
    VisitResult.pagePath r = "/about" /\
    VisitResult.deviceType r = mobile /\
    VisitResult.visits r = 1 /\
    VisitResult.lastSeen r = Some "2024-01-01 10:30:00".
Proof.
  assert (F : findSite Example.about_store "abc123" = Some Example.scenario_site)
    by (vm_compute; reflexivity).
  assert (N : JS.orNull (JS.trim (JS.orEmpty (Some "ev1"))) = Some "ev1")
    by reflexivity.
  assert (Hin : In Example.ev1_visit (visits_table Example.about_store))
    by (vm_compute; right; right; left; reflexivity).
  assert (Hv : nostr_event_id Example.ev1_visit = Some "ev1") by reflexivity.
  assert (D : visit_key Example.ev1_visit <> (1, "/about", mobile))
    by (intros H; discriminate H).
  split; [exact F|]. split; [exact N|]. split; [exact Hin|].
  split; [exact Hv|]. split; [exact D|]. split; [vm_compute; reflexivity|].
  destruct (recordVisit_duplicate_reports_own_triple (RT := Example.runtime)
              Example.about_store "2024-01-01 11:00:00" "2024-01-01 11:00:00"
              "abc123" (Some "/about") (Some "mobile") None (Some "ev1")
              "ev1" Example.scenario_site Example.ev1_visit F N Hin Hv D)
    as [r [E [P [Dv [_ Q]]]]].
  assert (U : unique_keys Example.about_store)
    by (apply (reachable_unique_keys (RT := Example.runtime)),
          reachable_run_all; constructor).
  assert (Hr : In {| site_id := 1; page_path := "/about"; device_type := mobile;
                     visit_count := 1; last_seen := "2024-01-01 10:30:00" |}
                 (page_stats_table Example.about_store))
    by (vm_compute; right; left; reflexivity).
  exists r. split; [exact E|]. split; [exact P|]. split; [exact Dv|].
  exact (Q U _ Hr eq_refl).
Defined.

Section Idempotence.
Context {RT : Runtime}.

Lemma recordVisit_fresh st t1 t2 u p d ua ev e site :
  findSite st u = Some site ->
  JS.orNull (JS.trim (JS.orEmpty ev)) = Some e ->
  event_stored st e = false ->
  let pg := normalizePagePath p in
  let dv := normalizeDeviceType d ua in
  let up := upsert_rows (id site) pg dv t2 (page_stats_table st) in
  recordVisit st t1 t2 u p d ua ev =
    ({| sites_table := sites_table st;
        page_stats_table := fst up;
        visits_table :=
          visits_table st ++
          [{| v_site_id := id site; v_page_path := pg; v_device_type := dv;
              nostr_event_id := Some e; visited_at := t1 |}];
        sites_seq := sites_seq st |},
     Ok {| VisitResult.siteUuid := site_uuid site;
           VisitResult.pagePath := pg;
           VisitResult.deviceType := dv;
           VisitResult.visits := visit_count (snd up);
           VisitResult.lastSeen := Some (last_seen (snd up)) |}).
Proof.
  intros F N E pg dv up. unfold recordVisit. rewrite F, N.
  unfold record_transaction, insert_or_ignore_visit; simpl. rewrite E. simpl.
  unfold upsert_page_stat; simpl. fold pg dv. fold up.
  destruct up as [rows ret]. reflexivity.
Qed.

Lemma event_stored_app st v e rows seq :
  nostr_event_id v = Some e ->
  event_stored
    {| sites_table := sites_table st; page_stats_table := rows;
       visits_table := visits_table st ++ [v]; sites_seq := seq |} e = true.
Proof.
  intros H. unfold event_stored; simpl. rewrite existsb_app. simpl.
  rewrite H. simpl. rewrite String.eqb_refl. simpl. apply orb_true_r.
Qed.

End Idempotence.

(** C3, as amended.  On a registered site, two successive [recordVisit]
    calls with the same non-blank event identifier whose inputs normalize
    to the same page path and device type both return, with the same visit
    count and last-seen timestamp; the second call writes nothing. *)
Theorem recordVisit_twice_same_count {RT : Runtime} (st : Store)
    (t1 t2 t3 t4 siteUuid : string)
    (pagePath1 deviceType1 userAgent1 nostrEventId1 : option string)
    (pagePath2 deviceType2 userAgent2 nostrEventId2 : option string)
    (e : string) (site : SiteRecord) :
  findSite st siteUuid = Some site ->
  JS.orNull (JS.trim (JS.orEmpty nostrEventId1)) = Some e ->
  JS.orNull (JS.trim (JS.orEmpty nostrEventId2)) = Some e ->
  normalizePagePath pagePath1 = normalizePagePath pagePath2 ->
  normalizeDeviceType deviceType1 userAgent1 =
    normalizeDeviceType deviceType2 userAgent2 ->
  exists st1 r1 r2,
    recordVisit st t1 t2 siteUuid pagePath1 deviceType1 userAgent1 nostrEventId1
      = (st1, Ok r1) /\
    recordVisit st1 t3 t4 siteUuid pagePath2 deviceType2 userAgent2 nostrEventId2
      = (st1, Ok r2) /\
    VisitResult.visits r2 = VisitResult.visits r1 /\
    VisitResult.lastSeen r2 = VisitResult.lastSeen r1.
Proof.
  intros F N1 N2 EP ED.
  destruct (event_stored st e) eqn:E.
  - do 3 eexists.
    split; [apply (recordVisit_duplicate st _ _ _ _ _ _ _ e site F N1 E)|].
    split; [apply (recordVisit_duplicate st _ _ _ _ _ _ _ e site F N2 E)|].
    simpl. rewrite EP, ED. split; reflexivity.
  - pose proof (recordVisit_fresh st t1 t2 siteUuid pagePath1 deviceType1 userAgent1
                  nostrEventId1 e site F N1 E) as R1.
    cbv zeta in R1.
    do 3 eexists. split; [exact R1|].
    split.
    + apply (recordVisit_duplicate _ _ _ _ _ _ _ _ e site); trivial.
      apply event_stored_app. reflexivity.
    + simpl. unfold current_stat, select_page_stat; simpl.
      rewrite <- EP, <- ED, upsert_rows_find. split; reflexivity.
Qed.

Lemma recordVisit_twice_same_count_witness :
  findSite Example.scenario_store "abc123" = Some Example.scenario_site /\
  JS.orNull (JS.trim (JS.orEmpty (Some "ev2"))) = Some "ev2" /\
  JS.orNull (JS.trim (JS.orEmpty (Some " ev2"))) = Some "ev2" /\
  normalizePagePath (RT := Example.runtime) (Some "/home") =
    normalizePagePath (RT := Example.runtime) (Some "/home") /\
  normalizeDeviceType (Some "desktop") None = normalizeDeviceType (Some "Desktop") None /\
  exists st1 r1 r2,
    recordVisit (RT := Example.runtime) Example.scenario_store
      "2024-01-01 11:00:00" "2024-01-01 11:00:00" "abc123"
      (Some "/home") (Some "desktop") None (Some "ev2") = (st1, Ok r1) /\
    recordVisit (RT := Example.runtime) st1
      "2024-01-01 11:00:05" "2024-01-01 11:00:05" "abc123"
      (Some "/home") (Some "Desktop") None (Some " ev2") = (st1, Ok r2) /\
    VisitResult.visits r2 = VisitResult.visits r1 /\
    VisitResult.lastSeen r2 = VisitResult.lastSeen r1.
Proof.
  assert (F : findSite Example.scenario_store "abc123" = Some Example.scenario_site)
    by (vm_compute; reflexivity).
  assert (N1 : JS.orNull (JS.trim (JS.orEmpty (Some "ev2"))) = Some "ev2")
    by reflexivity.
  assert (N2 : JS.orNull (JS.trim (JS.orEmpty (Some " ev2"))) = Some "ev2")
    by reflexivity.
  assert (EP : normalizePagePath (RT := Example.runtime) (Some "/home") =
               normalizePagePath (RT := Example.runtime) (Some "/home"))
    by reflexivity.
  assert (ED : normalizeDeviceType (Some "desktop") None =
               normalizeDeviceType (Some "Desktop") None)
    by reflexivity.
  split; [exact F|]. split; [exact N1|]. split; [exact N2|].
  split; [exact EP|]. split; [exact ED|].
  exact (recordVisit_twice_same_count (RT := Example.runtime)
           Example.scenario_store
           "2024-01-01 11:00:00" "2024-01-01 11:00:00"
           "2024-01-01 11:00:05" "2024-01-01 11:00:05" "abc123"
           (Some "/home") (Some "desktop") None (Some "ev2")
           (Some "/home") (Some "Desktop") None (Some " ev2")
           "ev2" Example.scenario_site F N1 N2 EP ED).
Defined.

(** C3 as stated fails: the pair ("abc123", "ev2") is recorded twice, for
    page "/home" on a desktop and then for page "/about" on a mobile; the
    first result counts 4 visits and the second 0. *)
Lemma recordVisit_twice_other_triple_differs :
  exists st1 r1 r2,
    recordVisit (RT := Example.runtime) Example.scenario_store
      "2024-01-01 11:00:00" "2024-01-01 11:00:00" "abc123"
      (Some "/home") (Some "desktop") None (Some "ev2") = (st1, Ok r1) /\
    recordVisit (RT := Example.runtime) st1
      "2024-01-01 11:00:05" "2024-01-01 11:00:05" "abc123"
      (Some "/about") (Some "mobile") None (Some "ev2") = (st1, Ok r2) /\
    VisitResult.visits r1 = 4 /\
    VisitResult.visits r2 = 0 /\
    VisitResult.visits r1 <> VisitResult.visits r2.
Proof.
  do 3 eexists.
  split; [vm_compute; reflexivity|].
  split; [vm_compute; reflexivity|].
  split; [reflexivity|]. split; [reflexivity|].
  simpl. discriminate.
Qed.

(** ** The site registry *)

Lemma find_app_None {A : Type} (f : A -> bool) (l l' : list A) :
  find f l = None -> find f (l ++ l') = find f l'.
Proof.
  induction l as [|x l IH]; simpl; trivial.
  destruct (f x); [discriminate | exact IH].
Qed.

Lemma findSite_update_sites (u : string) (f : SiteRecord -> SiteRecord) (st : Store) :
  (forall s, site_uuid (f s) = site_uuid s) ->
  findSite (update_sites u f st) u = option_map f (findSite st u).
Proof.
  intros Hf. unfold findSite, update_sites; simpl.
  induction (sites_table st) as [|s l IH]; simpl; trivial.
  destruct (site_uuid s =? u) eqn:E.
  - rewrite Hf, E. reflexivity.
  - rewrite E. exact IH.
Qed.

Lemma findSite_uuid (st : Store) (u : string) (s : SiteRecord) :
  findSite st u = Some s -> site_uuid s = u.
Proof.
  unfold findSite. intros H. apply find_some in H. destruct H as [_ H].
  apply String.eqb_eq. exact H.
Qed.

(** What [registerSite] does to a site that has an owner. *)
Lemma registerSite_owned (st : Store) (now tok u : string)
    (n : option string) (o stored : string) (site : SiteRecord) :
  findSite st u = Some site ->
  owner_npub site = Some stored ->
  JS.truthy stored = true ->
  registerSite st now tok u n o =
    if JS.truthy o && negb (stored =? o)
    then (st, Throw "Owner npub does not match existing site owner")
    else
      let st' := update_sites u (register_set n (Some o) now) st in
      (st', Ok (Some (register_set n (Some o) now site))).
Proof.
  intros F O T. unfold registerSite. rewrite F, O. unfold opt_truthy; simpl.
  rewrite T, andb_true_r.
  destruct (JS.truthy o && negb (stored =? o)); trivial.
  rewrite findSite_update_sites by reflexivity. rewrite F. reflexivity.
Qed.

(** C6, where the code departs from it.  Registering an existing site
    again with the empty string as owner is not refused, and the owner
    identity that was stored is replaced by the empty string. *)
Theorem registerSite_empty_owner_clears_owner (st : Store)
    (now secretToken siteUuid : string) (name : option string)
    (stored : string) (site : SiteRecord) :
  findSite st siteUuid = Some site ->
  owner_npub site = Some stored ->
  JS.truthy stored = true ->
  exists st' site',
    registerSite st now secretToken siteUuid name "" = (st', Ok (Some site')) /\
    findSite st' siteUuid = Some site' /\
    owner_npub site' = Some "" /\
    owner_npub site' <> owner_npub site.
Proof.
  intros F O T.
  rewrite (registerSite_owned st now secretToken siteUuid name "" stored site F O T).
  simpl. do 2 eexists. split; [reflexivity|].
  split; [rewrite findSite_update_sites by reflexivity; rewrite F; reflexivity|].
  simpl. split; [reflexivity|].
  rewrite O. intros H. inversion H; subst stored. discriminate T.
Qed.

Lemma registerSite_empty_owner_clears_owner_witness :
  findSite Example.two_devices_store "site-0001" = Some Example.two_devices_site /\
  owner_npub Example.two_devices_site = Some "alice" /\
  JS.truthy "alice" = true /\
  exists st' site',
    registerSite Example.two_devices_store
      "2024-01-03 09:00:00" "0d1e" "site-0001" None "" = (st', Ok (Some site')) /\
    findSite st' "site-0001" = Some site' /\
    owner_npub site' = Some "" /\
    owner_npub site' <> owner_npub Example.two_devices_site.
Proof.
  assert (F : findSite Example.two_devices_store "site-0001" =
              Some Example.two_devices_site) by (vm_compute; reflexivity).
  assert (O : owner_npub Example.two_devices_site = Some "alice") by reflexivity.
  assert (T : JS.truthy "alice" = true) by reflexivity.
  split; [exact F|]. split; [exact O|]. split; [exact T|].
  exact (registerSite_empty_owner_clears_owner
           Example.two_devices_store "2024-01-03 09:00:00" "0d1e" "site-0001"
           None "alice" Example.two_devices_site F O T).
Defined.

(** The part of C6 the code keeps: a different non-empty owner is refused
    and nothing is written; the same owner is stored again. *)
Lemma registerSite_other_owner_refused (st : Store)
    (now tok u : string) (n : option string) (o stored : string) (site : SiteRecord) :
  findSite st u = Some site ->
  owner_npub site = Some stored ->
  JS.truthy stored = true ->
  JS.truthy o = true ->
  (o <> stored ->
   registerSite st now tok u n o =
     (st, Throw "Owner npub does not match existing site owner")) /\
  (o = stored ->
   exists st' site',
     registerSite st now tok u n o = (st', Ok (Some site')) /\
     findSite st' u = Some site' /\ owner_npub site' = Some stored).
Proof.
  intros F O T To.
  rewrite (registerSite_owned st now tok u n o stored site F O T), To. simpl.
  split.
  - intros D. destruct (stored =? o) eqn:E; simpl; trivial.
    apply String.eqb_eq in E. congruence.
  - intros ->. rewrite String.eqb_refl. simpl. do 2 eexists.
    split; [reflexivity|].
    split; [rewrite findSite_update_sites by reflexivity; rewrite F|]; reflexivity.
Qed.

(** ** The ownership checks *)

Lemma hex_digit_not_space (c : ascii) :
  JS.isHexDigit c = true -> JS.isWhiteSpace c = false.
Proof.
  destruct c as [[] [] [] [] [] [] [] []]; vm_compute; intros H;
    first [reflexivity | discriminate H].
Qed.

Lemma trimEnd_hex (s : string) :
  forallb JS.isHexDigit (list_ascii_of_string s) = true -> JS.trimEnd s = s.
Proof.
  induction s as [|c s IH]; simpl; trivial.
  rewrite andb_true_iff. intros [Hc Hs].
  rewrite (hex_digit_not_space c Hc), (IH Hs). reflexivity.
Qed.

Lemma trim_hex (s : string) :
  forallb JS.isHexDigit (list_ascii_of_string s) = true -> JS.trim s = s.
Proof.
  intros H. unfold JS.trim.
  replace (JS.trimStart s) with s; [apply trimEnd_hex; exact H|].
  destruct s as [|c s]; simpl in *; trivial.
  apply andb_true_iff in H. destruct H as [Hc _].
  rewrite (hex_digit_not_space c Hc). reflexivity.
Qed.

Lemma test_hex64_truthy (s : string) :
  JS.test_hex64 s = true -> JS.truthy (JS.toLowerCase s) = true.
Proof.
  unfold JS.test_hex64. rewrite andb_true_iff. intros [L _].
  destruct s; [discriminate L | reflexivity].
Qed.

Section Ownership.
Context {RT : Runtime}.

Lemma normalizeHexPubkey_falsy (o : option string) :
  opt_truthy o = false -> normalizeHexPubkey o = None.
Proof.
  destruct o as [i|]; simpl; trivial.
  unfold opt_truthy; simpl. intros ->. reflexivity.
Qed.

Lemma normalizeHexPubkey_hex (h : string) :
  JS.test_hex64 h = true ->
  normalizeHexPubkey (Some h) = Some (JS.toLowerCase h).
Proof.
  intros H. pose proof H as H'. unfold JS.test_hex64 in H'.
  apply andb_true_iff in H'. destruct H' as [L A].
  unfold normalizeHexPubkey.
  assert (T : JS.truthy h = true) by (destruct h; [discriminate L | reflexivity]).
  rewrite T. simpl. rewrite (trim_hex h A), H. reflexivity.
Qed.

Lemma normalizeHexPubkey_npub (s h : string) :
  npub_of s h -> normalizeHexPubkey (Some s) = Some (JS.toLowerCase h).
Proof.
  intros [T [X [D _]]]. unfold normalizeHexPubkey.
  rewrite T. simpl. rewrite X, D. reflexivity.
Qed.

Lemma owner_guard_passes (site : SiteRecord) (caller : string) :
  owner_guard site caller = None <-> same_canonical_key (owner_npub site) caller.
Proof.
  unfold owner_guard, same_canonical_key.
  destruct (normalizeHexPubkey (owner_npub site)) as [o|];
    destruct (normalizeHexPubkey (Some caller)) as [c|];
    unfold opt_truthy; simpl.
  - destruct (JS.truthy o) eqn:To; destruct (JS.truthy c) eqn:Tc; simpl.
    + destruct (c =? o) eqn:E; simpl.
      * apply String.eqb_eq in E. subst c. split; trivial.
        intros _. exists o. auto.
      * apply String.eqb_neq in E. split; [discriminate|].
        intros [h [_ [H1 H2]]]. congruence.
    + split; [discriminate|]. intros [h [Th [H1 H2]]]. congruence.
    + split; [discriminate|]. intros [h [Th [H1 H2]]]. congruence.
    + split; [discriminate|]. intros [h [Th [H1 H2]]]. congruence.
  - destruct (JS.truthy o); simpl; (split; [discriminate|]);
      intros [h [_ [_ H]]]; discriminate H.
  - split; [discriminate|]. intros [h [_ [H _]]]. discriminate H.
  - split; [discriminate|]. intros [h [_ [H _]]]. discriminate H.
Qed.

Lemma owner_guard_fails (site : SiteRecord) (caller message : string) :
  owner_guard site caller = Some message -> authorization_error message.
Proof.
  unfold owner_guard, authorization_error.
  destruct (negb (opt_truthy (normalizeHexPubkey (owner_npub site)))
            || negb (opt_truthy (normalizeHexPubkey (Some caller)))).
  - intros H; inversion H; auto.
  - destruct (normalizeHexPubkey (owner_npub site)) as [o|].
    + destruct (strict_neq (normalizeHexPubkey (Some caller)) o);
        intros H; inversion H; auto.
    + intros H; inversion H; auto.
Qed.

Lemma owner_guard_no_owner (site : SiteRecord) (caller : string) :
  opt_truthy (owner_npub site) = false ->
  owner_guard site caller = Some "Unable to validate owner pubkey".
Proof.
  intros H. unfold owner_guard. rewrite (normalizeHexPubkey_falsy _ H). reflexivity.
Qed.

Lemma updateSiteByOwner_guarded st now u caller n site :
  findSite st u = Some site ->
  match owner_guard site caller with
  | Some message => updateSiteByOwner st now u caller n = (st, Throw message)
  | None => exists st' r, updateSiteByOwner st now u caller n = (st', Ok r)
  end.
Proof.
  intros F. unfold updateSiteByOwner. rewrite F.
  destruct (owner_guard site caller); trivial.
  destruct n; do 2 eexists; reflexivity.
Qed.

Lemma deleteSiteByOwner_guarded st u caller site :
  findSite st u = Some site ->
  match owner_guard site caller with
  | Some message => deleteSiteByOwner st u caller = (st, Throw message)
  | None => exists st' r, deleteSiteByOwner st u caller = (st', Ok r)
  end.
Proof.
  intros F. unfold deleteSiteByOwner. rewrite F.
  destruct (owner_guard site caller); trivial.
  do 2 eexists; reflexivity.
Qed.

End Ownership.

(** C4, as amended.  On an existing site whose stored owner identity is
    absent or empty, [updateSiteByOwner] and [deleteSiteByOwner] fail with
    the error "Unable to validate owner pubkey" for every caller and write
    nothing, while [getSiteStats] makes no check and returns the
    statistics to every caller. *)
Theorem ownerless_site_operations {RT : Runtime} (st : Store)
    (siteUuid caller : string) (site : SiteRecord) :
  findSite st siteUuid = Some site ->
  opt_truthy (owner_npub site) = false ->
  (forall now name,
      updateSiteByOwner st now siteUuid caller name =
        (st, Throw "Unable to validate owner pubkey")) /\
  deleteSiteByOwner st siteUuid caller =
    (st, Throw "Unable to validate owner pubkey") /\
  authorization_error "Unable to validate owner pubkey" /\
  exists stats, getSiteStats st siteUuid caller = Ok stats.
Proof.
  intros F O.
  pose proof (owner_guard_no_owner site caller O) as G.
  split; [|split; [|split]].
  - intros now name.
    pose proof (updateSiteByOwner_guarded st now siteUuid caller name site F) as H.
    rewrite G in H. exact H.
  - pose proof (deleteSiteByOwner_guarded st siteUuid caller site F) as H.
    rewrite G in H. exact H.
  - left; reflexivity.
  - destruct (getSiteStats_served st siteUuid caller site F) as [stats [E _]].
    + rewrite O. reflexivity.
    + exists stats; exact E.
Qed.

Lemma ownerless_site_operations_witness :
  findSite Example.ownerless_store "site-0002" = Some Example.ownerless_site /\
  opt_truthy (owner_npub Example.ownerless_site) = false /\
  (forall now name,
      updateSiteByOwner (RT := Example.runtime) Example.ownerless_store now
        "site-0002" Example.hex name =
        (Example.ownerless_store, Throw "Unable to validate owner pubkey")) /\
  deleteSiteByOwner (RT := Example.runtime) Example.ownerless_store
    "site-0002" Example.hex =
    (Example.ownerless_store, Throw "Unable to validate owner pubkey") /\
  authorization_error "Unable to validate owner pubkey" /\
  exists stats,
    getSiteStats (RT := Example.runtime) Example.ownerless_store "site-0002"
      Example.hex = Ok stats.
Proof.
  assert (F : findSite Example.ownerless_store "site-0002" =
              Some Example.ownerless_site) by (vm_compute; reflexivity).
  assert (O : opt_truthy (owner_npub Example.ownerless_site) = false)
    by reflexivity.
  split; [exact F|]. split; [exact O|].
  exact (ownerless_site_operations (RT := Example.runtime) Example.ownerless_store
           "site-0002" Example.hex Example.ownerless_site F O).
Defined.

(** C4 as stated fails: site "site-0002" has the empty string as stored
    owner, and [getSiteStats] returns its statistics to a caller. *)
Lemma getSiteStats_serves_ownerless_site :
  reachable (RT := Example.runtime) Example.ownerless_store /\
  findSite Example.ownerless_store "site-0002" = Some Example.ownerless_site /\
  owner_npub Example.ownerless_site = Some "" /\
  exists stats,
    getSiteStats (RT := Example.runtime) Example.ownerless_store "site-0002"
      "mallory" = Ok stats /\
    visits (totals stats) = 1.
Proof.
  split; [apply reachable_run_all; constructor|].
  split; [vm_compute; reflexivity|].
  split; [reflexivity|].
  eexists. split; [vm_compute; reflexivity | reflexivity].
Qed.

(** C5, as amended.  On a site with a stored owner identity,
    [updateSiteByOwner] and [deleteSiteByOwner] authorize the caller exactly
    when the caller identity and the stored owner identity normalize to the
    same canonical key, and fail with an authorization error, writing
    nothing, otherwise; a hex key passes against its stored npub encoding
    and an npub encoding passes against its stored hex key.  [getSiteStats]
    does not normalize: it serves the caller exactly when the caller string
    is the stored owner string, and throws "Owner npub mismatch" otherwise. *)
Theorem owner_checks_by_operation {RT : Runtime} (st : Store)
    (siteUuid caller : string) (site : SiteRecord) :
  findSite st siteUuid = Some site ->
  opt_truthy (owner_npub site) = true ->
  (forall now name,
      (same_canonical_key (owner_npub site) caller ->
       exists st' r, updateSiteByOwner st now siteUuid caller name = (st', Ok r)) /\
      (~ same_canonical_key (owner_npub site) caller ->
       exists message,
         authorization_error message /\
         updateSiteByOwner st now siteUuid caller name = (st, Throw message))) /\
  ((same_canonical_key (owner_npub site) caller ->
    exists st' r, deleteSiteByOwner st siteUuid caller = (st', Ok r)) /\
   (~ same_canonical_key (owner_npub site) caller ->
    exists message,
      authorization_error message /\
      deleteSiteByOwner st siteUuid caller = (st, Throw message))) /\
  (forall h, npub_of (JS.orEmpty (owner_npub site)) h -> caller = h ->
             same_canonical_key (owner_npub site) caller) /\
  (forall h, owner_npub site = Some h -> JS.test_hex64 h = true ->
             npub_of caller h ->
             same_canonical_key (owner_npub site) caller) /\
  (owner_npub site = Some caller ->
   exists stats, getSiteStats st siteUuid caller = Ok stats) /\
  (owner_npub site <> Some caller ->
   getSiteStats st siteUuid caller = Throw "Owner npub mismatch").
Proof.
  intros F O.
  assert (G : forall m, owner_guard site caller = Some m ->
                        ~ same_canonical_key (owner_npub site) caller -> 
                        authorization_error m).
  { intros m H _. exact (owner_guard_fails site caller m H). }
  split; [|split; [|split; [|split; [|split]]]].
  - intros now name.
    pose proof (updateSiteByOwner_guarded st now siteUuid caller name site F) as H.
    destruct (owner_guard site caller) as [m|] eqn:E.
    + split.
      * intros S. apply owner_guard_passes in S. congruence.
      * intros N. exists m. split; [apply (G m eq_refl N) | exact H].
    + split; [intros _; exact H|].
      intros N. exfalso. apply N. apply owner_guard_passes. exact E.
  - pose proof (deleteSiteByOwner_guarded st siteUuid caller site F) as H.
    destruct (owner_guard site caller) as [m|] eqn:E.
    + split.
      * intros S. apply owner_guard_passes in S. congruence.
      * intros N. exists m. split; [apply (G m eq_refl N) | exact H].
    + split; [intros _; exact H|].
      intros N. exfalso. apply N. apply owner_guard_passes. exact E.
  - intros h N ->. destruct (owner_npub site) as [s|]; [|discriminate O].
    simpl in N. exists (JS.toLowerCase h).
    destruct N as [T [X [D Hh]]].
    split; [apply test_hex64_truthy; exact Hh|].
    split; [apply normalizeHexPubkey_npub; repeat split; assumption|].
    apply normalizeHexPubkey_hex; exact Hh.
  - intros h Oh Hh N. rewrite Oh. exists (JS.toLowerCase h).
    split; [apply test_hex64_truthy; exact Hh|].
    split; [apply normalizeHexPubkey_hex; exact Hh|].
    apply normalizeHexPubkey_npub; exact N.
  - intros E.
    destruct (getSiteStats_served st siteUuid caller site F) as [stats [S _]].
    + rewrite E. simpl. rewrite String.eqb_refl. apply andb_false_r.
    + exists stats; exact S.
  - intros N. apply (getSiteStats_refused st siteUuid caller site F).
    rewrite O. simpl.
    destruct (strict_neq (owner_npub site) caller) eqn:E; trivial.
    apply strict_neq_false in E. contradiction.
Qed.

Lemma owner_checks_by_operation_witness :
  findSite Example.encodings_store "site-0003" = Some Example.npub_site /\
  opt_truthy (owner_npub Example.npub_site) = true /\
  same_canonical_key (RT := Example.runtime) (Some Example.npub) Example.hex /\
  (exists st' r,
      deleteSiteByOwner (RT := Example.runtime) Example.encodings_store
        "site-0003" Example.hex = (st', Ok r)) /\
  getSiteStats (RT := Example.runtime) Example.encodings_store "site-0003"
    Example.hex = Throw "Owner npub mismatch".
Proof.
  assert (F : findSite Example.encodings_store "site-0003" = Some Example.npub_site)
    by (vm_compute; reflexivity).
  assert (O : opt_truthy (owner_npub Example.npub_site) = true) by reflexivity.
  destruct (owner_checks_by_operation (RT := Example.runtime)
              Example.encodings_store "site-0003" Example.hex Example.npub_site F O)
    as [_ [[D _] [N [_ [_ M]]]]].
  assert (S : same_canonical_key (RT := Example.runtime) (Some Example.npub)
                Example.hex).
  { apply (N Example.hex); [|reflexivity].
    repeat split; vm_compute; reflexivity. }
  split; [exact F|]. split; [exact O|]. split; [exact S|].
  split; [exact (D S)|].
  apply M. simpl. intros H. discriminate H.
Defined.

(** C5 as stated fails for [getSiteStats].  The owner of "site-0004" is
    stored as an upper-case hex key and the caller supplies the same key in
    lower case; the owner of "site-0003" is stored as an npub and the
    caller supplies its hex key.  Both pairs normalize to the same
    canonical key, and both calls are refused. *)
Lemma getSiteStats_compares_raw_strings :
  findSite Example.encodings_store "site-0004" = Some Example.HEX_site /\
  normalizeHexPubkey (RT := Example.runtime) (owner_npub Example.HEX_site) =
    Some Example.hex /\
  findSite Example.encodings_store "site-0003" = Some Example.npub_site /\
  normalizeHexPubkey (RT := Example.runtime) (owner_npub Example.npub_site) =
    Some Example.hex /\
  normalizeHexPubkey (RT := Example.runtime) (Some Example.hex) = Some Example.hex /\
  getSiteStats (RT := Example.runtime) Example.encodings_store "site-0004"
    Example.hex = Throw "Owner npub mismatch" /\
  getSiteStats (RT := Example.runtime) Example.encodings_store "site-0003"
    Example.hex = Throw "Owner npub mismatch".
Proof. repeat split; vm_compute; reflexivity. Qed.

(** ** Empty site identifiers *)





(** ** Page paths *)

(** [normalizePagePath] by cases: "/" for a missing or empty input; else
    the pathname the URL constructor gives, or "/" when that is empty;
    else, when the constructor throws, the input with "/" put in front
    unless it is there. *)
Lemma normalizePagePath_cases {RT : Runtime} (path : option string) :
  match path with
  | None => normalizePagePath path = "/"
  | Some p =>
      if negb (JS.truthy p) then normalizePagePath path = "/"
      else
        match URL_pathname p (if JS.startsWith p "http" then None
                              else Some "http://placeholder") with
        | Some pathname =>
            normalizePagePath path = (if JS.truthy pathname then pathname else "/")
        | None =>
            normalizePagePath path = (if JS.startsWith p "/" then p else "/" ++ p)
        end
  end.
Proof.
  destruct path as [p|]; simpl; trivial.
  destruct (JS.truthy p); simpl; trivial.
  destruct (JS.startsWith p "http"); simpl;
    match goal with |- match ?u with _ => _ end => destruct u end; reflexivity.
Qed.

(** C7, where the code departs from it.  The URL constructor reads
    "mailto:a" against the base "http://placeholder" as a URL with the
    opaque path "a"; [normalizePagePath] returns that pathname, which does
    not start with "/". *)
Theorem normalizePagePath_opaque_path {RT : Runtime} :
  URL_pathname "mailto:a" (Some "http://placeholder") = Some "a" ->
  normalizePagePath (Some "mailto:a") = "a" /\
  JS.startsWith (normalizePagePath (Some "mailto:a")) "/" = false.
Proof.
  intros H. unfold normalizePagePath. simpl. rewrite H. split; reflexivity.
Qed.

Lemma normalizePagePath_opaque_path_witness :
  URL_pathname (Runtime := Example.runtime) "mailto:a" (Some "http://placeholder")
    = Some "a" /\
  normalizePagePath (RT := Example.runtime) (Some "mailto:a") = "a" /\
  JS.startsWith (normalizePagePath (RT := Example.runtime) (Some "mailto:a")) "/"
    = false.
Proof.
  assert (H : URL_pathname (Runtime := Example.runtime) "mailto:a"
                (Some "http://placeholder") = Some "a") by reflexivity.
  split; [exact H|].
  exact (normalizePagePath_opaque_path (RT := Example.runtime) H).
Defined.

(** ** Last-seen timestamps *)

(** C8, where the code departs from it.  Page "/" of "site-0001" was seen
    from a mobile on 1 January and from a desktop on 2 January.  The rows
    are read in the order desktop, mobile, and the page entry of
    [getSiteStats] carries the timestamp of the row read last, 1 January,
    while the latest timestamp of the page's rows is 2 January. *)
Theorem getSiteStats_lastSeen_is_last_row :
  reachable (RT := Example.runtime) Example.two_devices_store /\
  exists stats entry,
    getSiteStats (RT := Example.runtime) Example.two_devices_store "site-0001"
      "alice" = Ok stats /\
    st_pages stats = [entry] /\
    page entry = "/" /\
    lastSeen entry = Some "2024-01-01 10:00:00" /\
    latest (map last_seen
              (filter (fun r => page_path r =? "/")
                 (site_page_stats Example.two_devices_store 1)))
      = Some "2024-01-02 10:00:00" /\
    lastSeen entry <>
      latest (map last_seen
                (filter (fun r => page_path r =? "/")
                   (site_page_stats Example.two_devices_store 1))).
Proof.
  split; [apply reachable_run_all; constructor|].
  do 2 eexists.
  split; [vm_compute; reflexivity|].
  split; [reflexivity|]. split; [reflexivity|]. split; [reflexivity|].
  split; [vm_compute; reflexivity|].
  vm_compute. discriminate.
Qed.

(** ** The scenarios of the specification, run on the model *)

(** Three visits of "/home" and a repeated delivery of "ev1": the
    statistics count 3 visits, all from a desktop. *)
Example scenario_totals :
  exists stats entry,
    getSiteStats (RT := Example.runtime) Example.scenario_store "abc123" "ownerX"
      = Ok stats /\
    visits (totals stats) = 3 /\
    st_pages stats = [entry] /\
    dev_desktop (devices entry) = 3.
Proof. do 2 eexists. split; [vm_compute; reflexivity|]. repeat split. Qed.

(** A full URL is stored under its path. *)
Example scenario_url_path :
  normalizePagePath (RT := Example.runtime)
    (Some "https://example.com/blog/post?x=1") = "/blog/post".
Proof. reflexivity. Qed.

Example normalizeDeviceType_examples :
  normalizeDeviceType (Some " Tablet ") (Some "Mozilla/5.0 Mobile") = tablet /\
  normalizeDeviceType (Some "phone") (Some "Mozilla/5.0 Mobile Safari") = mobile /\
  normalizeDeviceType None (Some "Mozilla/5.0 (iPad)") = tablet /\
  normalizeDeviceType None (Some "curl/8.0") = desktop /\
  normalizeDeviceType None None = other.
Proof. repeat split. Qed.

Example requestId_eventId_examples :
  requestId_eventId (Some (IdNumber 42)) = Some "42" /\
  requestId_eventId (Some (IdNumber 0)) = None /\
  requestId_eventId (Some (IdString "")) = None /\
  requestId_eventId (Some (IdString "req-7")) = Some "req-7".
Proof. repeat split. Qed.

(** ** What the page loop keeps as [lastSeen] *)

Lemma find_app_Some {A : Type} (f : A -> bool) (l l' : list A) (x : A) :
  find f l = Some x -> find f (l ++ l') = Some x.
Proof.
  induction l as [|y l IH]; simpl; [discriminate|].
  destruct (f y); trivial.
Qed.

Lemma Map_get_set {V : Type} (m : list (string * V)) (k k' : string) (v : V) :
  Map_get (Map_set m k v) k' = if k =? k' then Some v else Map_get m k'.
Proof.
  induction m as [|[k0 v0] m IH]; simpl.
  - reflexivity.
  - destruct (k0 =? k) eqn:E; simpl.
    + apply String.eqb_eq in E. subst k0.
      destruct (k =? k'); reflexivity.
    + rewrite IH. destruct (k0 =? k') eqn:E'; trivial.
      apply String.eqb_eq in E'. subst k0. rewrite String.eqb_sym in E.
      rewrite E. reflexivity.
Qed.

(** The row of page [p] that the loop reads last. *)
Lemma page_loop_lastSeen (rows : list PageStatRow) (p : string) :
  option_map lastSeen (Map_get (fst (page_loop rows)) p) =
  option_map (fun r => Some (last_seen r))
    (find (fun r => page_path r =? p) (rev rows)).
Proof.
  unfold page_loop.
  assert (G : forall acc,
             option_map lastSeen (Map_get (fst (fold_left page_loop_body rows acc)) p) =
             match find (fun r => page_path r =? p) (rev rows) with
             | Some r => Some (Some (last_seen r))
             | None => option_map lastSeen (Map_get (fst acc) p)
             end).
  { induction rows as [|r rows IH]; intros acc; simpl; trivial.
    rewrite IH. clear IH.
    destruct (find (fun r0 => page_path r0 =? p) (rev rows)) as [x|] eqn:F.
    - rewrite (find_app_Some _ _ _ _ F). reflexivity.
    - rewrite (find_app_None _ _ _ F). simpl.
      destruct acc as [m t]. simpl. rewrite Map_get_set.
      destruct (page_path r =? p); reflexivity. }
  rewrite G. simpl.
  destruct (find (fun r => page_path r =? p) (rev rows)); reflexivity.
Qed.

(** After the owner has been cleared by an empty owner string, another
    identity registers the site as its own. *)
Example registerSite_takeover :
  exists st1 r1 st2 site2,
    registerSite Example.two_devices_store "2024-01-03 09:00:00" "0d1e"
      "site-0001" None "" = (st1, r1) /\
    registerSite st1 "2024-01-03 09:00:05" "0d1e" "site-0001" None "mallory"
      = (st2, Ok (Some site2)) /\
    owner_npub site2 = Some "mallory".
Proof. do 4 eexists. repeat split. Qed.

(** * Further properties of the service *)

(** ** What each call writes *)

Lemma findSite_In (st : Store) (u : string) (s : SiteRecord) :
  findSite st u = Some s -> In s (sites_table st).
Proof. unfold findSite. intros H. apply find_some in H. tauto. Qed.

Lemma findSite_None_uuid (st : Store) (u : string) :
  findSite st u = None -> ~ In u (map site_uuid (sites_table st)).
Proof.
  unfold findSite. intros H Hin. apply in_map_iff in Hin.
  destruct Hin as [s [E Hs]].
  pose proof (find_none _ _ H s Hs) as N. simpl in N.
  rewrite E, String.eqb_refl in N. discriminate N.
Qed.

Lemma findSite_Some_iff (st : Store) (u : string) :
  NoDup (map site_uuid (sites_table st)) ->
  forall s, findSite st u = Some s <-> In s (sites_table st) /\ site_uuid s = u.
Proof.
  unfold findSite. induction (sites_table st) as [|x l IH]; simpl; intros N s.
  - split; [discriminate | tauto].
  - inversion N as [|? ? Hx Hl]; subst.
    destruct (site_uuid x =? u) eqn:E.
    + apply String.eqb_eq in E. split.
      * intros H; inversion H; subst; auto.
      * intros [[->|Hin] Hu]; trivial.
        exfalso. apply Hx. rewrite E, <- Hu. apply in_map. exact Hin.
    + apply String.eqb_neq in E. rewrite (IH Hl s). split.
      * intros [Hin Hu]. auto.
      * intros [[->|Hin] Hu]; [contradiction | auto].
Qed.

(** The three shapes of the store after [registerSite]. *)
Lemma registerSite_effect (st : Store) (now tok u : string) (n : option string)
    (o : string) :
  fst (registerSite st now tok u n o) = st \/
  (exists existing,
      findSite st u = Some existing /\
      fst (registerSite st now tok u n o) =
        update_sites u (register_set n (Some o) now) st) \/
  (findSite st u = None /\
   fst (registerSite st now tok u n o) =
     {| sites_table :=
          sites_table st ++
          [{| id := sites_seq st + 1; site_uuid := u; name := n;
              owner_npub := Some o; owner_signature := None;
              secret_token := tok; created_at := now; updated_at := now |}];
        page_stats_table := page_stats_table st;
        visits_table := visits_table st;
        sites_seq := sites_seq st + 1 |}).
Proof.
  unfold registerSite. destruct (findSite st u) as [existing|] eqn:F.
  - destruct (JS.truthy o && opt_truthy (owner_npub existing)
              && strict_neq (owner_npub existing) o); simpl; auto.
    right; left. exists existing. auto.
  - right; right. auto.
Qed.

Lemma updateSiteByOwner_effect {RT : Runtime} (st : Store) (now u c : string)
    (n : option (option string)) :
  fst (updateSiteByOwner st now u c n) = st \/
  exists v, n = Some v /\
            fst (updateSiteByOwner st now u c n) = update_sites u (owner_set v now) st.
Proof.
  unfold updateSiteByOwner. destruct (findSite st u) as [s|]; simpl; auto.
  destruct (owner_guard s c); simpl; auto.
  destruct n as [v|]; simpl; auto. right. exists v. auto.
Qed.

(** A call of [recordVisit] that writes does so for a registered site and
    with an event identifier that is absent or not stored yet. *)
Lemma recordVisit_effect {RT : Runtime} (st : Store) (t1 t2 u : string)
    (p d ua ev : option string) :
  fst (recordVisit st t1 t2 u p d ua ev) = st \/
  exists site,
    findSite st u = Some site /\
    (forall x, JS.orNull (JS.trim (JS.orEmpty ev)) = Some x ->
               JS.truthy x = true /\ event_stored st x = false) /\
    fst (recordVisit st t1 t2 u p d ua ev) =
      {| sites_table := sites_table st;
         page_stats_table :=
           fst (upsert_rows (id site) (normalizePagePath p)
                  (normalizeDeviceType d ua) t2 (page_stats_table st));
         visits_table :=
           visits_table st ++
           [{| v_site_id := id site; v_page_path := normalizePagePath p;
               v_device_type := normalizeDeviceType d ua;
               nostr_event_id := JS.orNull (JS.trim (JS.orEmpty ev));
               visited_at := t1 |}];
         sites_seq := sites_seq st |}.
Proof.
  unfold recordVisit. destruct (findSite st u) as [s|] eqn:F; simpl; auto.
  unfold record_transaction, insert_or_ignore_visit; simpl.
  destruct (JS.orNull (JS.trim (JS.orEmpty ev))) as [e|] eqn:N.
  - destruct (orNull_Some _ _ N) as [_ T].
    destruct (event_stored st e) eqn:E; simpl.
    + unfold opt_truthy; simpl. rewrite T.
      destruct (select_page_stat st (id s) (normalizePagePath p)
                  (normalizeDeviceType d ua)); simpl; auto.
    + right. exists s. split; trivial. split.
      * intros x Hx. inversion Hx; subst x. auto.
      * unfold upsert_page_stat; simpl.
        destruct (upsert_rows (id s) (normalizePagePath p) (normalizeDeviceType d ua)
                    t2 (page_stats_table st)); reflexivity.
  - simpl. right. exists s. split; trivial. split; [discriminate|].
    unfold upsert_page_stat; simpl.
    destruct (upsert_rows (id s) (normalizePagePath p) (normalizeDeviceType d ua)
                t2 (page_stats_table st)); reflexivity.
Qed.

Lemma update_sites_uuids (u : string) (f : SiteRecord -> SiteRecord) (st : Store) :
  (forall s, site_uuid (f s) = site_uuid s) ->
  map site_uuid (sites_table (update_sites u f st)) = map site_uuid (sites_table st).
Proof.
  intros Hf. unfold update_sites; simpl. rewrite map_map. apply map_ext.
  intros s. destruct (site_uuid s =? u); auto.
Qed.

Lemma update_sites_ids (u : string) (f : SiteRecord -> SiteRecord) (st : Store) :
  (forall s, id (f s) = id s) ->
  map id (sites_table (update_sites u f st)) = map id (sites_table st).
Proof.
  intros Hf. unfold update_sites; simpl. rewrite map_map. apply map_ext.
  intros s. destruct (site_uuid s =? u); auto.
Qed.

(** ** The constraints of the schema hold in every reachable store *)

Lemma id_bound_via_map (l l' : list SiteRecord) (b : Z) :
  map id l' = map id l ->
  (forall s, In s l -> 0 < id s <= b) ->
  forall s, In s l' -> 0 < id s <= b.
Proof.
  intros E H s Hin. apply (in_map id) in Hin. rewrite E in Hin.
  apply in_map_iff in Hin. destruct Hin as [s0 [E0 H0]].
  rewrite <- E0. apply H. exact H0.
Qed.

Lemma sites_ok_update (u : string) (f : SiteRecord -> SiteRecord) (st : Store) :
  (forall s, site_uuid (f s) = site_uuid s) ->
  (forall s, id (f s) = id s) ->
  sites_ok st -> sites_ok (update_sites u f st).
Proof.
  intros Hu Hi [U [I [S B]]]. unfold sites_ok.
  rewrite (update_sites_uuids u f st Hu), (update_sites_ids u f st Hi).
  repeat split; trivial;
    apply (id_bound_via_map (sites_table st) _ (sites_seq st)
             (update_sites_ids u f st Hi) B s H).
Qed.

Lemma sites_ok_run {RT : Runtime} (st : Store) (c : Call) :
  sites_ok st -> sites_ok (run st c).
Proof.
  intros H.
  destruct c as [now tok u n o | t1 t2 u p d ua ev | now u cp n | u cp | ]; simpl.
  - destruct (registerSite_effect st now tok u n o) as [E|[[ex [F E]]|[F E]]];
      rewrite E; trivial.
    + apply sites_ok_update; trivial.
    + destruct H as [U [I [S B]]]. unfold sites_ok; simpl.
      rewrite !map_app; simpl.
      assert (N : forall s, In s (sites_table st) -> id s <> sites_seq st + 1).
      { intros s Hs. specialize (B s Hs). lia. }
      split; [|split; [|split]].
      * apply NoDup_app; trivial.
        -- constructor; [intros [] | constructor].
        -- intros a Ha [<-|[]]. exact (findSite_None_uuid st u F Ha).
      * apply NoDup_app; trivial.
        -- constructor; [intros [] | constructor].
        -- intros a Ha [<-|[]]. apply in_map_iff in Ha.
           destruct Ha as [s [Es Hs]]. exact (N s Hs Es).
      * lia.
      * intros s Hs. apply in_app_or in Hs. destruct Hs as [Hs|[<-|[]]].
        -- specialize (B s Hs). lia.
        -- simpl. lia.
  - destruct (recordVisit_effect st t1 t2 u p d ua ev) as [E|[site [_ [_ E]]]];
      rewrite E; trivial.
  - destruct (updateSiteByOwner_effect st now u cp n) as [E|[v [_ E]]];
      rewrite E; trivial.
    apply sites_ok_update; trivial.
  - destruct (deleteSiteByOwner_store st u cp) as [E|[sid E]]; rewrite E; trivial.
    destruct H as [U [I [S B]]]. unfold sites_ok; simpl.
    split; [apply NoDup_map_filter; exact U|].
    split; [apply NoDup_map_filter; exact I|].
    split; trivial.
    intros s Hs. apply filter_In in Hs. apply B. tauto.
  - destruct H as [_ [_ [S _]]]. unfold sites_ok; simpl.
    split; [constructor|]. split; [constructor|]. split; [exact S|].
    intros s [].
Qed.

Lemma reachable_sites_ok {RT : Runtime} (st : Store) : reachable st -> sites_ok st.
Proof.
  induction 1 as [|st c R IH].
  - unfold sites_ok; simpl.
    split; [constructor|]. split; [constructor|]. split; [lia|].
    intros s [].
  - apply sites_ok_run; exact IH.
Qed.

Lemma referenced_iff (l : list SiteRecord) (k : Z) :
  (exists s, In s l /\ id s = k) <-> In k (map id l).
Proof.
  rewrite in_map_iff. split; intros [s [A B]]; exists s; tauto.
Qed.

Lemma references_ok_sites (st st' : Store) :
  (forall k, In k (map id (sites_table st)) -> In k (map id (sites_table st'))) ->
  page_stats_table st' = page_stats_table st ->
  visits_table st' = visits_table st ->
  references_ok st -> references_ok st'.
Proof.
  intros Hk E1 E2 [P V]. unfold references_ok. rewrite E1, E2.
  split; intros x Hx; apply referenced_iff, Hk, referenced_iff; auto.
Qed.

Lemma upsert_rows_site (sid : Z) (p : string) (d : DeviceType) (now : string)
    (rows : list PageStatRow) (r : PageStatRow) :
  In r (fst (upsert_rows sid p d now rows)) ->
  site_id r = sid \/ exists r0, In r0 rows /\ site_id r0 = site_id r.
Proof.
  intros Hin. apply (in_map stat_key) in Hin.
  apply upsert_rows_keys in Hin. destruct Hin as [H|H].
  - right. apply in_map_iff in H. destruct H as [r0 [E H0]].
    exists r0. split; trivial. unfold stat_key in E. congruence.
  - left. unfold stat_key in H. congruence.
Qed.

Lemma references_ok_run {RT : Runtime} (st : Store) (c : Call) :
  references_ok st -> references_ok (run st c).
Proof.
  intros H.
  destruct c as [now tok u n o | t1 t2 u p d ua ev | now u cp n | u cp | ]; simpl.
  - destruct (registerSite_effect st now tok u n o) as [E|[[ex [F E]]|[F E]]];
      rewrite E; trivial.
    + apply (references_ok_sites st); trivial.
      rewrite update_sites_ids by reflexivity. auto.
    + apply (references_ok_sites st); trivial.
      simpl. intros k Hk. rewrite map_app. apply in_or_app. auto.
  - destruct (recordVisit_effect st t1 t2 u p d ua ev) as [E|[site [F [_ E]]]];
      rewrite E; trivial.
    destruct H as [P V]. unfold references_ok; simpl. split.
    + intros r Hr. apply upsert_rows_site in Hr. destruct Hr as [Hr|[r0 [H0 E0]]].
      * exists site. split; [exact (findSite_In st u site F) | congruence].
      * rewrite <- E0. apply P. exact H0.
    + intros v Hv. apply in_app_or in Hv. destruct Hv as [Hv|[<-|[]]].
      * apply V. exact Hv.
      * exists site. split; [exact (findSite_In st u site F) | reflexivity].
  - destruct (updateSiteByOwner_effect st now u cp n) as [E|[v [_ E]]];
      rewrite E; trivial.
    apply (references_ok_sites st); trivial.
    rewrite update_sites_ids by reflexivity. auto.
  - destruct (deleteSiteByOwner_store st u cp) as [E|[sid E]]; rewrite E; trivial.
    destruct H as [P V]. unfold references_ok; simpl. split.
    + intros r Hr. apply filter_In in Hr. destruct Hr as [Hr N].
      destruct (P r Hr) as [s [Hs Es]]. exists s. split; trivial.
      apply filter_In. split; trivial. rewrite Es. exact N.
    + intros v Hv. apply filter_In in Hv. destruct Hv as [Hv N].
      destruct (V v Hv) as [s [Hs Es]]. exists s. split; trivial.
      apply filter_In. split; trivial. rewrite Es. exact N.
  - unfold references_ok; simpl. split; intros x [].
Qed.

Lemma reachable_references_ok {RT : Runtime} (st : Store) :
  reachable st -> references_ok st.
Proof.
  induction 1 as [|st c R IH].
  - unfold references_ok; simpl. split; intros x [].
  - apply references_ok_run; exact IH.
Qed.

Lemma event_stored_ids (st : Store) (e : string) :
  event_stored st e = true <-> In e (event_ids st).
Proof.
  rewrite event_stored_iff. unfold event_ids. rewrite in_flat_map.
  split; intros [v [Hv H]]; exists v; split; trivial.
  - rewrite H. left; reflexivity.
  - destruct (nostr_event_id v) as [x|]; [|contradiction].
    destruct H as [->|[]]. reflexivity.
Qed.

Lemma event_ids_filter (Q : VisitRow -> bool) (l : list VisitRow) :
  let ids := flat_map (fun v => match nostr_event_id v with
                                | Some e => [e]
                                | None => []
                                end) in
  (forall e, In e (ids (filter Q l)) -> In e (ids l)) /\
  (NoDup (ids l) -> NoDup (ids (filter Q l))).
Proof.
  simpl. induction l as [|v l [IH1 IH2]]; simpl.
  - split; auto.
  - split.
    + intros e He. destruct (Q v); simpl in He.
      * apply in_app_or in He. apply in_or_app. destruct He; auto.
      * apply in_or_app. auto.
    + intros N. destruct (nostr_event_id v) as [x|] eqn:Ev; simpl in *.
      * inversion N as [|? ? Hx Hl]; subst. destruct (Q v); simpl; auto.
        rewrite Ev; simpl. constructor; auto.
      * destruct (Q v); simpl; auto. rewrite Ev; simpl. auto.
Qed.

Lemma events_ok_run {RT : Runtime} (st : Store) (c : Call) :
  events_ok st -> events_ok (run st c).
Proof.
  intros H.
  assert (K : forall st', visits_table st' = visits_table st -> events_ok st').
  { intros st' E. unfold events_ok, event_ids. rewrite E. exact H. }
  destruct c as [now tok u n o | t1 t2 u p d ua ev | now u cp n | u cp | ]; simpl.
  - apply K. apply registerSite_tables.
  - destruct (recordVisit_effect st t1 t2 u p d ua ev) as [E|[site [F [Hx E]]]];
      rewrite E; trivial.
    destruct H as [N T]. unfold events_ok, event_ids; simpl.
    rewrite flat_map_app; simpl.
    destruct (JS.orNull (JS.trim (JS.orEmpty ev))) as [x|]; simpl.
    + destruct (Hx x eq_refl) as [Tx Sx]. split.
      * apply NoDup_app; trivial.
        -- constructor; [intros [] | constructor].
        -- intros a Ha [<-|[]]. apply event_stored_ids in Ha. congruence.
      * intros e He. apply in_app_or in He. destruct He as [He|[<-|[]]]; auto.
    + rewrite app_nil_r. split; trivial.
  - apply K. apply updateSiteByOwner_tables.
  - destruct (deleteSiteByOwner_store st u cp) as [E|[sid E]]; rewrite E; trivial.
    destruct H as [N T]. unfold events_ok, event_ids; simpl.
    destruct (event_ids_filter (fun v => negb (v_site_id v =? sid)%Z)
                (visits_table st)) as [A B].
    split; [apply B; exact N | intros e He; apply T, A; exact He].
  - unfold events_ok, event_ids; simpl. split; [constructor | intros e []].
Qed.

Lemma reachable_events_ok {RT : Runtime} (st : Store) : reachable st -> events_ok st.
Proof.
  induction 1 as [|st c R IH].
  - unfold events_ok, event_ids; simpl. split; [constructor | intros e []].
  - apply events_ok_run; exact IH.
Qed.

(** ** Recording a visit that is not a duplicate *)

Lemma upsert_rows_returned (sid : Z) (p : string) (d : DeviceType) (now : string)
    (rows : list PageStatRow) :
  let ret := snd (upsert_rows sid p d now rows) in
  stat_key ret = (sid, p, d) /\
  last_seen ret = now /\
  visit_count ret =
    match find (same_triple sid p d) rows with
    | Some r => visit_count r + 1
    | None => 1
    end.
Proof.
  induction rows as [|r rows IH]; simpl.
  - repeat split.
  - destruct (same_triple sid p d r) eqn:S.
    + simpl. rewrite same_triple_key in S. apply Key_eqb_eq in S.
      unfold stat_key in *; simpl. repeat split. exact S.
    + destruct (upsert_rows sid p d now rows) as [rows' ret]; simpl in *. exact IH.
Qed.

Lemma upsert_rows_find_other (sid : Z) (p : string) (d : DeviceType) (now : string)
    (rows : list PageStatRow) (k : Key) :
  k <> (sid, p, d) ->
  find (fun r => Key_eqb (stat_key r) k) (fst (upsert_rows sid p d now rows)) =
  find (fun r => Key_eqb (stat_key r) k) rows.
Proof.
  intros N. induction rows as [|r rows IH]; cbn [upsert_rows].
  - cbn [fst find].
    destruct (Key_eqb (stat_key {| site_id := sid; page_path := p; device_type := d;
                                   visit_count := 1; last_seen := now |}) k) eqn:E;
      trivial.
    apply Key_eqb_eq in E. unfold stat_key in E; simpl in E. congruence.
  - destruct (same_triple sid p d r) eqn:S.
    + cbn [fst find]. rewrite same_triple_key in S. apply Key_eqb_eq in S.
      change (stat_key {| site_id := site_id r; page_path := page_path r;
                          device_type := device_type r;
                          visit_count := visit_count r + 1; last_seen := now |})
        with (stat_key r).
      destruct (Key_eqb (stat_key r) k) eqn:E; trivial.
      apply Key_eqb_eq in E. congruence.
    + destruct (upsert_rows sid p d now rows) as [rows' ret]. cbn [fst find] in *.
      rewrite IH. reflexivity.
Qed.

Lemma select_page_stat_key (st : Store) (sid : Z) (p : string) (d : DeviceType) :
  select_page_stat st sid p d =
  find (fun r => Key_eqb (stat_key r) (sid, p, d)) (page_stats_table st).
Proof. reflexivity. Qed.

(** The result and the store of a [recordVisit] call that is not stopped
    by the deduplication gate. *)
Lemma recordVisit_writes {RT : Runtime} (st : Store) (t1 t2 u : string)
    (p d ua ev : option string) (site : SiteRecord) :
  findSite st u = Some site ->
  (forall x, JS.orNull (JS.trim (JS.orEmpty ev)) = Some x -> event_stored st x = false) ->
  let pg := normalizePagePath p in
  let dv := normalizeDeviceType d ua in
  let up := upsert_rows (id site) pg dv t2 (page_stats_table st) in
  recordVisit st t1 t2 u p d ua ev =
    ({| sites_table := sites_table st;
        page_stats_table := fst up;
        visits_table :=
          visits_table st ++
          [{| v_site_id := id site; v_page_path := pg; v_device_type := dv;
              nostr_event_id := JS.orNull (JS.trim (JS.orEmpty ev));
              visited_at := t1 |}];
        sites_seq := sites_seq st |},
     Ok {| VisitResult.siteUuid := site_uuid site;
           VisitResult.pagePath := pg;
           VisitResult.deviceType := dv;
           VisitResult.visits := visit_count (snd up);
           VisitResult.lastSeen := Some (last_seen (snd up)) |}).
Proof.
  intros F N pg dv up. unfold recordVisit. rewrite F.
  unfold record_transaction, insert_or_ignore_visit; simpl.
  destruct (JS.orNull (JS.trim (JS.orEmpty ev))) as [e|] eqn:Ev.
  - rewrite (N e eq_refl). simpl.
    unfold upsert_page_stat; simpl. fold pg dv. fold up.
    destruct up as [rows ret]. reflexivity.
  - simpl. unfold upsert_page_stat; simpl. fold pg dv. fold up.
    destruct up as [rows ret]. reflexivity.
Qed.

(** X1.  A [recordVisit] call on a registered site whose event identifier is
    missing, blank or not stored yet returns without error; it appends
    exactly one visit row, and the returned count is the previous counter of
    its triple plus one (1 when the triple had no row), with the time of
    the write as last-seen timestamp.  The returned values are those of the
    triple's row in the new store. *)
Theorem recordVisit_counts_new_visit {RT : Runtime} (st : Store)
    (t_visit t_stat siteUuid : string)
    (pagePath deviceType userAgent nostrEventId : option string)
    (site : SiteRecord) :
  findSite st siteUuid = Some site ->
  (forall x, JS.orNull (JS.trim (JS.orEmpty nostrEventId)) = Some x ->
             event_stored st x = false) ->
  exists st' r,
    recordVisit st t_visit t_stat siteUuid pagePath deviceType userAgent
      nostrEventId = (st', Ok r) /\
    VisitResult.visits r =
      fst (current_stat st (id site) (VisitResult.pagePath r)
             (VisitResult.deviceType r)) + 1 /\
    VisitResult.lastSeen r = Some t_stat /\
    current_stat st' (id site) (VisitResult.pagePath r) (VisitResult.deviceType r) =
      (VisitResult.visits r, VisitResult.lastSeen r) /\
    List.length (visits_table st') = S (List.length (visits_table st)) /\
    sites_table st' = sites_table st.
Proof.
  intros F N.
  pose proof (recordVisit_writes st t_visit t_stat siteUuid pagePath deviceType
                userAgent nostrEventId site F N) as W.
  cbv zeta in W. do 2 eexists. split; [exact W|]. simpl.
  destruct (upsert_rows_returned (id site) (normalizePagePath pagePath)
              (normalizeDeviceType deviceType userAgent) t_stat (page_stats_table st))
    as [K [L C]].
  cbv zeta in K, L, C.
  split; [|split; [|split; [|split]]].
  - rewrite C. unfold current_stat, select_page_stat.
    destruct (find _ (page_stats_table st)); simpl; lia.
  - rewrite L. reflexivity.
  - unfold current_stat, select_page_stat; simpl. rewrite upsert_rows_find.
    reflexivity.
  - rewrite length_app. simpl. lia.
  - reflexivity.
Qed.

Lemma recordVisit_counts_new_visit_witness :
  findSite Example.scenario_store "abc123" = Some Example.scenario_site /\
  (forall x, JS.orNull (JS.trim (JS.orEmpty (Some "  "))) = Some x ->
             event_stored Example.scenario_store x = false) /\
  exists st' r,
    recordVisit (RT := Example.runtime) Example.scenario_store
      "2024-01-01 12:00:00" "2024-01-01 12:00:01" "abc123"
      (Some "/home") (Some "desktop") None (Some "  ") = (st', Ok r) /\
    VisitResult.visits r =
      fst (current_stat Example.scenario_store 1 (VisitResult.pagePath r)
             (VisitResult.deviceType r)) + 1 /\
    VisitResult.lastSeen r = Some "2024-01-01 12:00:01" /\
    current_stat st' 1 (VisitResult.pagePath r) (VisitResult.deviceType r) =
      (VisitResult.visits r, VisitResult.lastSeen r) /\
    List.length (visits_table st') = S (List.length (visits_table Example.scenario_store)) /\
    sites_table st' = sites_table Example.scenario_store.
Proof.
  assert (F : findSite Example.scenario_store "abc123" = Some Example.scenario_site)
    by (vm_compute; reflexivity).
  assert (N : forall x, JS.orNull (JS.trim (JS.orEmpty (Some "  "))) = Some x ->
                        event_stored Example.scenario_store x = false)
    by (intros x H; vm_compute in H; discriminate H).
  split; [exact F|]. split; [exact N|].
  exact (recordVisit_counts_new_visit (RT := Example.runtime) Example.scenario_store
           "2024-01-01 12:00:00" "2024-01-01 12:00:01" "abc123"
           (Some "/home") (Some "desktop") None (Some "  ")
           Example.scenario_site F N).
Defined.

(** X2.  Whatever its arguments, a [recordVisit] call leaves the sites and
    the stored visits in place, and the counter row of every triple other
    than the one of the call is read back as before. *)
Theorem recordVisit_touches_one_triple {RT : Runtime} (st : Store)
    (t_visit t_stat siteUuid : string)
    (pagePath deviceType userAgent nostrEventId : option string)
    (sid : Z) (p : string) (d : DeviceType) :
  (forall site, findSite st siteUuid = Some site ->
                (sid, p, d) <> (id site, normalizePagePath pagePath,
                                normalizeDeviceType deviceType userAgent)) ->
  let st' := fst (recordVisit st t_visit t_stat siteUuid pagePath deviceType
                    userAgent nostrEventId) in
  select_page_stat st' sid p d = select_page_stat st sid p d /\
  sites_table st' = sites_table st /\
  sites_seq st' = sites_seq st /\
  forall v, In v (visits_table st) -> In v (visits_table st').
Proof.
  intros N st'. subst st'.
  destruct (recordVisit_effect st t_visit t_stat siteUuid pagePath deviceType
              userAgent nostrEventId) as [E|[site [F [_ E]]]]; rewrite E.
  - auto.
  - simpl. split; [|split; [|split]]; trivial.
    + exact (upsert_rows_find_other _ _ _ _ _ (sid, p, d) (N site F)).
    + intros v Hv. apply in_or_app. auto.
Qed.

Lemma recordVisit_touches_one_triple_witness :
  (forall site, findSite Example.scenario_store "abc123" = Some site ->
                (1, "/home", desktop) <>
                (id site, normalizePagePath (RT := Example.runtime) (Some "/about"),
                 normalizeDeviceType (Some "mobile") None)) /\
  select_page_stat
    (fst (recordVisit (RT := Example.runtime) Example.scenario_store
            "2024-01-01 12:00:00" "2024-01-01 12:00:00" "abc123"
            (Some "/about") (Some "mobile") None None)) 1 "/home" desktop =
  select_page_stat Example.scenario_store 1 "/home" desktop.
Proof.
  assert (N : forall site, findSite Example.scenario_store "abc123" = Some site ->
                (1, "/home", desktop) <>
                (id site, normalizePagePath (RT := Example.runtime) (Some "/about"),
                 normalizeDeviceType (Some "mobile") None))
    by (intros site _ H; vm_compute in H; discriminate H).
  split; [exact N|].
  exact (proj1 (recordVisit_touches_one_triple (RT := Example.runtime)
                  Example.scenario_store "2024-01-01 12:00:00" "2024-01-01 12:00:00"
                  "abc123" (Some "/about") (Some "mobile") None None
                  1 "/home" desktop N)).
Defined.

Lemma findSite_same_sites (st st' : Store) (u : string) :
  sites_table st' = sites_table st -> findSite st' u = findSite st u.
Proof. unfold findSite. intros ->. reflexivity. Qed.

(** X3.  Visits recorded without an event identifier are never taken for
    duplicates: after n such calls with the same arguments on a registered
    site, the counter of the triple has grown by n and n visit rows have
    been added.  [times] gives the clock readings of the calls. *)
Theorem recordVisit_n_times {RT : Runtime} (st : Store) (siteUuid : string)
    (pagePath deviceType userAgent : option string)
    (times : list (string * string)) (site : SiteRecord) :
  findSite st siteUuid = Some site ->
  let st' :=
    fold_left
      (fun s t => fst (recordVisit s (fst t) (snd t) siteUuid pagePath deviceType
                         userAgent None))
      times st in
  fst (current_stat st' (id site) (normalizePagePath pagePath)
         (normalizeDeviceType deviceType userAgent)) =
    fst (current_stat st (id site) (normalizePagePath pagePath)
           (normalizeDeviceType deviceType userAgent))
    + Z.of_nat (List.length times) /\
  List.length (visits_table st') =
    (List.length (visits_table st) + List.length times)%nat.
Proof.
  revert st. induction times as [|[t1 t2] times IH]; intros st F;
    cbn [fold_left List.length fst snd].
  - split; [lia | lia].
  - assert (N : forall x, JS.orNull (JS.trim (JS.orEmpty None)) = Some x ->
                          event_stored st x = false)
      by (intros x H; discriminate H).
    pose proof (recordVisit_writes st t1 t2 siteUuid pagePath deviceType userAgent
                  None site F N) as W.
    cbv zeta in W. rewrite W. cbn [fst].
    match goal with
    | |- context [fold_left _ times ?s] => set (st1 := s)
    end.
    assert (F1 : findSite st1 siteUuid = Some site)
      by (rewrite (findSite_same_sites st st1 siteUuid eq_refl); exact F).
    destruct (IH st1 F1) as [C L]. rewrite C, L.
    destruct (upsert_rows_returned (id site) (normalizePagePath pagePath)
                (normalizeDeviceType deviceType userAgent) t2 (page_stats_table st))
      as [_ [_ Cn]].
    cbv zeta in Cn. split.
    + unfold st1, current_stat at 1, select_page_stat.
      cbn [page_stats_table]. rewrite upsert_rows_find. cbn [fst]. rewrite Cn.
      unfold current_stat, select_page_stat.
      destruct (find _ (page_stats_table st)); cbn [fst]; lia.
    + unfold st1. cbn [visits_table]. rewrite length_app.
      cbn [List.length]. lia.
Qed.

Lemma recordVisit_n_times_witness :
  findSite Example.scenario_store "abc123" = Some Example.scenario_site /\
  fst (current_stat
         (fold_left
            (fun s t => fst (recordVisit (RT := Example.runtime) s (fst t) (snd t)
                               "abc123" (Some "/home") (Some "desktop") None None))
            [("2024-01-02 08:00:00", "2024-01-02 08:00:00");
             ("2024-01-02 08:00:01", "2024-01-02 08:00:01")]
            Example.scenario_store)
         1 "/home" desktop) = 3 + 2.
Proof.
  assert (F : findSite Example.scenario_store "abc123" = Some Example.scenario_site)
    by (vm_compute; reflexivity).
  split; [exact F|].
  exact (proj1 (recordVisit_n_times (RT := Example.runtime) Example.scenario_store
                  "abc123" (Some "/home") (Some "desktop") None
                  [("2024-01-02 08:00:00", "2024-01-02 08:00:00");
                   ("2024-01-02 08:00:01", "2024-01-02 08:00:01")]
                  Example.scenario_site F)).
Defined.

(** ** Registering, updating and deleting sites *)

Lemma find_all_false {A : Type} (f : A -> bool) (l : list A) :
  (forall x, In x l -> f x = false) -> find f l = None.
Proof.
  induction l as [|x l IH]; simpl; intros H; trivial.
  rewrite (H x (or_introl eq_refl)). apply IH. intros y Hy. apply H. right; exact Hy.
Qed.

Lemma filter_all_false {A : Type} (f : A -> bool) (l : list A) :
  (forall x, In x l -> f x = false) -> filter f l = [].
Proof.
  induction l as [|x l IH]; simpl; intros H; trivial.
  rewrite (H x (or_introl eq_refl)). apply IH. intros y Hy. apply H. right; exact Hy.
Qed.

Lemma NoDup_map_injective {A B : Type} (f : A -> B) (l : list A) (x y : A) :
  NoDup (map f l) -> In x l -> In y l -> f x = f y -> x = y.
Proof.
  induction l as [|a l IH]; simpl; intros N Hx Hy E; [contradiction|].
  inversion N as [|? ? Ha Hl]; subst.
  destruct Hx as [->|Hx]; destruct Hy as [->|Hy]; trivial.
  - exfalso. apply Ha. rewrite E. apply in_map. exact Hy.
  - exfalso. apply Ha. rewrite <- E. apply in_map. exact Hx.
  - apply IH; assumption.
Qed.

Lemma findSite_update_sites_other (u u' : string) (f : SiteRecord -> SiteRecord)
    (st : Store) :
  u' <> u ->
  (forall s, site_uuid (f s) = site_uuid s) ->
  findSite (update_sites u f st) u' = findSite st u'.
Proof.
  intros N Hf. unfold findSite, update_sites; simpl.
  induction (sites_table st) as [|s l IH]; simpl; trivial.
  destruct (site_uuid s =? u) eqn:E.
  - rewrite Hf. apply String.eqb_eq in E.
    destruct (site_uuid s =? u') eqn:E'; [|exact IH].
    apply String.eqb_eq in E'. congruence.
  - rewrite IH. reflexivity.
Qed.

Lemma findSite_appended (st : Store) (l : list SiteRecord) (row : SiteRecord)
    (u' : string) :
  sites_table st = (l ++ [row])%list ->
  site_uuid row <> u' ->
  findSite st u' = find (fun s => site_uuid s =? u') l.
Proof.
  intros E N. unfold findSite. rewrite E.
  destruct (find (fun s => site_uuid s =? u') l) as [x|] eqn:F.
  - apply find_app_Some. exact F.
  - rewrite (find_app_None _ _ _ F). simpl.
    apply String.eqb_neq in N. rewrite N. reflexivity.
Qed.

(** X4.  In a reachable store, [registerSite] called with an identifier
    that is not registered creates the site with the given name, owner and
    token, under an internal id larger than every id in the table; the
    other sites are resolved as before and no visit or counter is
    touched. *)
Theorem registerSite_creates {RT : Runtime} (st : Store)
    (now secretToken siteUuid : string) (name : option string) (ownerNpub : string) :
  reachable st ->
  findSite st siteUuid = None ->
  exists st' created,
    registerSite st now secretToken siteUuid name ownerNpub
      = (st', Ok (Some created)) /\
    created =
      {| id := sites_seq st + 1; site_uuid := siteUuid; name := name;
         owner_npub := Some ownerNpub; owner_signature := None;
         secret_token := secretToken; created_at := now; updated_at := now |} /\
    sites_table st' = (sites_table st ++ [created])%list /\
    findSite st' siteUuid = Some created /\
    (forall s, In s (sites_table st) -> id s < id created) /\
    (forall u, u <> siteUuid -> findSite st' u = findSite st u) /\
    page_stats_table st' = page_stats_table st /\
    visits_table st' = visits_table st.
Proof.
  intros R F. destruct (reachable_sites_ok st R) as [_ [_ [_ B]]].
  unfold registerSite. rewrite F.
  do 2 eexists. split.
  - f_equal. f_equal. unfold findSite; simpl.
    rewrite (find_app_None _ _ _ F). simpl. rewrite String.eqb_refl. reflexivity.
  - split; [reflexivity|]. split; [reflexivity|].
    split; [unfold findSite; simpl; rewrite (find_app_None _ _ _ F); simpl;
            rewrite String.eqb_refl; reflexivity|].
    split; [intros s Hs; specialize (B s Hs); simpl; lia|].
    split; [|split; reflexivity].
    intros u N. erewrite findSite_appended; [reflexivity | reflexivity |].
    simpl. congruence.
Qed.

Lemma registerSite_creates_witness :
  reachable (RT := Example.runtime) Example.scenario_store /\
  findSite Example.scenario_store "site-0009" = None /\
  exists st' created,
    registerSite Example.scenario_store "2024-01-05 09:00:00" "ab12" "site-0009"
      (Some "Docs") "ownerY" = (st', Ok (Some created)) /\
    id created = 2 /\
    findSite st' "site-0009" = Some created /\
    findSite st' "abc123" = Some Example.scenario_site.
Proof.
  assert (R : reachable (RT := Example.runtime) Example.scenario_store)
    by (apply reachable_run_all; constructor).
  assert (F : findSite Example.scenario_store "site-0009" = None)
    by (vm_compute; reflexivity).
  split; [exact R|]. split; [exact F|].
  destruct (registerSite_creates (RT := Example.runtime) Example.scenario_store
              "2024-01-05 09:00:00" "ab12" "site-0009" (Some "Docs") "ownerY" R F)
    as [st' [created [E [C [_ [Fc [_ [Fo _]]]]]]]].
  exists st', created. split; [exact E|].
  split; [rewrite C; reflexivity|]. split; [exact Fc|].
  rewrite Fo by discriminate. vm_compute. reflexivity.
Defined.

(** The store and the record of a [registerSite] call that creates a site. *)
Lemma registerSite_new (st : Store) (now tok u : string) (n : option string)
    (o : string) :
  findSite st u = None ->
  let created :=
    {| id := sites_seq st + 1; site_uuid := u; name := n;
       owner_npub := Some o; owner_signature := None;
       secret_token := tok; created_at := now; updated_at := now |} in
  let st' :=
    {| sites_table := sites_table st ++ [created];
       page_stats_table := page_stats_table st;
       visits_table := visits_table st;
       sites_seq := sites_seq st + 1 |} in
  registerSite st now tok u n o = (st', Ok (Some created)) /\
  findSite st' u = Some created.
Proof.
  intros F created st'.
  assert (Fc : findSite st' u = Some created).
  { unfold findSite, st'. cbn [sites_table].
    rewrite (find_app_None _ _ _ F). cbn [find created site_uuid].
    rewrite String.eqb_refl. reflexivity. }
  split; [|exact Fc].
  unfold registerSite. rewrite F. fold created. fold st'. rewrite Fc. reflexivity.
Qed.

(** X5.  Internal ids are never handed out twice and rows never outlive
    their site, so a site created in a reachable store starts without
    history: its creator gets statistics with no visit, no page and no
    daily total, also when the same identifier was registered, visited and
    deleted before. *)
Theorem new_site_has_empty_stats {RT : Runtime} (st : Store)
    (now secretToken siteUuid : string) (name : option string) (ownerNpub : string) :
  reachable st ->
  findSite st siteUuid = None ->
  getSiteStats (fst (registerSite st now secretToken siteUuid name ownerNpub))
    siteUuid ownerNpub =
  Ok {| site := {| uuid := siteUuid; ss_name := name; ownerNpub := Some ownerNpub |};
        totals := {| visits := 0; pages := 0 |};
        st_pages := [];
        visitsByDay := [];
        pageVisitsByDay := [] |}.
Proof.
  intros R F.
  destruct (reachable_sites_ok st R) as [_ [_ [_ B]]].
  destruct (reachable_references_ok st R) as [P V].
  destruct (registerSite_new st now secretToken siteUuid name ownerNpub F) as [E Fc].
  cbv zeta in E, Fc. rewrite E. cbn [fst]. unfold getSiteStats. rewrite Fc.
  cbn [owner_npub id].
  assert (G : opt_truthy (Some ownerNpub) && strict_neq (Some ownerNpub) ownerNpub
              = false).
  { simpl. rewrite String.eqb_refl. apply andb_false_r. }
  rewrite G.
  unfold site_page_stats, site_visits. cbn [page_stats_table visits_table].
  rewrite (filter_all_false _ (page_stats_table st)).
  - rewrite (filter_all_false _ (visits_table st)); [reflexivity|].
    intros v Hv. destruct (V v Hv) as [s [Hs Es]]. specialize (B s Hs).
    apply Z.eqb_neq. lia.
  - intros r Hr. destruct (P r Hr) as [s [Hs Es]]. specialize (B s Hs).
    apply Z.eqb_neq. lia.
Qed.

Lemma new_site_has_empty_stats_witness :
  reachable (RT := Example.runtime) Example.scenario_store /\
  findSite Example.scenario_store "site-0009" = None /\
  getSiteStats (RT := Example.runtime)
    (fst (registerSite Example.scenario_store "2024-01-05 09:00:00" "ab12"
            "site-0009" None "ownerY"))
    "site-0009" "ownerY" =
  Ok {| site := {| uuid := "site-0009"; ss_name := None; ownerNpub := Some "ownerY" |};
        totals := {| visits := 0; pages := 0 |};
        st_pages := [];
        visitsByDay := [];
        pageVisitsByDay := [] |}.
Proof.
  assert (R : reachable (RT := Example.runtime) Example.scenario_store)
    by (apply reachable_run_all; constructor).
  assert (F : findSite Example.scenario_store "site-0009" = None)
    by (vm_compute; reflexivity).
  split; [exact R|]. split; [exact F|].
  exact (new_site_has_empty_stats (RT := Example.runtime) Example.scenario_store
           "2024-01-05 09:00:00" "ab12" "site-0009" None "ownerY" R F).
Defined.

Lemma COALESCE_idem {A : Type} (x y : option A) :
  COALESCE x (COALESCE x y) = COALESCE x y.
Proof. destruct x; reflexivity. Qed.

(** What [registerSite] returns when it returns a record. *)
Lemma registerSite_returned (st st1 : Store) (now tok u : string)
    (n : option string) (o : string) (s1 : SiteRecord) :
  registerSite st now tok u n o = (st1, Ok (Some s1)) ->
  findSite st1 u = Some s1 /\
  owner_npub s1 = Some o /\
  COALESCE n (name s1) = name s1.
Proof.
  unfold registerSite. destruct (findSite st u) as [existing|] eqn:F.
  - destruct (JS.truthy o && opt_truthy (owner_npub existing)
              && strict_neq (owner_npub existing) o); [discriminate|].
    intros H. inversion H as [[E1 E2]]. split; [reflexivity|].
    rewrite findSite_update_sites in E2 by reflexivity. rewrite F in E2.
    simpl in E2. inversion E2; subst s1. simpl.
    split; [reflexivity | apply COALESCE_idem].
  - intros H. inversion H as [[E1 E2]]. split; [reflexivity|].
    unfold findSite in E2; simpl in E2.
    rewrite (find_app_None _ _ _ F) in E2. simpl in E2.
    rewrite String.eqb_refl in E2. inversion E2; subst s1. simpl.
    split; [reflexivity | destruct n; reflexivity].
Qed.

(** X6.  Registration is repeatable: when [registerSite] has returned a
    site record, the same call made again is not refused and returns the
    same record with only [updated_at] renewed; no site is added. *)
Theorem registerSite_twice (st st1 : Store) (now1 token1 now2 token2 siteUuid : string)
    (siteName : option string) (ownerNpub : string) (s1 : SiteRecord) :
  registerSite st now1 token1 siteUuid siteName ownerNpub = (st1, Ok (Some s1)) ->
  exists st2,
    registerSite st1 now2 token2 siteUuid siteName ownerNpub =
      (st2, Ok (Some {| id := id s1; site_uuid := site_uuid s1;
                        name := name s1;
                        owner_npub := owner_npub s1;
                        owner_signature := owner_signature s1;
                        secret_token := secret_token s1;
                        created_at := created_at s1;
                        updated_at := now2 |})) /\
    List.length (sites_table st2) = List.length (sites_table st1) /\
    sites_seq st2 = sites_seq st1.
Proof.
  intros H.
  destruct (registerSite_returned st st1 now1 token1 siteUuid siteName ownerNpub s1 H)
    as [F [O C]].
  unfold registerSite. rewrite F, O. simpl.
  rewrite String.eqb_refl. simpl. rewrite !andb_false_r.
  eexists. split.
  - f_equal. f_equal. rewrite findSite_update_sites by reflexivity.
    rewrite F. simpl. unfold register_set. rewrite C, O. reflexivity.
  - unfold update_sites; simpl. rewrite length_map. split; reflexivity.
Qed.

Lemma registerSite_twice_witness :
  registerSite Example.scenario_store "2024-01-05 09:00:00" "ab12" "abc123"
    (Some "Shop") "ownerX" =
    (update_sites "abc123"
       (register_set (Some "Shop") (Some "ownerX") "2024-01-05 09:00:00")
       Example.scenario_store,
     Ok (Some (register_set (Some "Shop") (Some "ownerX") "2024-01-05 09:00:00"
                 Example.scenario_site))) /\
  exists st2 s2,
    registerSite
      (update_sites "abc123"
         (register_set (Some "Shop") (Some "ownerX") "2024-01-05 09:00:00")
         Example.scenario_store)
      "2024-01-06 09:00:00" "cd34" "abc123" (Some "Shop") "ownerX" =
      (st2, Ok (Some s2)) /\
    name s2 = Some "Shop" /\ owner_npub s2 = Some "ownerX" /\
    secret_token s2 = "5f2a" /\ updated_at s2 = "2024-01-06 09:00:00".
Proof.
  assert (H : registerSite Example.scenario_store "2024-01-05 09:00:00" "ab12"
                "abc123" (Some "Shop") "ownerX" =
              (update_sites "abc123"
                 (register_set (Some "Shop") (Some "ownerX") "2024-01-05 09:00:00")
                 Example.scenario_store,
               Ok (Some (register_set (Some "Shop") (Some "ownerX")
                           "2024-01-05 09:00:00" Example.scenario_site))))
    by (vm_compute; reflexivity).
  split; [exact H|].
  destruct (registerSite_twice _ _ "2024-01-05 09:00:00" "ab12"
              "2024-01-06 09:00:00" "cd34" "abc123" (Some "Shop") "ownerX" _ H)
    as [st2 [E _]].
  eexists st2, _. split; [exact E|]. repeat split.
Defined.

(** X7.  [registerSite] on a registered site, unless an owner is stored and
    a different non-empty one is supplied, updates the site in place: id,
    identifier, secret token and creation time stay; the name is replaced
    only when one is given; the supplied owner is stored, so that a site
    without owner is claimed by whoever registers it with a non-empty
    owner; the other sites, the visits and the counters stay as they
    are. *)
Theorem registerSite_updates_existing (st : Store) (now secretToken siteUuid : string)
    (siteName : option string) (ownerNpub : string) (site : SiteRecord) :
  findSite st siteUuid = Some site ->
  JS.truthy ownerNpub && opt_truthy (owner_npub site)
    && strict_neq (owner_npub site) ownerNpub = false ->
  exists st' site',
    registerSite st now secretToken siteUuid siteName ownerNpub
      = (st', Ok (Some site')) /\
    findSite st' siteUuid = Some site' /\
    id site' = id site /\ site_uuid site' = site_uuid site /\
    secret_token site' = secret_token site /\
    created_at site' = created_at site /\
    updated_at site' = now /\
    owner_npub site' = Some ownerNpub /\
    name site' = match siteName with
                 | Some n => Some n
                 | None => name site
                 end /\
    (forall u, u <> siteUuid -> findSite st' u = findSite st u) /\
    page_stats_table st' = page_stats_table st /\
    visits_table st' = visits_table st /\
    sites_seq st' = sites_seq st.
Proof.
  intros F G. unfold registerSite. rewrite F, G. cbv zeta.
  rewrite findSite_update_sites by reflexivity. rewrite F. cbn [option_map].
  do 2 eexists. split; [reflexivity|].
  split; [rewrite findSite_update_sites by reflexivity; rewrite F; reflexivity|].
  cbn [register_set id site_uuid secret_token created_at updated_at owner_npub name
       COALESCE].
  repeat (split; [reflexivity|]).
  split; [destruct siteName; reflexivity|].
  split; [|repeat split].
  intros u N. apply findSite_update_sites_other; [exact N | reflexivity].
Qed.

Lemma registerSite_updates_existing_witness :
  findSite Example.ownerless_store "site-0002" = Some Example.ownerless_site /\
  JS.truthy "mallory" && opt_truthy (owner_npub Example.ownerless_site)
    && strict_neq (owner_npub Example.ownerless_site) "mallory" = false /\
  exists st' site',
    registerSite Example.ownerless_store "2024-01-05 09:00:00" "ab12" "site-0002"
      None "mallory" = (st', Ok (Some site')) /\
    owner_npub site' = Some "mallory" /\
    name site' = Some "Blog" /\
    secret_token site' = "a0b1".
Proof.
  assert (F : findSite Example.ownerless_store "site-0002" =
              Some Example.ownerless_site) by (vm_compute; reflexivity).
  assert (G : JS.truthy "mallory" && opt_truthy (owner_npub Example.ownerless_site)
              && strict_neq (owner_npub Example.ownerless_site) "mallory" = false)
    by reflexivity.
  split; [exact F|]. split; [exact G|].
  destruct (registerSite_updates_existing Example.ownerless_store
              "2024-01-05 09:00:00" "ab12" "site-0002" None "mallory"
              Example.ownerless_site F G)
    as [st' [site' [E [_ [_ [_ [T [_ [_ [O [N _]]]]]]]]]]].
  exists st', site'. split; [exact E|]. split; [exact O|].
  split; [rewrite N; reflexivity | rewrite T; reflexivity].
Defined.

(** X8.  [updateSiteByOwner] called by the owner: without the key [name]
    in its parameters it writes nothing and returns the site as stored;
    with the key it stores the given name, [null] included, and renews
    [updated_at], leaving the owner, the other columns, the other sites,
    the visits and the counters as they are. *)
Theorem updateSiteByOwner_sets_name {RT : Runtime} (st : Store)
    (now siteUuid callerPubkey : string) (site : SiteRecord) :
  findSite st siteUuid = Some site ->
  same_canonical_key (owner_npub site) callerPubkey ->
  updateSiteByOwner st now siteUuid callerPubkey None = (st, Ok (Some site)) /\
  forall newName,
    exists st' site',
      updateSiteByOwner st now siteUuid callerPubkey (Some newName)
        = (st', Ok (Some site')) /\
      findSite st' siteUuid = Some site' /\
      name site' = newName /\ updated_at site' = now /\
      id site' = id site /\ site_uuid site' = site_uuid site /\
      owner_npub site' = owner_npub site /\
      secret_token site' = secret_token site /\
      created_at site' = created_at site /\
      (forall u, u <> siteUuid -> findSite st' u = findSite st u) /\
      page_stats_table st' = page_stats_table st /\
      visits_table st' = visits_table st.
Proof.
  intros F S. apply owner_guard_passes in S.
  unfold updateSiteByOwner. rewrite F, S. split; [reflexivity|].
  intros newName. cbv zeta.
  rewrite findSite_update_sites by reflexivity. rewrite F. cbn [option_map].
  do 2 eexists. split; [reflexivity|].
  split; [rewrite findSite_update_sites by reflexivity; rewrite F; reflexivity|].
  cbn [owner_set id site_uuid secret_token created_at updated_at owner_npub name].
  repeat (split; [reflexivity|]).
  split; [|split; reflexivity].
  intros u N. apply findSite_update_sites_other; [exact N | reflexivity].
Qed.

Lemma updateSiteByOwner_sets_name_witness :
  findSite Example.encodings_store "site-0003" = Some Example.npub_site /\
  same_canonical_key (RT := Example.runtime) (owner_npub Example.npub_site)
    Example.HEX /\
  updateSiteByOwner (RT := Example.runtime) Example.encodings_store
    "2024-01-05 09:00:00" "site-0003" Example.HEX None =
    (Example.encodings_store, Ok (Some Example.npub_site)) /\
  exists st' site',
    updateSiteByOwner (RT := Example.runtime) Example.encodings_store
      "2024-01-05 09:00:00" "site-0003" Example.HEX (Some (Some "Shop"))
      = (st', Ok (Some site')) /\
    name site' = Some "Shop" /\ owner_npub site' = Some Example.npub.
Proof.
  assert (F : findSite Example.encodings_store "site-0003" = Some Example.npub_site)
    by (vm_compute; reflexivity).
  assert (S : same_canonical_key (RT := Example.runtime)
                (owner_npub Example.npub_site) Example.HEX).
  { exists Example.hex. repeat split; vm_compute; reflexivity. }
  split; [exact F|]. split; [exact S|].
  destruct (updateSiteByOwner_sets_name (RT := Example.runtime)
              Example.encodings_store "2024-01-05 09:00:00" "site-0003"
              Example.HEX Example.npub_site F S) as [U0 U1].
  split; [exact U0|].
  destruct (U1 (Some "Shop")) as [st' [site' [E [_ [N [_ [_ [_ [O _]]]]]]]]].
  exists st', site'. split; [exact E|]. split; [exact N|].
  rewrite O. reflexivity.
Defined.

(** X9.  [deleteSiteByOwner] called by the owner on a reachable store
    removes the site together with all its visits and counters and
    answers [deleted: true]; afterwards the identifier is not found, and
    every other site is found as before with its visits and counters
    untouched. *)
Theorem deleteSiteByOwner_cascades {RT : Runtime} (st : Store)
    (siteUuid callerPubkey : string) (site : SiteRecord) :
  reachable st ->
  findSite st siteUuid = Some site ->
  same_canonical_key (owner_npub site) callerPubkey ->
  exists st',
    deleteSiteByOwner st siteUuid callerPubkey =
      (st', Ok {| DeleteResult.siteUuid := siteUuid; DeleteResult.deleted := true |}) /\
    findSite st' siteUuid = None /\
    site_page_stats st' (id site) = [] /\
    site_visits st' (id site) = [] /\
    forall u other,
      u <> siteUuid -> findSite st u = Some other ->
      findSite st' u = Some other /\
      site_page_stats st' (id other) = site_page_stats st (id other) /\
      site_visits st' (id other) = site_visits st (id other).
Proof.
  intros R F S. apply owner_guard_passes in S.
  destruct (reachable_sites_ok st R) as [U [I _]].
  pose proof (findSite_In st siteUuid site F) as Hin.
  unfold deleteSiteByOwner. rewrite F, S. unfold delete_site. cbn [fst snd].
  eexists. split.
  - f_equal. f_equal. f_equal.
    destruct (filter (fun s => (id s =? id site)%Z) (sites_table st)) as [|x l] eqn:E.
    + exfalso. assert (H : In site []) by
        (rewrite <- E; apply filter_In; split; [exact Hin | apply Z.eqb_refl]).
      exact H.
    + reflexivity.
  - split; [|split; [|split]].
    + unfold findSite; simpl. apply find_all_false.
      intros s Hs. apply filter_In in Hs. destruct Hs as [Hs N].
      destruct (site_uuid s =? siteUuid) eqn:E; trivial.
      apply String.eqb_eq in E.
      assert (s = site).
      { apply (findSite_Some_iff st siteUuid U) in F.
        apply (NoDup_map_injective site_uuid (sites_table st)); trivial.
        destruct F as [_ F]. congruence. }
      subst s. rewrite Z.eqb_refl in N. discriminate N.
    + unfold site_page_stats; simpl. rewrite filter_filter_and.
      apply filter_all_false. intros r _. destruct (site_id r =? id site)%Z; reflexivity.
    + unfold site_visits; simpl. rewrite filter_filter_and.
      apply filter_all_false. intros v _. destruct (v_site_id v =? id site)%Z; reflexivity.
    + intros u other N Fo.
      pose proof (findSite_In st u other Fo) as Ho.
      pose proof (findSite_uuid st u other Fo) as Uo.
      pose proof (findSite_uuid st siteUuid site F) as Us.
      assert (D : (id other =? id site)%Z = false).
      { apply Z.eqb_neq. intros E.
        assert (other = site)
          by (apply (NoDup_map_injective id (sites_table st)); trivial).
        congruence. }
      split; [|split].
      * match goal with |- findSite ?s u = _ => set (st' := s) end.
        apply (findSite_Some_iff st' u).
        -- unfold st'; simpl. apply NoDup_map_filter. exact U.
        -- split; [|exact Uo]. unfold st'; simpl. apply filter_In.
           split; [exact Ho | rewrite D; reflexivity].
      * unfold site_page_stats; simpl. rewrite filter_filter_and.
        apply filter_ext. intros r.
        destruct (site_id r =? id other)%Z eqn:E; [|apply andb_false_r].
        apply Z.eqb_eq in E. rewrite E, D. reflexivity.
      * unfold site_visits; simpl. rewrite filter_filter_and.
        apply filter_ext. intros v.
        destruct (v_site_id v =? id other)%Z eqn:E; [|apply andb_false_r].
        apply Z.eqb_eq in E. rewrite E, D. reflexivity.
Qed.

Lemma deleteSiteByOwner_cascades_witness :
  reachable (RT := Example.runtime) Example.encodings_store /\
  findSite Example.encodings_store "site-0003" = Some Example.npub_site /\
  same_canonical_key (RT := Example.runtime) (owner_npub Example.npub_site)
    Example.hex /\
  exists st',
    deleteSiteByOwner (RT := Example.runtime) Example.encodings_store "site-0003"
      Example.hex =
      (st', Ok {| DeleteResult.siteUuid := "site-0003";
                  DeleteResult.deleted := true |}) /\
    findSite st' "site-0003" = None /\
    findSite st' "site-0004" = Some Example.HEX_site.
Proof.
  assert (R : reachable (RT := Example.runtime) Example.encodings_store)
    by (apply reachable_run_all; constructor).
  assert (F : findSite Example.encodings_store "site-0003" = Some Example.npub_site)
    by (vm_compute; reflexivity).
  assert (S : same_canonical_key (RT := Example.runtime)
                (owner_npub Example.npub_site) Example.hex).
  { exists Example.hex. repeat split; vm_compute; reflexivity. }
  split; [exact R|]. split; [exact F|]. split; [exact S|].
  destruct (deleteSiteByOwner_cascades (RT := Example.runtime)
              Example.encodings_store "site-0003" Example.hex Example.npub_site R F S)
    as [st' [E [N [_ [_ O]]]]].
  exists st'. split; [exact E|]. split; [exact N|].
  apply (O "site-0004" Example.HEX_site); [discriminate | vm_compute; reflexivity].
Defined.

(** ** The schema constraints, as seen by a user of the store *)

Lemma normalizePagePath_truthy {RT : Runtime} (path : option string) :
  JS.truthy (normalizePagePath path) = true.
Proof.
  unfold normalizePagePath. destruct path as [p|]; [|reflexivity].
  destruct (JS.truthy p) eqn:T; simpl; [|reflexivity].
  destruct (if JS.startsWith p "http" then URL_pathname p None
            else URL_pathname p (Some "http://placeholder")) as [pathname|].
  - destruct (JS.truthy pathname) eqn:Tp; [exact Tp | reflexivity].
  - destruct (JS.startsWith p "/"); [exact T | reflexivity].
Qed.

Lemma upsert_rows_ok (sid : Z) (p : string) (d : DeviceType) (now : string)
    (rows : list PageStatRow) :
  JS.truthy p = true ->
  (forall r, In r rows -> 1 <= visit_count r /\ JS.truthy (page_path r) = true) ->
  forall r, In r (fst (upsert_rows sid p d now rows)) ->
            1 <= visit_count r /\ JS.truthy (page_path r) = true.
Proof.
  intros T. induction rows as [|x rows IH]; simpl; intros H r Hr.
  - destruct Hr as [<-|[]]. simpl. split; [lia | exact T].
  - destruct (same_triple sid p d x) eqn:S.
    + simpl in Hr. destruct Hr as [<-|Hr]; [|apply H; right; exact Hr].
      simpl. destruct (H x (or_introl eq_refl)) as [C Tp]. split; [lia | exact Tp].
    + destruct (upsert_rows sid p d now rows) as [rows' ret]; simpl in *.
      destruct Hr as [<-|Hr]; [apply H; left; reflexivity|].
      apply IH; [|exact Hr]. intros y Hy. apply H. right; exact Hy.
Qed.

Lemma rows_ok_run {RT : Runtime} (st : Store) (c : Call) :
  rows_ok st -> rows_ok (run st c).
Proof.
  intros H.
  assert (K : forall st', page_stats_table st' = page_stats_table st ->
                          visits_table st' = visits_table st -> rows_ok st').
  { intros st' E1 E2. unfold rows_ok. rewrite E1, E2. exact H. }
  destruct c as [now tok u n o | t1 t2 u p d ua ev | now u cp n | u cp | ]; simpl.
  - apply K; apply registerSite_tables.
  - destruct (recordVisit_effect st t1 t2 u p d ua ev) as [E|[site [F [_ E]]]];
      rewrite E; trivial.
    destruct H as [P V]. unfold rows_ok; simpl. split.
    + apply upsert_rows_ok; [apply normalizePagePath_truthy | exact P].
    + intros v Hv. apply in_app_or in Hv. destruct Hv as [Hv|[<-|[]]].
      * apply V; exact Hv.
      * simpl. apply normalizePagePath_truthy.
  - apply K; apply updateSiteByOwner_tables.
  - destruct (deleteSiteByOwner_store st u cp) as [E|[sid E]]; rewrite E; trivial.
    destruct H as [P V]. unfold rows_ok; simpl. split.
    + intros r Hr. apply filter_In in Hr. apply P. tauto.
    + intros v Hv. apply filter_In in Hv. apply V. tauto.
  - unfold rows_ok; simpl. split; intros x [].
Qed.

Lemma reachable_rows_ok {RT : Runtime} (st : Store) : reachable st -> rows_ok st.
Proof.
  induction 1 as [|st c R IH].
  - unfold rows_ok; simpl. split; intros x [].
  - apply rows_ok_run; exact IH.
Qed.

(** X10.  In every reachable store a public identifier names one site row
    and an internal id names one site row; the ids are positive and not
    above the AUTOINCREMENT counter; and [findSite] returns a row exactly
    under that row's identifier. *)
Theorem site_keys_are_unique {RT : Runtime} (st : Store) :
  reachable st ->
  (forall u s, findSite st u = Some s <-> In s (sites_table st) /\ site_uuid s = u) /\
  (forall s1 s2, In s1 (sites_table st) -> In s2 (sites_table st) ->
                 site_uuid s1 = site_uuid s2 \/ id s1 = id s2 -> s1 = s2) /\
  (forall s, In s (sites_table st) -> 0 < id s <= sites_seq st).
Proof.
  intros R. destruct (reachable_sites_ok st R) as [U [I [_ B]]].
  split; [|split].
  - intros u s. apply findSite_Some_iff. exact U.
  - intros s1 s2 H1 H2 [E|E].
    + apply (NoDup_map_injective site_uuid (sites_table st)); trivial.
    + apply (NoDup_map_injective id (sites_table st)); trivial.
  - exact B.
Qed.

Lemma site_keys_are_unique_witness :
  reachable (RT := Example.runtime) Example.encodings_store /\
  (forall u s, findSite Example.encodings_store u = Some s <->
               In s (sites_table Example.encodings_store) /\ site_uuid s = u) /\
  (forall s, In s (sites_table Example.encodings_store) ->
             0 < id s <= sites_seq Example.encodings_store).
Proof.
  assert (R : reachable (RT := Example.runtime) Example.encodings_store)
    by (apply reachable_run_all; constructor).
  split; [exact R|].
  destruct (site_keys_are_unique (RT := Example.runtime) Example.encodings_store R)
    as [A [_ B]].
  split; [exact A | exact B].
Defined.

(** X11.  In every reachable store each counter row and each visit row
    belongs to a site of the table: the foreign keys hold, so that
    [deleteSiteByOwner] and the writes of [recordVisit] leave no orphan
    row. *)
Theorem rows_belong_to_sites {RT : Runtime} (st : Store) :
  reachable st ->
  (forall r, In r (page_stats_table st) ->
             exists s, In s (sites_table st) /\ id s = site_id r) /\
  (forall v, In v (visits_table st) ->
             exists s, In s (sites_table st) /\ id s = v_site_id v).
Proof. intros R. exact (reachable_references_ok st R). Qed.

Lemma rows_belong_to_sites_witness :
  reachable (RT := Example.runtime) Example.scenario_store /\
  (forall v, In v (visits_table Example.scenario_store) ->
             exists s, In s (sites_table Example.scenario_store) /\ id s = v_site_id v).
Proof.
  assert (R : reachable (RT := Example.runtime) Example.scenario_store)
    by (apply reachable_run_all; constructor).
  split; [exact R|].
  exact (proj2 (rows_belong_to_sites (RT := Example.runtime)
                  Example.scenario_store R)).
Defined.

Lemma event_id_owner (l : list VisitRow) (v v' : VisitRow) (e : string) :
  NoDup (flat_map (fun x => match nostr_event_id x with
                            | Some i => [i]
                            | None => []
                            end) l) ->
  In v l -> In v' l ->
  nostr_event_id v = Some e -> nostr_event_id v' = Some e -> v = v'.
Proof.
  induction l as [|x l IH]; simpl; intros N Hv Hv' E E'; [contradiction|].
  assert (M : forall y, In y l -> nostr_event_id y = Some e ->
                        In e (flat_map (fun x => match nostr_event_id x with
                                                 | Some i => [i]
                                                 | None => []
                                                 end) l)).
  { intros y Hy Ey. apply in_flat_map. exists y. split; trivial.
    rewrite Ey. left; reflexivity. }
  destruct Hv as [->|Hv]; destruct Hv' as [->|Hv']; trivial.
  - rewrite E in N. simpl in N. inversion N as [|? ? Hn _]; subst.
    exfalso. apply Hn. exact (M v' Hv' E').
  - rewrite E' in N. simpl in N. inversion N as [|? ? Hn _]; subst.
    exfalso. apply Hn. exact (M v Hv E).
  - apply IH; trivial. exact (NoDup_app_remove_l _ _ N).
Qed.

(** X12.  In every reachable store an event identifier is stored with at
    most one visit, over all sites, and a stored identifier is never the
    empty string: a blank identifier is stored as NULL. *)
Theorem event_ids_are_unique {RT : Runtime} (st : Store) :
  reachable st ->
  (forall v v' e, In v (visits_table st) -> In v' (visits_table st) ->
                  nostr_event_id v = Some e -> nostr_event_id v' = Some e ->
                  v = v') /\
  NoDup (event_ids st) /\
  (forall v, In v (visits_table st) -> nostr_event_id v <> Some "").
Proof.
  intros R. destruct (reachable_events_ok st R) as [N T].
  split; [|split].
  - intros v v' e. apply event_id_owner. exact N.
  - exact N.
  - intros v Hv E.
    assert (H : In "" (event_ids st)).
    { unfold event_ids. apply in_flat_map. exists v. split; trivial.
      rewrite E. left; reflexivity. }
    specialize (T "" H). discriminate T.
Qed.

Lemma event_ids_are_unique_witness :
  reachable (RT := Example.runtime) Example.scenario_store /\
  NoDup (event_ids Example.scenario_store) /\
  (forall v, In v (visits_table Example.scenario_store) ->
             nostr_event_id v <> Some "").
Proof.
  assert (R : reachable (RT := Example.runtime) Example.scenario_store)
    by (apply reachable_run_all; constructor).
  split; [exact R|].
  exact (proj2 (event_ids_are_unique (RT := Example.runtime)
                  Example.scenario_store R)).
Defined.

Lemma find_exists {A : Type} (f : A -> bool) (l : list A) (x : A) :
  In x l -> f x = true -> exists y, find f l = Some y.
Proof.
  induction l as [|a l IH]; simpl; intros Hin Hf; [contradiction|].
  destruct (f a) eqn:E; [eexists; reflexivity|].
  destruct Hin as [->|Hin]; [congruence | apply IH; assumption].
Qed.

(** X13.  In every reachable store every stored visit is counted: its
    triple has a counter row, that row counts at least one visit, and
    stored page paths are never empty. *)
Theorem stored_visits_are_counted {RT : Runtime} (st : Store) :
  reachable st ->
  (forall v, In v (visits_table st) ->
             JS.truthy (v_page_path v) = true /\
             exists r,
               select_page_stat st (v_site_id v) (v_page_path v) (v_device_type v)
               = Some r) /\
  (forall r, In r (page_stats_table st) ->
             1 <= visit_count r /\ JS.truthy (page_path r) = true).
Proof.
  intros R. destruct (reachable_rows_ok st R) as [P V].
  pose proof (reachable_consistent st R) as C.
  split; [|exact P].
  intros v Hv. split; [exact (V v Hv)|].
  specialize (C (fun k => Key_eqb k (visit_key v))). cbv beta in C.
  destruct (filter (fun r => Key_eqb (stat_key r) (visit_key v)) (page_stats_table st))
    as [|r l] eqn:E.
  - exfalso. cbn [sum_counts fold_right] in C.
    assert (H : In v (filter (fun x => Key_eqb (visit_key x) (visit_key v))
                        (visits_table st)))
      by (apply filter_In; split; [exact Hv | apply Key_eqb_refl]).
    destruct (filter (fun x => Key_eqb (visit_key x) (visit_key v)) (visits_table st));
      [exact H | cbn [List.length] in C; lia].
  - assert (Hr : In r (filter (fun r => Key_eqb (stat_key r) (visit_key v))
                         (page_stats_table st)))
      by (rewrite E; left; reflexivity).
    apply filter_In in Hr. destruct Hr as [Hr Kr].
    exact (find_exists _ _ r Hr Kr).
Qed.

Lemma stored_visits_are_counted_witness :
  reachable (RT := Example.runtime) Example.scenario_store /\
  (forall r, In r (page_stats_table Example.scenario_store) ->
             1 <= visit_count r /\ JS.truthy (page_path r) = true).
Proof.
  assert (R : reachable (RT := Example.runtime) Example.scenario_store)
    by (apply reachable_run_all; constructor).
  split; [exact R|].
  exact (proj2 (stored_visits_are_counted (RT := Example.runtime)
                  Example.scenario_store R)).
Defined.

(** ** The normalizers *)

Lemma parseDeviceType_name (d : DeviceType) :
  parseDeviceType (DeviceType_string d) = Some d.
Proof. destruct d; reflexivity. Qed.

Lemma parseDeviceType_Some (input : string) (d : DeviceType) :
  parseDeviceType input = Some d -> input = DeviceType_string d.
Proof.
  unfold parseDeviceType. intros H. apply find_some in H. destruct H as [_ H].
  apply String.eqb_eq in H. symmetry. exact H.
Qed.

Lemma toLowerCase_empty (s : string) : JS.toLowerCase s = "" -> s = "".
Proof. destruct s; simpl; [reflexivity | discriminate]. Qed.

(** X14.  [normalizeDeviceType]: a label that is one of the four names, up
    to letter case and surrounding white space, decides the result whatever
    the user agent says; and the result is [other] only for the label
    "other" or for an unrecognized label with a missing or empty user
    agent. *)
Theorem normalizeDeviceType_label_first (deviceType userAgent : option string) :
  (forall d,
      JS.trim (JS.toLowerCase (JS.orEmpty deviceType)) = DeviceType_string d ->
      normalizeDeviceType deviceType userAgent = d) /\
  (normalizeDeviceType deviceType userAgent = other <->
   JS.trim (JS.toLowerCase (JS.orEmpty deviceType)) = "other" \/
   (parseDeviceType (JS.trim (JS.toLowerCase (JS.orEmpty deviceType))) = None /\
    JS.orEmpty userAgent = "")).
Proof.
  assert (L : forall d,
             JS.trim (JS.toLowerCase (JS.orEmpty deviceType)) = DeviceType_string d ->
             normalizeDeviceType deviceType userAgent = d).
  { intros d E. unfold normalizeDeviceType. rewrite E, parseDeviceType_name.
    reflexivity. }
  split; [exact L|]. split.
  - unfold normalizeDeviceType.
    destruct (parseDeviceType (JS.trim (JS.toLowerCase (JS.orEmpty deviceType))))
      as [d|] eqn:P.
    + intros ->. left. exact (parseDeviceType_Some _ _ P).
    + destruct (JS.includes (JS.toLowerCase (JS.orEmpty userAgent)) "mobile");
        [discriminate|].
      destruct (JS.includes (JS.toLowerCase (JS.orEmpty userAgent)) "tablet"
                || JS.includes (JS.toLowerCase (JS.orEmpty userAgent)) "ipad");
        [discriminate|].
      destruct (JS.truthy (JS.toLowerCase (JS.orEmpty userAgent))) eqn:T;
        [discriminate|].
      intros _. right. split; [reflexivity|].
      apply toLowerCase_empty. unfold JS.truthy in T.
      apply negb_false_iff in T. apply String.eqb_eq in T. exact T.
  - intros [E|[P E]].
    + apply (L other). exact E.
    + unfold normalizeDeviceType. rewrite P, E. reflexivity.
Qed.

Lemma lowerChar_hex (c : ascii) :
  JS.isHexDigit c = true -> JS.isHexDigit (JS.lowerChar c) = true.
Proof.
  destruct c as [[] [] [] [] [] [] [] []]; vm_compute; intros H;
    first [reflexivity | discriminate H].
Qed.

Lemma lowerChar_idem (c : ascii) : JS.lowerChar (JS.lowerChar c) = JS.lowerChar c.
Proof. destruct c as [[] [] [] [] [] [] [] []]; vm_compute; reflexivity. Qed.

Lemma toLowerCase_idem (s : string) :
  JS.toLowerCase (JS.toLowerCase s) = JS.toLowerCase s.
Proof. induction s as [|c s IH]; simpl; [|rewrite lowerChar_idem, IH]; reflexivity. Qed.

Lemma toLowerCase_hex64 (s : string) :
  JS.test_hex64 s = true -> JS.test_hex64 (JS.toLowerCase s) = true.
Proof.
  unfold JS.test_hex64. rewrite !andb_true_iff. intros [L A]. split.
  - rewrite <- L. f_equal. clear. induction s as [|c s IH]; simpl; congruence.
  - clear L. induction s as [|c s IH]; simpl in *; trivial.
    apply andb_true_iff in A. destruct A as [Hc Hs].
    rewrite (lowerChar_hex c Hc), (IH Hs). reflexivity.
Qed.

(** X15.  [normalizeHexPubkey] on a 64-digit hex key, in any letter case and
    with white space around it, needs no decoding: the result is the key
    trimmed and in lower case, which is again a 64-digit hex key and is its
    own normal form. *)
Theorem normalizeHexPubkey_hex_canonical {RT : Runtime} (input : string) :
  JS.test_hex64 (JS.trim input) = true ->
  let h := JS.toLowerCase (JS.trim input) in
  normalizeHexPubkey (Some input) = Some h /\
  JS.test_hex64 h = true /\
  JS.toLowerCase h = h /\
  normalizeHexPubkey (Some h) = Some h.
Proof.
  intros H h.
  assert (Hh : JS.test_hex64 h = true) by (apply toLowerCase_hex64; exact H).
  assert (T : JS.truthy input = true).
  { destruct input as [|c s]; [|reflexivity].
    vm_compute in H. discriminate H. }
  split; [|split; [|split]].
  - unfold normalizeHexPubkey. rewrite T. simpl. rewrite H. reflexivity.
  - exact Hh.
  - apply toLowerCase_idem.
  - rewrite (normalizeHexPubkey_hex h Hh). f_equal. apply toLowerCase_idem.
Qed.

Lemma normalizeHexPubkey_hex_canonical_witness :
  JS.test_hex64 (JS.trim (" " ++ Example.HEX ++ " ")) = true /\
  normalizeHexPubkey (RT := Example.runtime) (Some (" " ++ Example.HEX ++ " ")) =
    Some Example.hex /\
  normalizeHexPubkey (RT := Example.runtime) (Some Example.hex) = Some Example.hex.
Proof.
  assert (H : JS.test_hex64 (JS.trim (" " ++ Example.HEX ++ " ")) = true)
    by (vm_compute; reflexivity).
  split; [exact H|].
  destruct (normalizeHexPubkey_hex_canonical (RT := Example.runtime)
              (" " ++ Example.HEX ++ " ") H) as [A [_ [_ B]]].
  split; [exact A | exact B].
Defined.

(** X16.  [normalizePagePath] never returns the empty string, and its
    result starts with "/" except in one case: the URL constructor accepts
    the input and gives a non-empty pathname that does not start with
    "/", which is then returned as it is. *)
Theorem normalizePagePath_absolute_or_opaque {RT : Runtime} (path : option string) :
  JS.truthy (normalizePagePath path) = true /\
  (JS.startsWith (normalizePagePath path) "/" = false ->
   exists p pathname,
     path = Some p /\
     URL_pathname p (if JS.startsWith p "http" then None
                     else Some "http://placeholder") = Some pathname /\
     normalizePagePath path = pathname /\
     JS.startsWith pathname "/" = false).
Proof.
  split; [apply normalizePagePath_truthy|].
  unfold normalizePagePath. destruct path as [p|]; [|discriminate].
  destruct (JS.truthy p) eqn:T; simpl; [|discriminate].
  destruct (JS.startsWith p "http") eqn:Hp.
  - destruct (URL_pathname p None) as [pathname|] eqn:U.
    + destruct (JS.truthy pathname); [|discriminate].
      intros H. exists p, pathname. rewrite Hp. repeat split; trivial.
    + destruct (JS.startsWith p "/") eqn:S; [congruence|].
      destruct p as [|c s]; [discriminate T | simpl; discriminate].
  - destruct (URL_pathname p (Some "http://placeholder")) as [pathname|] eqn:U.
    + destruct (JS.truthy pathname); [|discriminate].
      intros H. exists p, pathname. rewrite Hp. repeat split; trivial.
    + destruct (JS.startsWith p "/") eqn:S; [congruence|].
      destruct p as [|c s]; [discriminate T | simpl; discriminate].
Qed.

(** ** The page entries of the statistics *)

Lemma In_insert_sorted {A : Type} (le : A -> A -> bool) (a x : A) (l : list A) :
  In x (insert_sorted le a l) <-> x = a \/ In x l.
Proof.
  induction l as [|y l IH]; simpl.
  - split; intros [H|H]; auto.
  - destruct (le a y); simpl.
    + split; intros [H|H]; auto.
    + rewrite IH. split; intros H; intuition auto.
Qed.

Lemma In_order_by {A : Type} (le : A -> A -> bool) (x : A) (l : list A) :
  In x (order_by le l) <-> In x l.
Proof.
  induction l as [|y l IH]; simpl; [tauto|].
  rewrite In_insert_sorted, IH. split; intros [H|H]; auto.
Qed.

Lemma sum_filter_insert_sorted (le : PageStatRow -> PageStatRow -> bool)
    (P : PageStatRow -> bool) (a : PageStatRow) (l : list PageStatRow) :
  sum_counts (filter P (insert_sorted le a l)) = sum_counts (filter P (a :: l)).
Proof.
  induction l as [|y l IH]; simpl; trivial.
  destruct (le a y); simpl; trivial.
  simpl in IH. destruct (P y), (P a); simpl in *; lia.
Qed.

Lemma sum_filter_order_by (le : PageStatRow -> PageStatRow -> bool)
    (P : PageStatRow -> bool) (l : list PageStatRow) :
  sum_counts (filter P (order_by le l)) = sum_counts (filter P l).
Proof.
  induction l as [|y l IH]; simpl; trivial.
  rewrite sum_filter_insert_sorted. simpl. destruct (P y); simpl; lia.
Qed.

Lemma Map_set_keys {V : Type} (m : list (string * V)) (k : string) (v : V) (x : string) :
  In x (map fst (Map_set m k v)) <-> In x (map fst m) \/ x = k.
Proof.
  induction m as [|[k0 v0] m IH]; simpl.
  - split; intros [H|H]; auto; contradiction.
  - destruct (k0 =? k) eqn:E; simpl.
    + apply String.eqb_eq in E. subst k0. split; intros H; intuition auto.
    + rewrite IH. split; intros H; intuition auto.
Qed.

Lemma Map_set_NoDup {V : Type} (m : list (string * V)) (k : string) (v : V) :
  NoDup (map fst m) -> NoDup (map fst (Map_set m k v)).
Proof.
  induction m as [|[k0 v0] m IH]; simpl; intros N.
  - constructor; [intros [] | constructor].
  - inversion N as [|? ? Hn Hd]; subst.
    destruct (k0 =? k) eqn:E; simpl.
    + apply String.eqb_eq in E. subst k0. constructor; assumption.
    + constructor; [|apply IH; exact Hd].
      rewrite Map_set_keys. intros [H|H]; [exact (Hn H)|].
      apply String.eqb_neq in E. congruence.
Qed.

Lemma Map_get_Some_In {V : Type} (m : list (string * V)) (k : string) (v : V) :
  Map_get m k = Some v -> In (k, v) m.
Proof.
  induction m as [|[k0 v0] m IH]; simpl; [discriminate|].
  destruct (k0 =? k) eqn:E.
  - apply String.eqb_eq in E. intros H; inversion H; subst. left; reflexivity.
  - intros H. right. apply IH. exact H.
Qed.

Lemma Map_In_get {V : Type} (m : list (string * V)) (k : string) (v : V) :
  NoDup (map fst m) -> In (k, v) m -> Map_get m k = Some v.
Proof.
  induction m as [|[k0 v0] m IH]; simpl; intros N H; [contradiction|].
  inversion N as [|? ? Hn Hd]; subst.
  destruct H as [H|H].
  - inversion H; subst. rewrite String.eqb_refl. reflexivity.
  - destruct (k0 =? k) eqn:E.
    + apply String.eqb_eq in E. subst k0. exfalso. apply Hn.
      apply (in_map fst) in H. exact H.
    + apply IH; assumption.
Qed.

Lemma Map_get_None_keys {V : Type} (m : list (string * V)) (k : string) :
  Map_get m k = None <-> ~ In k (map fst m).
Proof.
  induction m as [|[k0 v0] m IH]; simpl.
  - split; [intros _ [] | reflexivity].
  - destruct (k0 =? k) eqn:E.
    + apply String.eqb_eq in E. split; [discriminate | intros H; exfalso; auto].
    + apply String.eqb_neq in E. rewrite IH. split; intros H; intuition auto.
Qed.

Lemma sum_pages_Map_set (m : list (string * PageStats)) (k : string) (v : PageStats) :
  sum_pages (Map_values (Map_set m k v)) =
  sum_pages (Map_values m) + totalVisits v
  - match Map_get m k with
    | Some e => totalVisits e
    | None => 0
    end.
Proof.
  unfold Map_values. induction m as [|[k0 v0] m IH]; simpl; [lia|].
  destruct (k0 =? k); simpl; [lia | rewrite IH; lia].
Qed.

(** The total of a page in the map, 0 when the page has no entry. *)
Lemma page_loop_totals (rows : list PageStatRow) (k : string) :
  match Map_get (fst (page_loop rows)) k with
  | Some e => totalVisits e
  | None => 0
  end = sum_counts (filter (fun r => page_path r =? k) rows).
Proof.
  unfold page_loop.
  assert (G : forall acc,
             match Map_get (fst (fold_left page_loop_body rows acc)) k with
             | Some e => totalVisits e
             | None => 0
             end =
             match Map_get (fst acc) k with
             | Some e => totalVisits e
             | None => 0
             end + sum_counts (filter (fun r => page_path r =? k) rows)).
  { induction rows as [|r rows IH]; intros acc; simpl; [lia|].
    rewrite IH. destruct acc as [m t]. simpl. rewrite Map_get_set.
    destruct (page_path r =? k) eqn:E; simpl; [|lia].
    apply String.eqb_eq in E. subst k.
    destruct (Map_get m (page_path r)); simpl; lia. }
  rewrite G. simpl. lia.
Qed.

Lemma page_loop_body_eq (m : list (string * PageStats)) (t : Z) (r : PageStatRow) :
  page_loop_body (m, t) r =
  (Map_set m (page_path r) (page_entry_after m r), t + visit_count r).
Proof. reflexivity. Qed.

(** The entries of the map are well keyed, one per page of the rows, and
    their totals add up to the running total. *)
Lemma page_loop_shape (rows : list PageStatRow) :
  let m := fst (page_loop rows) in
  NoDup (map fst m) /\
  (forall k e, In (k, e) m -> page e = k) /\
  (forall k, In k (map fst m) <-> In k (map page_path rows)) /\
  sum_pages (Map_values m) = snd (page_loop rows).
Proof.
  unfold page_loop.
  assert (G : forall acc,
             (NoDup (map fst (fst acc)) /\
              (forall k e, In (k, e) (fst acc) -> page e = k) /\
              sum_pages (Map_values (fst acc)) = snd acc) ->
             let res := fold_left page_loop_body rows acc in
             NoDup (map fst (fst res)) /\
             (forall k e, In (k, e) (fst res) -> page e = k) /\
             (forall k, In k (map fst (fst res)) <->
                        In k (map fst (fst acc)) \/ In k (map page_path rows)) /\
             sum_pages (Map_values (fst res)) = snd res).
  { induction rows as [|r rows IH]; intros acc [N [K S]]; cbn [fold_left].
    - cbv zeta. repeat split; trivial; simpl; tauto.
    - destruct acc as [m t]. cbn [fst snd] in N, K, S.
      rewrite page_loop_body_eq.
      set (e' := page_entry_after m r).
      assert (Pe : page e' = page_path r).
      { unfold e', page_entry_after; simpl.
        destruct (Map_get m (page_path r)) as [e|] eqn:Ge; trivial.
        apply K. apply Map_get_Some_In. exact Ge. }
      destruct (IH (Map_set m (page_path r) e', t + visit_count r)) as [N' [K' [I' S']]].
      { cbn [fst snd]. split; [apply Map_set_NoDup; exact N|]. split.
        - intros k e Hin.
          apply (Map_In_get _ _ _ (Map_set_NoDup m (page_path r) e' N)) in Hin.
          rewrite Map_get_set in Hin.
          destruct (page_path r =? k) eqn:D.
          + apply String.eqb_eq in D. inversion Hin; subst e. congruence.
          + apply K. apply Map_get_Some_In. exact Hin.
        - rewrite sum_pages_Map_set, S. unfold e', page_entry_after; simpl.
          destruct (Map_get m (page_path r)); simpl; lia. }
      split; [exact N'|]. split; [exact K'|]. split; [|exact S'].
      intros k. rewrite I'. simpl. rewrite Map_set_keys.
      split; intros H; intuition (subst; auto). }
  cbv zeta.
  destruct (G ([], 0)) as [N [K [I S]]].
  { simpl. repeat split; [constructor | intros k e []]. }
  split; [exact N|]. split; [exact K|]. split; [|exact S].
  intros k. rewrite I. simpl. tauto.
Qed.

(** The fields of the statistics in terms of the loops that build them. *)
Lemma getSiteStats_fields {RT : Runtime} (st : Store) (u npub : string)
    (site : SiteRecord) (stats : SiteStats) :
  findSite st u = Some site ->
  getSiteStats st u npub = Ok stats ->
  let rows := order_by page_device_le (site_page_stats st (id site)) in
  st_pages stats = Map_values (fst (page_loop rows)) /\
  visits (totals stats) = snd (page_loop rows) /\
  pages (totals stats) = Z.of_nat (List.length (st_pages stats)) /\
  visitsByDay stats =
    map (fun row => {| date := fst row; dv_visits := snd row |})
      (group_count String.compare
         (map (fun v => date_localtime (visited_at v)) (site_visits st (id site)))).
Proof.
  intros F. unfold getSiteStats. rewrite F.
  destruct (opt_truthy (owner_npub site) && strict_neq (owner_npub site) npub);
    [discriminate|].
  destruct (page_loop (order_by page_device_le (site_page_stats st (id site))))
    as [pageMap total] eqn:PL.
  intros H. inversion H; subst stats. simpl. repeat split.
Qed.

Lemma Map_values_In {V : Type} (m : list (string * V)) (v : V) :
  In v (Map_values m) <-> exists k, In (k, v) m.
Proof.
  unfold Map_values. rewrite in_map_iff. split.
  - intros [[k v'] [E H]]. simpl in E. subst v'. exists k. exact H.
  - intros [k H]. exists (k, v). auto.
Qed.

(** X17.  The page entries of [getSiteStats]: each page path of the site's
    counter rows has exactly one entry, and no other entry exists;
    [totals.pages] is the number of entries; the total of an entry is the
    sum of the counters of its page over the device types; and the totals
    of the entries add up to [totals.visits]. *)
Theorem getSiteStats_page_entries {RT : Runtime} (st : Store)
    (siteUuid npub : string) (site : SiteRecord) (stats : SiteStats) :
  findSite st siteUuid = Some site ->
  getSiteStats st siteUuid npub = Ok stats ->
  NoDup (map page (st_pages stats)) /\
  (forall p, In p (map page (st_pages stats)) <->
             In p (map page_path (site_page_stats st (id site)))) /\
  pages (totals stats) = Z.of_nat (List.length (st_pages stats)) /\
  (forall e, In e (st_pages stats) ->
             totalVisits e =
             sum_counts (filter (fun r => page_path r =? page e)
                           (site_page_stats st (id site)))) /\
  sum_pages (st_pages stats) = visits (totals stats).
Proof.
  intros F G.
  destruct (getSiteStats_fields st siteUuid npub site stats F G)
    as [Ep [Ev [En _]]].
  cbv zeta in Ep, Ev.
  set (rows := order_by page_device_le (site_page_stats st (id site))) in *.
  destruct (page_loop_shape rows) as [N [K [I S]]]. cbv zeta in N, K, I, S.
  assert (M : map page (Map_values (fst (page_loop rows))) =
              map fst (fst (page_loop rows))).
  { unfold Map_values. rewrite map_map.
    apply map_ext_in. intros [k e] Hin. simpl. apply K. exact Hin. }
  rewrite Ep, Ev.
  split; [rewrite M; exact N|].
  split.
  { intros p. rewrite M, I. unfold rows. rewrite !in_map_iff.
    split; intros [r [E H]]; exists r; split; trivial;
      apply (In_order_by page_device_le); exact H. }
  split; [rewrite <- Ep; exact En|].
  split; [|exact S].
  intros e He. apply Map_values_In in He. destruct He as [k Hk].
  pose proof (K k e Hk) as Pk. rewrite Pk.
  pose proof (page_loop_totals rows k) as T.
  rewrite (Map_In_get _ _ _ N Hk) in T. rewrite T.
  unfold rows. apply sum_filter_order_by.
Qed.

Lemma getSiteStats_page_entries_witness :
  findSite Example.two_devices_store "site-0001" = Some Example.two_devices_site /\
  (exists stats,
      getSiteStats (RT := Example.runtime) Example.two_devices_store "site-0001"
        "alice" = Ok stats /\
      NoDup (map page (st_pages stats)) /\
      sum_pages (st_pages stats) = visits (totals stats)).
Proof.
  assert (F : findSite Example.two_devices_store "site-0001" =
              Some Example.two_devices_site) by (vm_compute; reflexivity).
  split; [exact F|].
  destruct (getSiteStats_served (RT := Example.runtime) Example.two_devices_store
              "site-0001" "alice" Example.two_devices_site F eq_refl)
    as [stats [G _]].
  exists stats. split; [exact G|].
  destruct (getSiteStats_page_entries (RT := Example.runtime)
              Example.two_devices_store "site-0001" "alice"
              Example.two_devices_site stats F G) as [N [_ [_ [_ S]]]].
  split; [exact N | exact S].
Defined.

Lemma dev_get_set (d d' : DeviceType) (n : Z) (ds : Devices) :
  dev_get d (set_device d' n ds) = if DeviceType_eqb d' d then n else dev_get d ds.
Proof. destruct d, d'; reflexivity. Qed.

(** The count an entry shows for a device comes from the page's row of
    that device that the loop reads last. *)
Lemma page_loop_devices (rows : list PageStatRow) (k : string) (d : DeviceType) :
  match Map_get (fst (page_loop rows)) k with
  | Some e => dev_get d (devices e)
  | None => 0
  end =
  match find (fun r => (page_path r =? k) && DeviceType_eqb (device_type r) d)
          (rev rows) with
  | Some r => visit_count r
  | None => 0
  end.
Proof.
  unfold page_loop.
  assert (G : forall acc,
             match Map_get (fst (fold_left page_loop_body rows acc)) k with
             | Some e => dev_get d (devices e)
             | None => 0
             end =
             match find (fun r => (page_path r =? k)
                                  && DeviceType_eqb (device_type r) d) (rev rows) with
             | Some r => visit_count r
             | None =>
                 match Map_get (fst acc) k with
                 | Some e => dev_get d (devices e)
                 | None => 0
                 end
             end).
  { induction rows as [|r rows IH]; intros acc; cbn [fold_left rev]; trivial.
    rewrite IH. clear IH.
    destruct (find (fun r0 => (page_path r0 =? k)
                              && DeviceType_eqb (device_type r0) d) (rev rows))
      as [x|] eqn:F.
    - rewrite (find_app_Some _ _ _ _ F). reflexivity.
    - rewrite (find_app_None _ _ _ F). cbn [find].
      destruct acc as [m t]. rewrite page_loop_body_eq. cbn [fst].
      rewrite Map_get_set.
      destruct (page_path r =? k) eqn:E; cbn [andb]; trivial.
      apply String.eqb_eq in E. subst k.
      unfold page_entry_after; cbn [devices]. rewrite dev_get_set.
      destruct (DeviceType_eqb (device_type r) d); trivial.
      destruct (Map_get m (page_path r)); destruct d; reflexivity. }
  rewrite G. cbn [fst Map_get].
  destruct (find _ (rev rows)); reflexivity.
Qed.

Lemma sum_counts_by_device (P : PageStatRow -> bool) (l : list PageStatRow) :
  sum_counts (filter P l) =
  sum_counts (filter (fun r => P r && DeviceType_eqb (device_type r) desktop) l)
  + sum_counts (filter (fun r => P r && DeviceType_eqb (device_type r) mobile) l)
  + sum_counts (filter (fun r => P r && DeviceType_eqb (device_type r) tablet) l)
  + sum_counts (filter (fun r => P r && DeviceType_eqb (device_type r) other) l).
Proof.
  induction l as [|r l IH]; simpl; trivial.
  destruct (P r); simpl; [|exact IH].
  destruct (device_type r); simpl; lia.
Qed.

(** Under the uniqueness of triples, the counters of a triple add up to
    the counter that a lookup of the triple returns. *)
Lemma unique_sum_key (st : Store) (sid : Z) (p : string) (d : DeviceType) :
  unique_keys st ->
  sum_counts (filter (fun r => Key_eqb (stat_key r) (sid, p, d)) (page_stats_table st))
  = fst (current_stat st sid p d).
Proof.
  intros U. unfold current_stat, select_page_stat.
  destruct (find (same_triple sid p d) (page_stats_table st)) as [r|] eqn:F.
  - apply find_some in F. destruct F as [Hin K].
    rewrite same_triple_key in K. apply Key_eqb_eq in K. rewrite <- K.
    rewrite (unique_filter_key _ r U Hin). simpl. lia.
  - rewrite filter_all_false; [reflexivity|].
    intros x Hx. exact (find_none _ _ F x Hx).
Qed.

(** X18.  In a reachable store the device breakdown of a page entry is
    exact: for each of the four device types the entry shows the counter of
    the (site, page, device type) row, 0 when there is no such row, and
    the total of the entry is the sum of its four device counts. *)
Theorem getSiteStats_device_breakdown {RT : Runtime} (st : Store)
    (siteUuid npub : string) (site : SiteRecord) (stats : SiteStats) :
  reachable st ->
  findSite st siteUuid = Some site ->
  getSiteStats st siteUuid npub = Ok stats ->
  forall e, In e (st_pages stats) ->
    (forall d, dev_get d (devices e) = fst (current_stat st (id site) (page e) d)) /\
    totalVisits e =
      dev_desktop (devices e) + dev_mobile (devices e)
      + dev_tablet (devices e) + dev_other (devices e).
Proof.
  intros R F G e He.
  pose proof (reachable_unique_keys st R) as U.
  destruct (getSiteStats_fields st siteUuid npub site stats F G) as [Ep _].
  cbv zeta in Ep.
  set (rows := order_by page_device_le (site_page_stats st (id site))) in *.
  destruct (page_loop_shape rows) as [N [K _]]. cbv zeta in N, K.
  rewrite Ep in He. apply Map_values_In in He. destruct He as [k Hk].
  pose proof (K k e Hk) as Pk. rewrite Pk.
  pose proof (Map_In_get _ _ _ N Hk) as Gk.
  assert (S : forall d,
             sum_counts (filter (fun r => (page_path r =? k)
                                          && DeviceType_eqb (device_type r) d)
                           (site_page_stats st (id site)))
             = fst (current_stat st (id site) k d)).
  { intros d. unfold site_page_stats. rewrite filter_filter_and.
    rewrite <- (unique_sum_key st (id site) k d U).
    f_equal. apply filter_ext. intros r. unfold Key_eqb, stat_key.
    rewrite andb_assoc. reflexivity. }
  assert (D : forall d, dev_get d (devices e) = fst (current_stat st (id site) k d)).
  { intros d. pose proof (page_loop_devices rows k d) as L. rewrite Gk in L.
    rewrite L. clear L. unfold current_stat, select_page_stat.
    destruct (find (fun r => (page_path r =? k) && DeviceType_eqb (device_type r) d)
                (rev rows)) as [r|] eqn:Fr.
    - apply find_some in Fr. destruct Fr as [Hr Kr].
      apply in_rev in Hr. unfold rows in Hr.
      apply (proj1 (In_order_by page_device_le _ _)) in Hr.
      apply filter_In in Hr. destruct Hr as [Hr Sr].
      apply andb_true_iff in Kr. destruct Kr as [Kp Kd].
      assert (Kr : same_triple (id site) k d r = true)
        by (unfold same_triple; rewrite Sr, Kp, Kd; reflexivity).
      destruct (find_exists _ _ r Hr Kr) as [r' Fr'].
      rewrite Fr'. simpl. apply find_some in Fr'. destruct Fr' as [Hr' Kr'].
      rewrite same_triple_key in Kr, Kr'. apply Key_eqb_eq in Kr, Kr'.
      f_equal. apply (NoDup_map_injective stat_key (page_stats_table st)); trivial.
      congruence.
    - destruct (find (same_triple (id site) k d) (page_stats_table st)) as [r'|] eqn:Fr';
        [|reflexivity].
      exfalso. apply find_some in Fr'. destruct Fr' as [Hr' Kr'].
      unfold same_triple in Kr'. rewrite !andb_true_iff in Kr'.
      destruct Kr' as [[Ks Kp] Kd].
      assert (Hin : In r' (rev rows)).
      { apply -> in_rev. unfold rows.
        apply (proj2 (In_order_by page_device_le _ _)). apply filter_In. auto. }
      pose proof (find_none _ _ Fr r' Hin) as X. simpl in X.
      rewrite Kp, Kd in X. discriminate X. }
  split; [exact D|].
  pose proof (page_loop_totals rows k) as T. rewrite Gk in T. rewrite T.
  unfold rows. rewrite sum_filter_order_by.
  rewrite (sum_counts_by_device (fun r => page_path r =? k)), !S.
  rewrite <- !D. reflexivity.
Qed.

Lemma getSiteStats_device_breakdown_witness :
  reachable (RT := Example.runtime) Example.two_devices_store /\
  findSite Example.two_devices_store "site-0001" = Some Example.two_devices_site /\
  exists stats,
    getSiteStats (RT := Example.runtime) Example.two_devices_store "site-0001"
      "alice" = Ok stats /\
    forall e, In e (st_pages stats) ->
      totalVisits e =
        dev_desktop (devices e) + dev_mobile (devices e)
        + dev_tablet (devices e) + dev_other (devices e).
Proof.
  assert (R : reachable (RT := Example.runtime) Example.two_devices_store)
    by (apply reachable_run_all; constructor).
  assert (F : findSite Example.two_devices_store "site-0001" =
              Some Example.two_devices_site) by (vm_compute; reflexivity).
  split; [exact R|]. split; [exact F|].
  destruct (getSiteStats_served (RT := Example.runtime) Example.two_devices_store
              "site-0001" "alice" Example.two_devices_site F eq_refl)
    as [stats [G _]].
  exists stats. split; [exact G|].
  intros e He.
  exact (proj2 (getSiteStats_device_breakdown (RT := Example.runtime)
                  Example.two_devices_store "site-0001" "alice"
                  Example.two_devices_site stats R F G e He)).
Defined.

(** ** Grouping and counting *)

Lemma String_compare_refl (s : string) : String.compare s s = Eq.
Proof.
  pose proof (String.compare_antisym s s) as H.
  destruct (String.compare s s); trivial; discriminate H.
Qed.

Lemma String_compare_eq (a b : string) : String.compare a b = Eq <-> a = b.
Proof.
  split; [apply String.compare_eq_iff | intros ->; apply String_compare_refl].
Qed.

Lemma Ascii_compare_trans (a b c : ascii) :
  Ascii.compare a b = Lt -> Ascii.compare b c = Lt -> Ascii.compare a c = Lt.
Proof.
  unfold Ascii.compare. rewrite !N.compare_lt_iff. apply N.lt_trans.
Qed.

Lemma String_compare_trans (a b c : string) :
  String.compare a b = Lt -> String.compare b c = Lt -> String.compare a c = Lt.
Proof.
  revert b c. induction a as [|x a IH]; intros [|y b] [|z c]; simpl;
    try discriminate; trivial.
  destruct (Ascii.compare x y) eqn:Exy; try discriminate.
  - apply Ascii.compare_eq_iff in Exy. subst y.
    destruct (Ascii.compare x z); trivial. apply IH.
  - intros _. destruct (Ascii.compare y z) eqn:Eyz; try discriminate.
    + apply Ascii.compare_eq_iff in Eyz. subst z. rewrite Exy. trivial.
    + intros _. rewrite (Ascii_compare_trans x y z Exy Eyz). reflexivity.
Qed.

Section GroupCount.
Variable K : Type.
Variable cmp : K -> K -> comparison.
Hypothesis cmp_eq : forall a b, cmp a b = Eq <-> a = b.
Hypothesis cmp_antisym : forall a b, cmp a b = CompOpp (cmp b a).
Hypothesis cmp_trans : forall a b c, cmp a b = Lt -> cmp b c = Lt -> cmp a c = Lt.

Let same (a b : K) : bool :=
  match cmp a b with
  | Eq => true
  | _ => false
  end.

Let increasing : list (K * Z) -> Prop :=
  StronglySorted (fun a b => cmp (fst a) (fst b) = Lt).

(** Sum of the counts of the groups of key [k]. *)
Let counted (k : K) (l : list (K * Z)) : Z :=
  fold_right (fun e acc => (if same (fst e) k then snd e else 0) + acc) 0 l.

Lemma count_into_keys (k x : K) (l : list (K * Z)) :
  In x (map fst (count_into cmp k l)) <-> x = k \/ In x (map fst l).
Proof.
  induction l as [|[k' n] l IH]; simpl.
  - split; intros [H|H]; auto.
  - destruct (cmp k k') eqn:E; simpl.
    + apply cmp_eq in E. subst k'. split; intros H; intuition auto.
    + split; intros H; intuition auto.
    + rewrite IH. split; intros H; intuition auto.
Qed.

Lemma count_into_increasing (k : K) (l : list (K * Z)) :
  increasing l -> increasing (count_into cmp k l).
Proof.
  unfold increasing. induction l as [|[k' n] l IH]; simpl; intros S.
  - constructor; constructor.
  - inversion S as [|? ? Sl Hl]; subst.
    destruct (cmp k k') eqn:E.
    + constructor; trivial.
    + constructor; trivial. constructor; trivial.
      rewrite Forall_forall in *. intros e He. simpl.
      apply (cmp_trans k k' (fst e) E). exact (Hl e He).
    + constructor; [apply IH; exact Sl|].
      rewrite Forall_forall in *. intros e He. simpl.
      assert (Hk : In (fst e) (map fst (count_into cmp k l)))
        by (apply in_map; exact He).
      apply count_into_keys in Hk. destruct Hk as [Hk|Hk].
      * rewrite Hk, cmp_antisym, E. reflexivity.
      * apply in_map_iff in Hk. destruct Hk as [e' [Ee He']].
        rewrite <- Ee. exact (Hl e' He').
Qed.

Lemma count_into_counted (k k0 : K) (l : list (K * Z)) :
  counted k0 (count_into cmp k l) = counted k0 l + (if same k k0 then 1 else 0).
Proof.
  unfold counted. induction l as [|[k' n] l IH]; simpl.
  - lia.
  - destruct (cmp k k') eqn:E; simpl.
    + apply cmp_eq in E. subst k'. destruct (same k k0); lia.
    + lia.
    + rewrite IH. lia.
Qed.

Lemma count_into_positive (k : K) (l : list (K * Z)) :
  (forall e, In e l -> 1 <= snd e) ->
  forall e, In e (count_into cmp k l) -> 1 <= snd e.
Proof.
  induction l as [|[k' n] l IH]; simpl; intros H e He.
  - destruct He as [<-|[]]. simpl. lia.
  - destruct (cmp k k'); simpl in He.
    + destruct He as [<-|He]; [|apply H; auto].
      specialize (H (k', n) (or_introl eq_refl)). simpl in *. lia.
    + destruct He as [<-|He]; [simpl; lia | apply H; exact He].
    + destruct He as [<-|He]; [apply H; auto|].
      apply IH; [|exact He]. intros y Hy. apply H. auto.
Qed.

Lemma group_count_spec (keys : list K) :
  increasing (group_count cmp keys) /\
  (forall k, counted k (group_count cmp keys) =
             Z.of_nat (List.length (filter (fun x => same x k) keys))) /\
  (forall x, In x (map fst (group_count cmp keys)) <-> In x keys) /\
  (forall e, In e (group_count cmp keys) -> 1 <= snd e).
Proof.
  unfold group_count.
  assert (G : forall acc,
             increasing acc -> (forall e, In e acc -> 1 <= snd e) ->
             let res := fold_left (fun a k => count_into cmp k a) keys acc in
             increasing res /\
             (forall k, counted k res =
                        counted k acc +
                        Z.of_nat (List.length (filter (fun x => same x k) keys))) /\
             (forall x, In x (map fst res) <-> In x (map fst acc) \/ In x keys) /\
             (forall e, In e res -> 1 <= snd e)).
  { induction keys as [|k keys IH]; intros acc S P; cbn [fold_left].
    - cbv zeta. split; trivial. split; [intros k; simpl; lia|].
      split; [intros x; simpl; tauto | exact P].
    - destruct (IH (count_into cmp k acc) (count_into_increasing k acc S)
                  (count_into_positive k acc P)) as [S' [C' [I' P']]].
      cbv zeta. split; trivial. split; [|split; trivial].
      + intros k0. rewrite C', count_into_counted. cbn [filter].
        destruct (same k k0); cbn [List.length]; lia.
      + intros x. rewrite I', count_into_keys. simpl.
        split; intros H; intuition auto. }
  destruct (G []) as [S [C [I P]]].
  - constructor.
  - intros e [].
  - split; trivial. split; [|split; trivial].
    + intros k. rewrite C. simpl. lia.
    + intros x. rewrite I. simpl. tauto.
Qed.

Lemma increasing_counted (l : list (K * Z)) (k : K) (n : Z) :
  increasing l -> In (k, n) l -> counted k l = n.
Proof.
  unfold increasing, counted.
  assert (Z0 : forall l' : list (K * Z),
             Forall (fun e => cmp (fst e) k <> Eq) l' ->
             fold_right (fun e acc => (if same (fst e) k then snd e else 0) + acc) 0 l'
             = 0).
  { induction l' as [|e l' IH]; simpl; intros F; trivial.
    inversion F as [|? ? He Hl]; subst. rewrite (IH Hl). unfold same.
    destruct (cmp (fst e) k); trivial. contradiction. }
  induction l as [|[k' n'] l IH]; simpl; intros S Hin; [contradiction|].
  inversion S as [|? ? Sl Hl]; subst.
  destruct Hin as [H|H].
  - inversion H; subst k' n'. unfold same at 1.
    rewrite (proj2 (cmp_eq k k) eq_refl). rewrite Z0; [lia|].
    rewrite Forall_forall in *. intros e He. specialize (Hl e He). simpl in Hl.
    rewrite cmp_antisym, Hl. discriminate.
  - rewrite (IH Sl H). unfold same.
    rewrite Forall_forall in Hl. specialize (Hl (k, n) H). simpl in Hl.
    rewrite Hl. lia.
Qed.

End GroupCount.

Lemma count_into_total {K : Type} (cmp : K -> K -> comparison) (k : K)
    (l : list (K * Z)) :
  fold_right (fun e acc => snd e + acc) 0 (count_into cmp k l) =
  fold_right (fun e acc => snd e + acc) 0 l + 1.
Proof.
  induction l as [|[k' n] l IH]; cbn [count_into fold_right snd]; [lia|].
  destruct (cmp k k'); cbn [fold_right snd]; [lia | lia | rewrite IH; lia].
Qed.

Lemma group_count_total {K : Type} (cmp : K -> K -> comparison) (keys : list K) :
  fold_right (fun e acc => snd e + acc) 0 (group_count cmp keys) =
  Z.of_nat (List.length keys).
Proof.
  unfold group_count.
  assert (G : forall acc,
             fold_right (fun e a => snd e + a) 0
               (fold_left (fun a k => count_into cmp k a) keys acc) =
             fold_right (fun e a => snd e + a) 0 acc + Z.of_nat (List.length keys)).
  { induction keys as [|k keys IH]; intros acc; cbn [fold_left List.length]; [lia|].
    rewrite IH, count_into_total. lia. }
  rewrite G. simpl. lia.
Qed.

Lemma length_filter_map {A B : Type} (f : A -> B) (P : B -> bool) (l : list A) :
  List.length (filter P (map f l)) = List.length (filter (fun x => P (f x)) l).
Proof.
  induction l as [|x l IH]; simpl; trivial.
  destruct (P (f x)); simpl; rewrite IH; reflexivity.
Qed.

Lemma StronglySorted_map {A B : Type} (f : A -> B) (R : B -> B -> Prop) (l : list A) :
  StronglySorted (fun a b => R (f a) (f b)) l -> StronglySorted R (map f l).
Proof.
  induction 1 as [|a l S IH F]; simpl; constructor; trivial.
  rewrite Forall_forall in *. intros y Hy. apply in_map_iff in Hy.
  destruct Hy as [x [<- Hx]]. apply F. exact Hx.
Qed.

Lemma compare_same_eqb (x k : string) :
  match String.compare x k with
  | Eq => true
  | _ => false
  end = (x =? k).
Proof.
  destruct (String.compare x k) eqn:E.
  - apply String_compare_eq in E. subst. symmetry. apply String.eqb_refl.
  - symmetry. apply String.eqb_neq. intros ->.
    rewrite String_compare_refl in E. discriminate E.
  - symmetry. apply String.eqb_neq. intros ->.
    rewrite String_compare_refl in E. discriminate E.
Qed.

Lemma sum_daily_groups (l : list (string * Z)) :
  sum_daily (map (fun row => {| date := fst row; dv_visits := snd row |}) l) =
  fold_right (fun e acc => snd e + acc) 0 l.
Proof.
  unfold sum_daily. induction l as [|[k n] l IH]; simpl; trivial.
  rewrite IH. reflexivity.
Qed.

(** X19.  The daily totals of [getSiteStats]: the days are listed in
    strictly ascending order, so each day once; the listed days are the
    local days of the site's stored visits; the count of a day is the
    number of the site's visits on that local day, at least 1; and the
    counts add up to the number of the site's stored visits. *)
Theorem getSiteStats_daily_totals {RT : Runtime} (st : Store)
    (siteUuid npub : string) (site : SiteRecord) (stats : SiteStats) :
  findSite st siteUuid = Some site ->
  getSiteStats st siteUuid npub = Ok stats ->
  StronglySorted (fun a b => String.compare a b = Lt)
    (map date (visitsByDay stats)) /\
  (forall day, In day (map date (visitsByDay stats)) <->
               exists v, In v (site_visits st (id site)) /\
                         date_localtime (visited_at v) = day) /\
  (forall e, In e (visitsByDay stats) ->
             1 <= dv_visits e /\
             dv_visits e =
             Z.of_nat (List.length
                         (filter (fun v => date_localtime (visited_at v) =? date e)
                            (site_visits st (id site))))) /\
  sum_daily (visitsByDay stats) = Z.of_nat (List.length (site_visits st (id site))).
Proof.
  intros F G.
  destruct (getSiteStats_fields st siteUuid npub site stats F G) as [_ [_ [_ Ed]]].
  set (keys := map (fun v => date_localtime (visited_at v))
                 (site_visits st (id site))) in *.
  destruct (group_count_spec string String.compare String_compare_eq
              String.compare_antisym String_compare_trans keys) as [S [C [I P]]].
  assert (M : map date (visitsByDay stats) = map fst (group_count String.compare keys)).
  { rewrite Ed, map_map. reflexivity. }
  split; [|split; [|split]].
  - rewrite M. apply StronglySorted_map. exact S.
  - intros day. rewrite M, I. unfold keys. rewrite in_map_iff.
    split; intros [v [A B]]; exists v; tauto.
  - intros e He. rewrite Ed in He. apply in_map_iff in He.
    destruct He as [[k n] [<- Hin]]. simpl. split; [exact (P (k, n) Hin)|].
    rewrite <- (increasing_counted string String.compare String_compare_eq
                  String.compare_antisym _ k n S Hin).
    rewrite C. unfold keys. rewrite length_filter_map. do 2 f_equal.
    apply filter_ext. intros v. apply compare_same_eqb.
  - rewrite <- (length_map (fun v => date_localtime (visited_at v))
                  (site_visits st (id site))).
    fold keys. rewrite <- (group_count_total String.compare keys).
    rewrite Ed. apply sum_daily_groups.
Qed.

Lemma getSiteStats_daily_totals_witness :
  findSite Example.two_devices_store "site-0001" = Some Example.two_devices_site /\
  exists stats,
    getSiteStats (RT := Example.runtime) Example.two_devices_store "site-0001"
      "alice" = Ok stats /\
    map date (visitsByDay stats) = ["2024-01-01"; "2024-01-02"] /\
    sum_daily (visitsByDay stats) =
      Z.of_nat (List.length (site_visits Example.two_devices_store 1)).
Proof.
  assert (F : findSite Example.two_devices_store "site-0001" =
              Some Example.two_devices_site) by (vm_compute; reflexivity).
  split; [exact F|].
  destruct (getSiteStats_served (RT := Example.runtime) Example.two_devices_store
              "site-0001" "alice" Example.two_devices_site F eq_refl)
    as [stats [G _]].
  exists stats. split; [exact G|].
  split.
  - vm_compute in G. inversion G. reflexivity.
  - exact (proj2 (proj2 (proj2 (getSiteStats_daily_totals (RT := Example.runtime)
                   Example.two_devices_store "site-0001" "alice"
                   Example.two_devices_site stats F G)))).
Defined.

(** ** The views of the statistics agree *)

Lemma sum_daily_app (l1 l2 : list DailyVisits) :
  sum_daily (l1 ++ l2) = sum_daily l1 + sum_daily l2.
Proof.
  unfold sum_daily. induction l1 as [|x l1 IH]; simpl; [reflexivity | rewrite IH; lia].
Qed.

Lemma sum_daily_order_by (le : DailyVisits -> DailyVisits -> bool)
    (l : list DailyVisits) :
  sum_daily (order_by le l) = sum_daily l.
Proof.
  assert (I : forall a l', sum_daily (insert_sorted le a l') = dv_visits a + sum_daily l').
  { intros a l'. unfold sum_daily. induction l' as [|y l' IH]; simpl; trivial.
    destruct (le a y); simpl; [reflexivity | rewrite IH; lia]. }
  induction l as [|y l IH]; simpl; trivial.
  rewrite I, IH. reflexivity.
Qed.

Lemma sum_series_Map_set (m : list (string * PageVisitsByDay)) (k : string)
    (v : PageVisitsByDay) :
  sum_series (Map_values (Map_set m k v)) =
  sum_series (Map_values m) + sum_daily (days v)
  - match Map_get m k with
    | Some e => sum_daily (days e)
    | None => 0
    end.
Proof.
  unfold Map_values, sum_series. induction m as [|[k0 v0] m IH]; simpl; [lia|].
  destruct (k0 =? k); simpl; [lia | rewrite IH; lia].
Qed.

Lemma page_day_loop_total (rows : list (string * string * Z)) :
  sum_series (Map_values (fold_left page_day_body rows [])) =
  fold_right (fun row acc => snd row + acc) 0 rows.
Proof.
  assert (G : forall m,
             sum_series (Map_values (fold_left page_day_body rows m)) =
             sum_series (Map_values m)
             + fold_right (fun row acc => snd row + acc) 0 rows).
  { induction rows as [|[[p d] n] rows IH]; intros m; cbn [fold_left fold_right snd];
      [lia|].
    rewrite IH. unfold page_day_body. rewrite sum_series_Map_set. cbn [days].
    rewrite sum_daily_app.
    destruct (Map_get m p); unfold sum_daily; simpl; lia. }
  rewrite G. unfold sum_series. simpl. lia.
Qed.

Lemma reshaped_total (l : list (string * string * Z)) :
  fold_right (fun row acc => snd row + acc) 0
    (map (fun row => (fst (fst row), snd (fst row), snd row)) l) =
  fold_right (fun e acc => snd e + acc) 0 l.
Proof.
  induction l as [|[[p d] n] l IH]; simpl; trivial. rewrite IH. reflexivity.
Qed.

Lemma getSiteStats_series_field {RT : Runtime} (st : Store) (u npub : string)
    (site : SiteRecord) (stats : SiteStats) :
  findSite st u = Some site ->
  getSiteStats st u npub = Ok stats ->
  pageVisitsByDay stats =
    map (fun entry =>
           {| pvd_page := pvd_page entry;
              days := order_by (fun a b => (localeCompare (date a) (date b) <=? 0)%Z)
                        (days entry) |})
      (Map_values
         (fold_left page_day_body
            (map (fun row => (fst (fst row), snd (fst row), snd row))
               (group_count pair_compare
                  (map (fun v => (v_page_path v, date_localtime (visited_at v)))
                     (site_visits st (id site))))) [])).
Proof.
  intros F. unfold getSiteStats. rewrite F.
  destruct (opt_truthy (owner_npub site) && strict_neq (owner_npub site) npub);
    [discriminate|].
  destruct (page_loop (order_by page_device_le (site_page_stats st (id site))))
    as [pageMap total] eqn:PL.
  intros H. inversion H; subst stats. reflexivity.
Qed.

(** X20.  In a reachable store the four views that [getSiteStats] returns
    agree: [totals.visits], the sum of the page totals, the sum of the
    daily totals and the sum of all counts of the per-page daily series are
    the same number, the number of the site's stored visits. *)
Theorem getSiteStats_views_agree {RT : Runtime} (st : Store)
    (siteUuid npub : string) (site : SiteRecord) (stats : SiteStats) :
  reachable st ->
  findSite st siteUuid = Some site ->
  getSiteStats st siteUuid npub = Ok stats ->
  visits (totals stats) = Z.of_nat (List.length (site_visits st (id site))) /\
  sum_pages (st_pages stats) = visits (totals stats) /\
  sum_daily (visitsByDay stats) = visits (totals stats) /\
  sum_series (pageVisitsByDay stats) = visits (totals stats).
Proof.
  intros R F G.
  pose proof (reachable_consistent st R) as C.
  destruct (getSiteStats_fields st siteUuid npub site stats F G)
    as [Ep [Ev [_ Ed]]].
  cbv zeta in Ep, Ev.
  pose proof (getSiteStats_series_field st siteUuid npub site stats F G) as Es.
  assert (V : visits (totals stats) =
              Z.of_nat (List.length (site_visits st (id site)))).
  { rewrite Ev, page_loop_total, sum_counts_order_by.
    exact (C (fun k => (fst (fst k) =? id site)%Z)). }
  split; [exact V|]. split; [|split].
  - rewrite Ep, Ev.
    destruct (page_loop_shape
                (order_by page_device_le (site_page_stats st (id site))))
      as [_ [_ [_ S]]].
    exact S.
  - rewrite V, Ed, sum_daily_groups, group_count_total, length_map. reflexivity.
  - rewrite V, Es.
    set (m := Map_values _).
    assert (O : sum_series
                  (map (fun entry =>
                          {| pvd_page := pvd_page entry;
                             days := order_by
                                       (fun a b =>
                                          (localeCompare (date a) (date b) <=? 0)%Z)
                                       (days entry) |}) m) = sum_series m).
    { unfold sum_series. induction m as [|e m IH]; simpl; trivial.
      rewrite sum_daily_order_by, IH. reflexivity. }
    rewrite O. unfold m. rewrite page_day_loop_total.
    rewrite <- (length_map (fun v => (v_page_path v, date_localtime (visited_at v)))
                  (site_visits st (id site))).
    rewrite <- (group_count_total pair_compare).
    apply reshaped_total.
Qed.

Lemma getSiteStats_views_agree_witness :
  reachable (RT := Example.runtime) Example.scenario_store /\
  findSite Example.scenario_store "abc123" = Some Example.scenario_site /\
  exists stats,
    getSiteStats (RT := Example.runtime) Example.scenario_store "abc123" "ownerX"
      = Ok stats /\
    visits (totals stats) = 3 /\
    sum_pages (st_pages stats) = visits (totals stats) /\
    sum_daily (visitsByDay stats) = visits (totals stats) /\
    sum_series (pageVisitsByDay stats) = visits (totals stats).
Proof.
  assert (R : reachable (RT := Example.runtime) Example.scenario_store)
    by (apply reachable_run_all; constructor).
  assert (F : findSite Example.scenario_store "abc123" = Some Example.scenario_site)
    by (vm_compute; reflexivity).
  split; [exact R|]. split; [exact F|].
  destruct (getSiteStats_served (RT := Example.runtime) Example.scenario_store
              "abc123" "ownerX" Example.scenario_site F eq_refl) as [stats [G _]].
  exists stats. split; [exact G|].
  destruct (getSiteStats_views_agree (RT := Example.runtime) Example.scenario_store
              "abc123" "ownerX" Example.scenario_site stats R F G) as [V W].
  split; [rewrite V; vm_compute; reflexivity | exact W].
Defined.

(** ** Listing the sites of an owner *)

Lemma created_desc_total (a b : SiteRecord) :
  created_desc a b = false -> created_desc b a = true.
Proof.
  unfold created_desc. rewrite (String.compare_antisym (created_at b) (created_at a)).
  destruct (String.compare (created_at a) (created_at b)); simpl; congruence.
Qed.

Lemma insert_sorted_Sorted {A : Type} (le : A -> A -> bool) (a : A) (l : list A) :
  (forall x y, le x y = false -> le y x = true) ->
  Sorted (fun x y => le x y = true) l ->
  Sorted (fun x y => le x y = true) (insert_sorted le a l).
Proof.
  intros T. induction l as [|y l IH]; simpl; intros S.
  - constructor; constructor.
  - destruct (le a y) eqn:E.
    + constructor; trivial. constructor. exact E.
    + inversion S as [|? ? Sl Hl]; subst. constructor; [apply IH; exact Sl|].
      destruct l as [|z l]; simpl.
      * constructor. apply T. exact E.
      * inversion Hl; subst. destruct (le a z); constructor; auto.
Qed.

Lemma order_by_Sorted {A : Type} (le : A -> A -> bool) (l : list A) :
  (forall x y, le x y = false -> le y x = true) ->
  Sorted (fun x y => le x y = true) (order_by le l).
Proof.
  intros T. induction l as [|y l IH]; simpl; [constructor|].
  apply insert_sorted_Sorted; assumption.
Qed.

Lemma NoDup_map_insert_sorted {A B : Type} (f : A -> B) (le : A -> A -> bool)
    (a : A) (l : list A) :
  NoDup (map f (a :: l)) -> NoDup (map f (insert_sorted le a l)).
Proof.
  induction l as [|y l IH]; simpl; intros N; trivial.
  destruct (le a y); simpl; trivial.
  inversion N as [|? ? Ha Hl]; subst. inversion Hl as [|? ? Hy Hl']; subst.
  constructor.
  - intros Hin. apply in_map_iff in Hin. destruct Hin as [x [E Hx]].
    apply In_insert_sorted in Hx. destruct Hx as [->|Hx].
    + apply Ha. left. symmetry. exact E.
    + apply Hy. rewrite <- E. apply in_map. exact Hx.
  - apply IH. simpl. constructor; trivial.
    intros Hin. apply Ha. right. exact Hin.
Qed.

Lemma NoDup_map_order_by {A B : Type} (f : A -> B) (le : A -> A -> bool) (l : list A) :
  NoDup (map f l) -> NoDup (map f (order_by le l)).
Proof.
  induction l as [|y l IH]; simpl; intros N; trivial.
  inversion N as [|? ? Hy Hl]; subst.
  apply NoDup_map_insert_sorted. simpl. constructor; [|apply IH; exact Hl].
  intros Hin. apply Hy. apply in_map_iff in Hin. destruct Hin as [x [E Hx]].
  apply In_order_by in Hx. rewrite <- E. apply in_map. exact Hx.
Qed.

(** X21.  [listSitesForNpub] returns exactly the sites whose stored owner
    is the given string, character for character and without identity
    normalization, newest first; in a reachable store no site is listed
    twice. *)
Theorem listSitesForNpub_lists_exact_owner {RT : Runtime} (st : Store) (npub : string) :
  reachable st ->
  (forall s, In s (listSitesForNpub st npub) <->
             In s (sites_table st) /\ owner_npub s = Some npub) /\
  Sorted (fun a b => String.compare (created_at a) (created_at b) <> Lt)
    (listSitesForNpub st npub) /\
  NoDup (map site_uuid (listSitesForNpub st npub)).
Proof.
  intros R. destruct (reachable_sites_ok st R) as [U _].
  unfold listSitesForNpub. split; [|split].
  - intros s. rewrite In_order_by, filter_In, negb_true_iff, strict_neq_false.
    tauto.
  - pose proof (order_by_Sorted created_desc
                  (filter (fun s => negb (strict_neq (owner_npub s) npub))
                     (sites_table st)) created_desc_total) as S.
    induction S as [|a l Sl IH H]; constructor; trivial.
    destruct H as [|b l H]; constructor.
    unfold created_desc in H.
    destruct (String.compare (created_at a) (created_at b)); congruence.
  - apply NoDup_map_order_by. apply NoDup_map_filter. exact U.
Qed.

Lemma listSitesForNpub_lists_exact_owner_witness :
  reachable (RT := Example.runtime) Example.encodings_store /\
  listSitesForNpub Example.encodings_store Example.npub = [Example.npub_site] /\
  listSitesForNpub Example.encodings_store Example.hex = [] /\
  (forall s, In s (listSitesForNpub Example.encodings_store Example.hex) <->
             In s (sites_table Example.encodings_store) /\
             owner_npub s = Some Example.hex).
Proof.
  assert (R : reachable (RT := Example.runtime) Example.encodings_store)
    by (apply reachable_run_all; constructor).
  split; [exact R|].
  split; [vm_compute; reflexivity|]. split; [vm_compute; reflexivity|].
  exact (proj1 (listSitesForNpub_lists_exact_owner (RT := Example.runtime)
                  Example.encodings_store Example.hex R)).
Defined.

(** ** The [record_visit] tool and the request identifier *)

Lemma trim_leading_char (c : ascii) (t : string) :
  JS.isWhiteSpace c = false -> JS.truthy (JS.trim (String c t)) = true.
Proof.
  intros W. unfold JS.trim. cbn [JS.trimStart]. rewrite W.
  cbn [JS.trimEnd]. rewrite W. reflexivity.
Qed.

Lemma string_of_uint_leading (d : Decimal.uint) :
  exists c t, NilZero.string_of_uint d = String c t /\ JS.isWhiteSpace c = false.
Proof. destruct d; do 2 eexists; split; reflexivity. Qed.

Lemma string_of_int_leading (d : Decimal.int) :
  exists c t, NilZero.string_of_int d = String c t /\ JS.isWhiteSpace c = false.
Proof.
  destruct d as [u|u]; simpl.
  - apply string_of_uint_leading.
  - do 2 eexists; split; reflexivity.
Qed.

(** The event identifier [recordVisit] derives from a request id. *)
Lemma request_key_number (n : Z) :
  JS.orNull (JS.trim (JS.orEmpty (requestId_eventId (Some (IdNumber n))))) = None <->
  n = 0.
Proof.
  unfold requestId_eventId. destruct (Z.eqb_spec n 0) as [->|NZ].
  - split; reflexivity.
  - split; [|contradiction]. intros H. exfalso.
    destruct (string_of_int_leading (Z.to_int n)) as [c [t [E W]]].
    cbn [JS.orEmpty] in H. rewrite E in H. unfold JS.orNull in H.
    rewrite (trim_leading_char c t W) in H. discriminate.
Qed.

Lemma request_key_string (s : string) :
  JS.orNull (JS.trim (JS.orEmpty (requestId_eventId (Some (IdString s))))) =
  JS.orNull (JS.trim s).
Proof.
  unfold requestId_eventId, JS.orNull at 2.
  destruct (JS.truthy s) eqn:T; [reflexivity|].
  destruct s; [reflexivity|discriminate].
Qed.

Lemma recordVisit_retry {RT : Runtime} (st : Store) (t1 t2 t3 t4 u : string)
    (p d ua ev : option string) (e : string) (site : SiteRecord) :
  findSite st u = Some site ->
  JS.orNull (JS.trim (JS.orEmpty ev)) = Some e ->
  exists st1 r1 r2,
    recordVisit st t1 t2 u p d ua ev = (st1, Ok r1) /\
    recordVisit st1 t3 t4 u p d ua ev = (st1, Ok r2) /\
    VisitResult.visits r2 = VisitResult.visits r1 /\
    VisitResult.lastSeen r2 = VisitResult.lastSeen r1.
Proof.
  intros F N.
  destruct (event_stored st e) eqn:E.
  - do 3 eexists.
    split; [apply (recordVisit_duplicate st _ _ _ _ _ _ _ e site F N E)|].
    split; [apply (recordVisit_duplicate st _ _ _ _ _ _ _ e site F N E)|].
    split; reflexivity.
  - pose proof (recordVisit_fresh st t1 t2 u p d ua ev e site F N E) as R1.
    cbv zeta in R1.
    do 3 eexists. split; [exact R1|].
    split.
    + apply (recordVisit_duplicate _ _ _ _ _ _ _ _ e site); trivial.
      apply event_stored_app. reflexivity.
    + simpl. unfold current_stat, select_page_stat; simpl.
      rewrite upsert_rows_find. split; reflexivity.
Qed.

Lemma recordVisit_both_counted {RT : Runtime} (st : Store) (t1 t2 t3 t4 u : string)
    (p d ua ev : option string) (site : SiteRecord) :
  findSite st u = Some site ->
  JS.orNull (JS.trim (JS.orEmpty ev)) = None ->
  exists st1 r1 st2 r2,
    recordVisit st t1 t2 u p d ua ev = (st1, Ok r1) /\
    recordVisit st1 t3 t4 u p d ua ev = (st2, Ok r2) /\
    VisitResult.visits r2 = VisitResult.visits r1 + 1 /\
    List.length (visits_table st2) = S (S (List.length (visits_table st))).
Proof.
  intros F N.
  assert (N' : forall s x, JS.orNull (JS.trim (JS.orEmpty ev)) = Some x ->
                           event_stored s x = false)
    by (intros s x H; rewrite N in H; discriminate).
  pose proof (recordVisit_writes st t1 t2 u p d ua ev site F (N' st)) as W1.
  cbv zeta in W1.
  set (st1 := fst (recordVisit st t1 t2 u p d ua ev)).
  assert (F1 : findSite st1 u = Some site).
  { rewrite <- F. apply findSite_same_sites. unfold st1. rewrite W1. reflexivity. }
  pose proof (recordVisit_writes st1 t3 t4 u p d ua ev site F1 (N' st1)) as W2.
  cbv zeta in W2.
  pose proof (f_equal fst W1) as E1. cbn [fst] in E1. fold st1 in E1.
  clearbody st1. subst st1.
  cbn [page_stats_table visits_table sites_table sites_seq] in W2.
  do 4 eexists. split; [exact W1|]. split; [exact W2|].
  cbn [VisitResult.visits visits_table fst snd].
  split.
  - destruct (upsert_rows_returned (id site) (normalizePagePath p)
                (normalizeDeviceType d ua) t4
                (fst (upsert_rows (id site) (normalizePagePath p)
                        (normalizeDeviceType d ua) t2 (page_stats_table st))))
      as [_ [_ C]].
    cbv zeta in C. rewrite C, upsert_rows_find. reflexivity.
  - rewrite !length_app. cbn [List.length]. lia.
Qed.

(** X22.  The [record_visit] tool deduplicates by the JSON-RPC request id:
    the identifier is the id rendered as a string, and there is none when
    the id is absent, the number 0 or a blank string.  On a registered
    site, a request delivered twice with an id that yields an identifier
    is counted once, the second delivery writing nothing and returning the
    same count; without an identifier both deliveries are counted. *)
Theorem record_visit_deduplicates_by_request_id {RT : Runtime} (st : Store)
    (t1 t2 t3 t4 siteUuid : string) (pagePath deviceType userAgent : option string)
    (requestId : option RequestId) (site : SiteRecord) :
  min8 siteUuid = true ->
  findSite st siteUuid = Some site ->
  let key := JS.orNull (JS.trim (JS.orEmpty (requestId_eventId requestId))) in
  (requestId = None -> key = None) /\
  (forall n, requestId = Some (IdNumber n) -> (key = None <-> n = 0)) /\
  (forall s, requestId = Some (IdString s) -> key = JS.orNull (JS.trim s)) /\
  exists st1 r1 st2 r2,
    tool_record_visit st t1 t2 siteUuid pagePath deviceType userAgent requestId
      = (st1, Content r1) /\
    tool_record_visit st1 t3 t4 siteUuid pagePath deviceType userAgent requestId
      = (st2, Content r2) /\
    (key <> None ->
       st2 = st1 /\
       VisitResult.visits r2 = VisitResult.visits r1 /\
       VisitResult.lastSeen r2 = VisitResult.lastSeen r1) /\
    (key = None ->
       VisitResult.visits r2 = VisitResult.visits r1 + 1 /\
       List.length (visits_table st2) = S (S (List.length (visits_table st)))).
Proof.
  intros M F key.
  split; [intros ->; reflexivity|].
  split; [intros n ->; apply request_key_number|].
  split; [intros s ->; apply request_key_string|].
  unfold tool_record_visit. rewrite M.
  destruct key as [e|] eqn:K; unfold key in K.
  - destruct (recordVisit_retry st t1 t2 t3 t4 siteUuid pagePath deviceType userAgent
                (requestId_eventId requestId) e site F K)
      as [st1 [r1 [r2 [R1 [R2 [V L]]]]]].
    exists st1, r1, st1, r2. rewrite R1, R2.
    repeat split; trivial; discriminate.
  - destruct (recordVisit_both_counted st t1 t2 t3 t4 siteUuid pagePath deviceType
                userAgent (requestId_eventId requestId) site F K)
      as [st1 [r1 [st2 [r2 [R1 [R2 [V L]]]]]]].
    exists st1, r1, st2, r2. rewrite R1, R2.
    split; [reflexivity|]. split; [reflexivity|].
    split; [intros H; contradiction H; reflexivity|].
    intros _. split; assumption.
Qed.

Lemma record_visit_deduplicates_by_request_id_witness :
  min8 "abc12345" = true /\
  (exists st0 site,
     findSite st0 "abc12345" = Some site /\
     exists st1 r1 st2 r2,
       tool_record_visit (RT := Example.runtime) st0 "2024-01-01 10:00:00"
         "2024-01-01 10:00:00" "abc12345" (Some "/home") None None
         (Some (IdNumber 7)) = (st1, Content r1) /\
       tool_record_visit (RT := Example.runtime) st1 "2024-01-01 10:00:09"
         "2024-01-01 10:00:09" "abc12345" (Some "/home") None None
         (Some (IdNumber 7)) = (st2, Content r2) /\
       st2 = st1 /\ VisitResult.visits r2 = VisitResult.visits r1).
Proof.
  assert (M : min8 "abc12345" = true) by reflexivity.
  split; [exact M|].
  set (st0 := fst (registerSite empty_store "2024-01-01 09:00:00" "tok" "abc12345"
                     (Some "Blog") "npub1owner")).
  set (site := {| id := 1; site_uuid := "abc12345"; name := Some "Blog";
                  owner_npub := Some "npub1owner"; owner_signature := None;
                  secret_token := "tok"; created_at := "2024-01-01 09:00:00";
                  updated_at := "2024-01-01 09:00:00" |}).
  assert (F : findSite st0 "abc12345" = Some site) by (vm_compute; reflexivity).
  exists st0, site. split; [exact F|].
  destruct (record_visit_deduplicates_by_request_id (RT := Example.runtime) st0
              "2024-01-01 10:00:00" "2024-01-01 10:00:00"
              "2024-01-01 10:00:09" "2024-01-01 10:00:09" "abc12345"
              (Some "/home") None None (Some (IdNumber 7)) site M F)
    as [_ [_ [_ [st1 [r1 [st2 [r2 [R1 [R2 [D _]]]]]]]]]].
  exists st1, r1, st2, r2. split; [exact R1|]. split; [exact R2|].
  assert (K : JS.orNull (JS.trim (JS.orEmpty (requestId_eventId (Some (IdNumber 7)))))
              <> None) by (vm_compute; discriminate).
  destruct (D K) as [S [V _]]. split; assumption.
Defined.

(** ** The server key *)

Lemma prefix_app (p x : string) : String.prefix p (p ++ x) = true.
Proof.
  induction p as [|c p IH]; simpl.
  - destruct x; reflexivity.
  - destruct (ascii_dec c c) as [_|N]; [exact IH|contradiction N; reflexivity].
Qed.

Lemma includes_prefix (p x : string) : JS.includes (p ++ x) p = true.
Proof.
  assert (H : forall s, String.prefix p s = true -> JS.includes s p = true)
    by (intros s H; destruct s; cbn [JS.includes]; rewrite H; reflexivity).
  apply H, prefix_app.
Qed.

Lemma includes_app_r (a b sub : string) :
  JS.includes b sub = true -> JS.includes (a ++ b) sub = true.
Proof.
  intros H. induction a as [|c a IH]; simpl; trivial.
  rewrite IH. apply orb_true_r.
Qed.

Lemma endsWith_app (a t : string) : endsWith (a ++ t) t = true.
Proof.
  induction a as [|c a IH]; cbn [append].
  - destruct t; cbn [endsWith]; rewrite String.eqb_refl; reflexivity.
  - cbn [endsWith]. rewrite IH. apply orb_true_r.
Qed.

Lemma append_assoc_r (a b c : string) : a ++ b ++ c = (a ++ b) ++ c.
Proof. induction a as [|x a IH]; cbn [append]; [|rewrite IH]; reflexivity. Qed.

(** X23.  [ensureServerPrivateKey] returns a non-empty key and leaves it in
    the environment variable, whether or not the [.env] file could be
    written.  A key already set is returned with nothing changed; once a
    key has been returned, every later call returns the same key and
    changes nothing.  [generated] is the fresh random key, non-empty as the
    hex rendering of 32 bytes. *)
Theorem ensureServerPrivateKey_keeps_key (e : KeyEnv) (generated : string)
    (fs_throws : bool) :
  JS.truthy generated = true ->
  let e1 := fst (ensureServerPrivateKey e generated fs_throws) in
  let key := snd (ensureServerPrivateKey e generated fs_throws) in
  SERVER_PRIVATE_KEY e1 = Some key /\
  JS.truthy key = true /\
  (opt_truthy (SERVER_PRIVATE_KEY e) = true ->
     e1 = e /\ SERVER_PRIVATE_KEY e = Some key) /\
  (opt_truthy (SERVER_PRIVATE_KEY e) = false -> key = generated) /\
  (forall generated' fs_throws',
     ensureServerPrivateKey e1 generated' fs_throws' = (e1, key)).
Proof.
  intros G e1 key. unfold e1, key, ensureServerPrivateKey.
  destruct (opt_truthy (SERVER_PRIVATE_KEY e)) eqn:T; cbn [fst snd].
  - unfold opt_truthy in T.
    destruct (SERVER_PRIVATE_KEY e) as [k|] eqn:K; [|discriminate].
    cbn [JS.orEmpty]. repeat split; trivial; try discriminate.
    intros g' f'. unfold opt_truthy. rewrite T. reflexivity.
  - cbn [SERVER_PRIVATE_KEY]. repeat split; trivial; try discriminate.
    intros g' f'. unfold opt_truthy. cbn [SERVER_PRIVATE_KEY JS.orEmpty].
    rewrite G. reflexivity.
Qed.

Lemma ensureServerPrivateKey_keeps_key_witness :
  JS.truthy "9f3a" = true /\
  SERVER_PRIVATE_KEY
    (fst (ensureServerPrivateKey
            {| SERVER_PRIVATE_KEY := None; dotenv := Some "RELAYS=wss://r" |}
            "9f3a" true)) = Some "9f3a" /\
  forall generated' fs_throws',
    snd (ensureServerPrivateKey
           (fst (ensureServerPrivateKey
                   {| SERVER_PRIVATE_KEY := None; dotenv := Some "RELAYS=wss://r" |}
                   "9f3a" true)) generated' fs_throws') = "9f3a".
Proof.
  assert (G : JS.truthy "9f3a" = true) by reflexivity.
  split; [exact G|].
  destruct (ensureServerPrivateKey_keeps_key
              {| SERVER_PRIVATE_KEY := None; dotenv := Some "RELAYS=wss://r" |}
              "9f3a" true G) as [S [_ [_ [_ L]]]].
  split; [exact S|]. intros g' f'. rewrite L. reflexivity.
Defined.

(** X24.  When no key is set and the file system does not fail,
    [ensureServerPrivateKey] never removes text from [.env]: a missing
    file is created with the one line [SERVER_PRIVATE_KEY=<key>]; a file
    that mentions [SERVER_PRIVATE_KEY=] is left as it is; any other file
    gets that line appended, on a line of its own.  In each case the file
    mentions [SERVER_PRIVATE_KEY=] afterwards. *)
Theorem ensureServerPrivateKey_appends_to_dotenv (e : KeyEnv) (generated : string) :
  opt_truthy (SERVER_PRIVATE_KEY e) = false ->
  let e1 := fst (ensureServerPrivateKey e generated false) in
  let line := "SERVER_PRIVATE_KEY=" ++ generated ++ LF in
  (dotenv e = None -> dotenv e1 = Some line) /\
  (forall current, dotenv e = Some current ->
     JS.includes current "SERVER_PRIVATE_KEY=" = true -> dotenv e1 = Some current) /\
  (forall current, dotenv e = Some current ->
     JS.includes current "SERVER_PRIVATE_KEY=" = false ->
     exists before,
       dotenv e1 = Some (before ++ line) /\
       (before = current \/ before = current ++ LF) /\
       (before = "" \/ endsWith before LF = true)) /\
  exists text,
    dotenv e1 = Some text /\ JS.includes text "SERVER_PRIVATE_KEY=" = true.
Proof.
  intros T e1 line. unfold e1, ensureServerPrivateKey. rewrite T.
  cbn [fst dotenv].
  assert (IL : forall before, JS.includes (before ++ line) "SERVER_PRIVATE_KEY=" = true).
  { intros before. apply includes_app_r. unfold line.
    apply (includes_prefix "SERVER_PRIVATE_KEY=" (generated ++ LF)). }
  destruct (dotenv e) as [current|] eqn:D.
  - destruct (JS.includes current "SERVER_PRIVATE_KEY=") eqn:I; cbn [negb].
    + split; [discriminate|]. split; [intros c H _; inversion H; subst; reflexivity|].
      split; [intros c H H'; inversion H; subst; congruence|].
      exists current. split; trivial.
    + assert (B : exists before,
                 (current ++
                  (if JS.truthy current && negb (endsWith current LF) then LF else "") ++
                  line) = before ++ line /\
                 (before = current \/ before = current ++ LF) /\
                 (before = "" \/ endsWith before LF = true)).
      { destruct (JS.truthy current) eqn:C; cbn [andb].
        - destruct (endsWith current LF) eqn:W; cbn [negb].
          + exists current. split; [reflexivity|]. split; auto.
          + exists (current ++ LF). split.
            * apply append_assoc_r.
            * split; [auto|]. right. apply endsWith_app.
        - exists current. split; [reflexivity|]. split; [auto|]. left.
          destruct current; [reflexivity|discriminate]. }
      destruct B as [before [E [B1 B2]]].
      split; [discriminate|]. split; [intros c H H'; inversion H; subst; congruence|].
      split.
      * intros c H _. inversion H; subst c. exists before.
        split; [|split; assumption]. rewrite <- E. reflexivity.
      * exists (before ++ line). split; [|apply IL].
        rewrite <- E. reflexivity.
  - split; [reflexivity|]. split; [discriminate|]. split; [discriminate|].
    exists line. split; [reflexivity|]. apply (IL "").
Qed.

Lemma ensureServerPrivateKey_appends_to_dotenv_witness :
  opt_truthy
    (SERVER_PRIVATE_KEY
       {| SERVER_PRIVATE_KEY := None; dotenv := Some "RELAYS=wss://r" |}) = false /\
  dotenv
    (fst (ensureServerPrivateKey
            {| SERVER_PRIVATE_KEY := None; dotenv := Some "RELAYS=wss://r" |}
            "9f3a" false)) =
    Some ("RELAYS=wss://r" ++ LF ++ "SERVER_PRIVATE_KEY=9f3a" ++ LF) /\
  exists text,
    dotenv
      (fst (ensureServerPrivateKey
              {| SERVER_PRIVATE_KEY := None; dotenv := Some "RELAYS=wss://r" |}
              "9f3a" false)) = Some text /\
    JS.includes text "SERVER_PRIVATE_KEY=" = true.
Proof.
  assert (T : opt_truthy
                (SERVER_PRIVATE_KEY
                   {| SERVER_PRIVATE_KEY := None; dotenv := Some "RELAYS=wss://r" |})
              = false) by reflexivity.
  split; [exact T|]. split; [vm_compute; reflexivity|].
  exact (proj2 (proj2 (proj2 (ensureServerPrivateKey_appends_to_dotenv
                               {| SERVER_PRIVATE_KEY := None;
                                  dotenv := Some "RELAYS=wss://r" |} "9f3a" T)))).
Defined.

(** ** Recording and reading together *)

Lemma served_total_is_history {RT : Runtime} (st : Store) (u npub : string)
    (site : SiteRecord) (stats : SiteStats) :
  reachable st ->
  findSite st u = Some site ->
  getSiteStats st u npub = Ok stats ->
  opt_truthy (owner_npub site) && strict_neq (owner_npub site) npub = false /\
  visits (totals stats) = Z.of_nat (List.length (site_visits st (id site))).
Proof.
  intros R F E.
  pose proof (reachable_consistent st R) as C.
  destruct (opt_truthy (owner_npub site) && strict_neq (owner_npub site) npub) eqn:G.
  - rewrite (getSiteStats_refused st u npub site F G) in E. discriminate E.
  - split; [reflexivity|].
    destruct (getSiteStats_served st u npub site F G) as [stats' [E' T]].
    rewrite E in E'. inversion E'; subst stats'. rewrite T.
    exact (C (fun k => (fst (fst k) =? id site)%Z)).
Qed.

(** X25.  A recorded visit shows in the statistics.  In a reachable store,
    when [recordVisit] returns for a site and [getSiteStats] served a
    caller before the call, it serves that caller after the call, and
    [totals.visits] has grown by exactly 1, or by 0 when the call carried
    an event identifier that was already stored. *)
Theorem recorded_visit_shows_in_stats {RT : Runtime} (st st' : Store)
    (t_visit t_stat siteUuid npub : string)
    (pagePath deviceType userAgent nostrEventId : option string)
    (r : VisitResult.t) (stats : SiteStats) :
  reachable st ->
  recordVisit st t_visit t_stat siteUuid pagePath deviceType userAgent nostrEventId
    = (st', Ok r) ->
  getSiteStats st siteUuid npub = Ok stats ->
  let duplicate :=
    match JS.orNull (JS.trim (JS.orEmpty nostrEventId)) with
    | Some e => event_stored st e
    | None => false
    end in
  exists stats',
    getSiteStats st' siteUuid npub = Ok stats' /\
    visits (totals stats') = visits (totals stats) + (if duplicate then 0 else 1).
Proof.
  intros R V G duplicate.
  destruct (findSite st siteUuid) as [s|] eqn:F;
    [|rewrite (recordVisit_unknown_site st _ _ _ _ _ _ _ F) in V; discriminate V].
  destruct (served_total_is_history st siteUuid npub s stats R F G) as [Gd T].
  assert (R' : reachable st').
  { replace st' with
      (run st (RecordVisit t_visit t_stat siteUuid pagePath deviceType userAgent
                 nostrEventId)); [apply reachable_run; exact R|].
    cbn [run]. rewrite V. reflexivity. }
  assert (D : sites_table st' = sites_table st /\
              List.length (site_visits st' (id s)) =
              (List.length (site_visits st (id s)) + (if duplicate then 0 else 1))%nat).
  { unfold duplicate.
    destruct (JS.orNull (JS.trim (JS.orEmpty nostrEventId))) as [e|] eqn:N.
    - destruct (event_stored st e) eqn:E.
      + rewrite (recordVisit_duplicate st _ _ _ _ _ _ _ e s F N E) in V.
        inversion V; subst st'. split; [reflexivity|lia].
      + pose proof (recordVisit_fresh st t_visit t_stat siteUuid pagePath deviceType
                      userAgent nostrEventId e s F N E) as W.
        cbv zeta in W. rewrite W in V. inversion V; subst st'.
        split; [reflexivity|].
        unfold site_visits. cbn [visits_table]. rewrite filter_app, length_app.
        cbn [filter v_site_id]. rewrite Z.eqb_refl. reflexivity.
    - assert (N' : forall x, JS.orNull (JS.trim (JS.orEmpty nostrEventId)) = Some x ->
                             event_stored st x = false)
        by (intros x H; rewrite N in H; discriminate).
      pose proof (recordVisit_writes st t_visit t_stat siteUuid pagePath deviceType
                    userAgent nostrEventId s F N') as W.
      cbv zeta in W. rewrite W in V. inversion V; subst st'.
      split; [reflexivity|].
      unfold site_visits. cbn [visits_table]. rewrite filter_app, length_app.
      cbn [filter v_site_id]. rewrite Z.eqb_refl. reflexivity. }
  destruct D as [S L].
  assert (F' : findSite st' siteUuid = Some s)
    by (rewrite <- F; apply findSite_same_sites; exact S).
  destruct (getSiteStats_served st' siteUuid npub s F' Gd) as [stats' [E' _]].
  exists stats'. split; [exact E'|].
  destruct (served_total_is_history st' siteUuid npub s stats' R' F' E') as [_ T'].
  rewrite T', T, L. destruct duplicate; cbn [Nat.add]; lia.
Qed.

Lemma recorded_visit_shows_in_stats_witness :
  reachable (RT := Example.runtime) Example.scenario_store /\
  exists st' r stats stats',
    recordVisit (RT := Example.runtime) Example.scenario_store
      "2024-01-03 08:00:00" "2024-01-03 08:00:00" "abc123"
      (Some "/home") (Some "desktop") None (Some "ev9") = (st', Ok r) /\
    getSiteStats (RT := Example.runtime) Example.scenario_store "abc123" "ownerX"
      = Ok stats /\
    getSiteStats (RT := Example.runtime) st' "abc123" "ownerX" = Ok stats' /\
    visits (totals stats') = visits (totals stats) + 1.
Proof.
  assert (R : reachable (RT := Example.runtime) Example.scenario_store)
    by (apply reachable_run_all; constructor).
  split; [exact R|].
  destruct (recordVisit (RT := Example.runtime) Example.scenario_store
              "2024-01-03 08:00:00" "2024-01-03 08:00:00" "abc123"
              (Some "/home") (Some "desktop") None (Some "ev9")) as [st' [r|m]] eqn:V;
    [|vm_compute in V; discriminate V].
  destruct (getSiteStats (RT := Example.runtime) Example.scenario_store "abc123"
              "ownerX") as [stats|m] eqn:G; [|vm_compute in G; discriminate G].
  destruct (recorded_visit_shows_in_stats (RT := Example.runtime)
              Example.scenario_store st' "2024-01-03 08:00:00" "2024-01-03 08:00:00"
              "abc123" "ownerX" (Some "/home") (Some "desktop") None (Some "ev9")
              r stats R V G) as [stats' [E' T]].
  exists st', r, stats, stats'. repeat split; trivial.
Defined.

(** ** Cleaning the database *)


